(** * Tracker featurization (rasa/core/featurizers.py)

    A shallow embedding of the tracker-featurization pipeline and the
    properties its specification states about it.

    Part I holds the embedding and the vocabulary of the statements,
    Part II the lemmas and theorems, Part III worked instances, Part IV
    further properties read off the code, with their instances. *)

From Stdlib Require Import ZArith QArith Qcanon.
From Stdlib Require String.
From stdpp Require Import base decidable option numbers list gmap strings.

Local Open Scope Z_scope.

(* ===================================================================== *)
(** * Part I: the embedding *)
(* ===================================================================== *)

(** ** Exceptions and results *)

Inductive Exception :=
| KeyError (key : string)
| PyException (msg : string)
| ValueError (msg : string)
| NotImplementedError (msg : string)
| AttributeError (msg : string)
| TypeError (msg : string)
| IndexError (msg : string).

Inductive Result (A : Type) :=
| Ok (a : A)
| Raise (e : Exception).
Arguments Ok {A} a.
Arguments Raise {A} e.

(** Sequencing: an exception ends the computation. *)
Definition rbind {A B} (m : Result A) (f : A → Result B) : Result B :=
  match m with
  | Ok a => f a
  | Raise e => Raise e
  end.

Notation "'let*' x := m 'in' k" := (rbind m (fun x => k))
  (at level 10, x pattern, m at level 100, k at level 200,
   format "'[v' 'let*'  x  :=  m  'in' '/' k ']'").

#[global] Instance Result_ret : MRet Result := fun A a => Ok a.
#[global] Instance Result_bind : MBind Result := fun A B f m => rbind m f.

Definition is_ok {A} (r : Result A) : bool :=
  match r with Ok _ => true | Raise _ => false end.

(** ** Python values used by the featurizers *)

(** A feature weight is a Python float; finite floats are embedded
    exactly, and with their order, in the canonical rationals. *)
Definition weight (num : Z) (den : positive) : Qc := Q2Qc (num # den).

(** [a > b] on floats. *)
Definition float_gt (a b : Qc) : bool := bool_decide (b < a)%Qc.

(** A [Dict[Text, float]] in insertion order. *)
Abbreviation State := (list (string * Qc)).

Definition keys (d : State) : list string := d.*1.

(** [d[k] = v]: an existing key keeps its position, a new key goes last. *)
Fixpoint dict_set (k : string) (v : Qc) (d : State) : State :=
  match d with
  | [] => [(k, v)]
  | (k', v') :: d' =>
      if decide (k' = k) then (k, v) :: d' else (k', v') :: dict_set k v d'
  end.

(** [del d[k]], with the [KeyError] of a missing key. *)
Fixpoint dict_del (k : string) (d : State) : Result State :=
  match d with
  | [] => Raise (KeyError k)
  | (k', v') :: d' =>
      if decide (k' = k) then Ok d'
      else let* d'' := dict_del k d' in Ok ((k', v') :: d'')
  end.

(** [dict(pairs)]: later pairs overwrite earlier ones. *)
Definition dict_of (pairs : list (string * Qc)) : State :=
  fold_left (fun d kv => dict_set kv.1 kv.2 d) pairs [].

(** [name.startswith("intent_")] *)
Definition is_intent (name : string) : bool := String.prefix "intent_" name.

(** [s.replace(old, new)] for a non-empty [old]. *)
Fixpoint str_replace_from (old new : string) (skip : nat) (s : string) : string :=
  match s with
  | EmptyString => EmptyString
  | String c s' =>
      match skip with
      | S k => str_replace_from old new k s'
      | O =>
          if String.prefix old s
          then new +:+ str_replace_from old new (Nat.pred (String.length old)) s'
          else String c (str_replace_from old new O s')
      end
  end.

Definition str_replace (old new s : string) : string :=
  str_replace_from old new O s.

(** ** Dict objects and references

    The dicts built by [_create_states] are shared between the windows cut
    from one tracker and are mutated in place by the post-processing, so
    they live in a store; a window holds references or [None]. *)

Abbreviation loc := nat.
Abbreviation Heap := (list State).

(** Allocating fresh dict objects. *)
Definition alloc_list (h : Heap) (dicts : list State) : list loc * Heap :=
  (seq (length h) (length dicts), h ++ dicts).

(** The dict behind a window entry. *)
Definition deref (h : Heap) (s : option loc) : option State :=
  match s with
  | Some l => h !! l
  | None => None
  end.

(** ** Events, trackers and the domain *)

Inductive Event :=
| ActionExecuted (action_name : string) (unpredictable : bool)
| OtherEvent (description : string).

(** Modelled from the spec: the domain (rasa.core.domain is not among the
    sources) provides the total action count, an action-to-index mapping
    that fails for an unknown name, and the vocabulary of input-state
    keys. *)
Record Domain := {
  num_actions : Z;
  index_for_action : string → Result Z;
  input_states : list string;
}.

(** Modelled from the spec: the tracker (rasa.core.trackers is not among
    the sources) is read through two snapshots, [past_states(domain)], an
    ordered sequence of states each given by its (name, weight) items, and
    [applied_events()], an ordered sequence of events. *)
Record DialogueStateTracker := {
  past_states : Domain → list (list (string * Qc));
  applied_events : list Event;
}.

(** ** numpy helpers *)

(** [np.zeros(n, dtype=int)] and [np.ones(n, dtype=...)]. *)
Definition np_full (n : Z) (v : Z) : Result (list Z) :=
  if n <? 0 then Raise (ValueError "negative dimensions are not allowed")
  else Ok (replicate (Z.to_nat n) v).

(** [a * c], elementwise. *)
Definition np_mul (a : list Z) (c : Z) : list Z := (fun x => x * c) <$> a.

(** [y[i] = v] on a one-dimensional array: a negative index counts from
    the end, an index out of bounds raises. *)
Definition np_setitem (y : list Z) (i : Z) (v : Z) : Result (list Z) :=
  let n := Z.of_nat (length y) in
  if (0 <=? i) && (i <? n) then Ok (<[Z.to_nat i := v]> y)
  else if (- n <=? i) && (i <? 0) then Ok (<[Z.to_nat (n + i) := v]> y)
  else Raise (IndexError "index is out of bounds for axis 0").

(** ** SingleStateFeaturizer *)

(** The interface the tracker featurizers use; [prepare_from_domain]
    returns the featurizer as it leaves it. *)
Class SingleStateFeaturizer (E : Type) := {
  prepare_from_domain : E → Domain → Result E;
  encode : E → option State → Result (list Z);
}.

(** [SingleStateFeaturizer.action_as_one_hot] (a static method). *)
Definition action_as_one_hot (action : option string) (domain : Domain)
  : Result (list Z) :=
  match action with
  | None =>
      let* ones := np_full (num_actions domain) 1 in
      Ok (np_mul ones (-1))
  | Some name =>
      let* y := np_full (num_actions domain) 0 in
      let* i := index_for_action domain name in
      np_setitem y i 1
  end.

(** The base class: [prepare_from_domain] passes, [encode] is abstract. *)
Inductive BaseSingleStateFeaturizer := base_single_state_featurizer.

#[global] Instance Base_featurizer : SingleStateFeaturizer BaseSingleStateFeaturizer := {
  prepare_from_domain e _ := Ok e;
  encode _ _ :=
    Raise (NotImplementedError
      "SingleStateFeaturizer must have the capacity to encode states to a feature vector");
}.

(** *** BOWSingleStateFeaturizer *)

(** A fitted count vectorizer, as far as the featurizer reads it. *)
Record CountVectorizer := {
  vocabulary_ : gmap string nat;
}.

Record BOWSingleStateFeaturizer := {
  delimiter : string;
  vectorizers : gmap string CountVectorizer;
}.

(** What [encode] returns: a dense vector, or a sparse matrix given by
    its rows. *)
Inductive Encoding :=
| Dense (v : list Z)
| Sparse (rows : list (list Z)).

Module BOW.
Section BOW.

(** The inherited CountVectorsFeaturizer and the constant [CLS_TOKEN]
    (rasa.nlu is not among the sources): training on message texts,
    tokenisation, and the feature rows of a token sequence. *)
Variable CLS_TOKEN : string.
Variable train : BOWSingleStateFeaturizer → list string → BOWSingleStateFeaturizer.
Variable _get_processed_message_tokens_by_attribute :
  BOWSingleStateFeaturizer → string → list string.
Variable _create_sequence :
  BOWSingleStateFeaturizer → list string → list (list Z).

Definition prepare_from_domain (self : BOWSingleStateFeaturizer) (domain : Domain)
  : BOWSingleStateFeaturizer :=
  let training_data :=
    (fun key => str_replace (delimiter self) " " key +:+ " " +:+ CLS_TOKEN)
      <$> input_states domain in
  train self training_data.

(** [len(self.vectorizers["text"].vocabulary_)] *)
Definition vocabulary_size (self : BOWSingleStateFeaturizer) : Result Z :=
  match vectorizers self !! "text" with
  | Some v => Ok (Z.of_nat (size (vocabulary_ v)))
  | None => Raise (KeyError "text")
  end.

Definition encode (self : BOWSingleStateFeaturizer) (state : option State)
    (type_output : string) : Result Encoding :=
  match state with
  | None =>
      let* n := vocabulary_size self in
      let* ones := np_full n 1 in
      let v := np_mul ones (-1) in
      if decide (type_output = "sparse") then Ok (Sparse [v]) else Ok (Dense v)
  | Some state =>
      let state_keys := (str_replace (delimiter self) " ") <$> keys state in
      let message := String.concat " " state_keys in
      let message_tokens :=
        _get_processed_message_tokens_by_attribute self message in
      let features := _create_sequence self (message_tokens ++ [CLS_TOKEN]) in
      match last features with
      | Some row =>
          if decide (type_output = "dense") then Ok (Dense row)
          else Ok (Sparse [row])
      | None => Raise (IndexError "index -1 is out of bounds for axis 0")
      end
  end.

(** The featurizer behind the interface: [encode] with its default
    [type_output]. *)
#[local] Instance featurizer : SingleStateFeaturizer BOWSingleStateFeaturizer := {
  prepare_from_domain self domain := Ok (prepare_from_domain self domain);
  encode self state :=
    let* r := encode self state "dense" in
    match r with
    | Dense v => Ok v
    | Sparse _ => Raise (TypeError "dense output expected")
    end;
}.

End BOW.
End BOW.

(** ** TrackerFeaturizer and its two subclasses *)

Inductive FeaturizerClass :=
| TrackerFeaturizerBase
| FullDialogueTrackerFeaturizer
| MaxHistoryTrackerFeaturizer.

(** [isinstance(self, MaxHistoryTrackerFeaturizer)] *)
Definition is_max_history (c : FeaturizerClass) : bool :=
  match c with
  | MaxHistoryTrackerFeaturizer => true
  | _ => false
  end.

(** The attributes of a tracker featurizer object; [max_len] belongs to
    the full-dialogue class, [max_history] and [remove_duplicates] to the
    max-history class. *)
Record TrackerFeaturizer (E : Type) := {
  class_of : FeaturizerClass;
  state_featurizer : option E;
  use_intent_probabilities : bool;
  max_len : option Z;
  max_history : Z;
  remove_duplicates : bool;
}.
Arguments class_of {E} _.
Arguments state_featurizer {E} _.
Arguments use_intent_probabilities {E} _.
Arguments max_len {E} _.
Arguments max_history {E} _.
Arguments remove_duplicates {E} _.

Definition set_max_len {E} (self : TrackerFeaturizer E) (m : option Z)
  : TrackerFeaturizer E :=
  {| class_of := class_of self;
     state_featurizer := state_featurizer self;
     use_intent_probabilities := use_intent_probabilities self;
     max_len := m;
     max_history := max_history self;
     remove_duplicates := remove_duplicates self |}.

Definition set_state_featurizer {E} (self : TrackerFeaturizer E) (e : option E)
  : TrackerFeaturizer E :=
  {| class_of := class_of self;
     state_featurizer := e;
     use_intent_probabilities := use_intent_probabilities self;
     max_len := max_len self;
     max_history := max_history self;
     remove_duplicates := remove_duplicates self |}.

Definition MAX_HISTORY_DEFAULT : Z := 5.

(** The three constructors. *)
Definition TrackerFeaturizer_init {E} (state_featurizer : option E)
    (use_intent_probabilities : bool) : TrackerFeaturizer E :=
  {| class_of := TrackerFeaturizerBase;
     state_featurizer := state_featurizer;
     use_intent_probabilities := use_intent_probabilities;
     max_len := None;
     max_history := MAX_HISTORY_DEFAULT;
     remove_duplicates := true |}.

Definition FullDialogue_init {E} (state_featurizer : E)
    (use_intent_probabilities : bool) : TrackerFeaturizer E :=
  {| class_of := FullDialogueTrackerFeaturizer;
     state_featurizer := Some state_featurizer;
     use_intent_probabilities := use_intent_probabilities;
     max_len := None;
     max_history := MAX_HISTORY_DEFAULT;
     remove_duplicates := true |}.

(** [self.max_history = max_history or self.MAX_HISTORY_DEFAULT] *)
Definition MaxHistory_init {E} (state_featurizer : option E)
    (max_history : option Z) (remove_duplicates : bool)
    (use_intent_probabilities : bool) : TrackerFeaturizer E :=
  {| class_of := MaxHistoryTrackerFeaturizer;
     state_featurizer := state_featurizer;
     use_intent_probabilities := use_intent_probabilities;
     max_len := None;
     max_history :=
       match max_history with
       | Some n => if n =? 0 then MAX_HISTORY_DEFAULT else n
       | None => MAX_HISTORY_DEFAULT
       end;
     remove_duplicates := remove_duplicates |}.

(** *** _create_states: the per-state intent collapse *)

(** Loop state of the scan over one state: the working copy [bin_state],
    [best_intent] and [best_intent_prob]. *)
Record scan := Scan {
  bin_state : State;
  best_intent : option string;
  best_intent_prob : Qc;
}.

(** One iteration of [for state_name, prob in state]. *)
Definition scan_step (s : scan) (item : string * Qc) : Result scan :=
  let '(state_name, prob) := item in
  if is_intent state_name then
    if float_gt prob (best_intent_prob s) then
      match best_intent s with
      | Some b =>
          let* d := dict_del b (bin_state s) in
          Ok (Scan d (Some state_name) prob)
      | None => Ok (Scan (bin_state s) (Some state_name) prob)
      end
    else
      let* d := dict_del state_name (bin_state s) in
      Ok (Scan d (best_intent s) (best_intent_prob s))
  else Ok s.

Fixpoint scan_loop (s : scan) (items : list (string * Qc)) : Result scan :=
  match items with
  | [] => Ok s
  | item :: rest => let* s' := scan_step s item in scan_loop s' rest
  end.

(** The body of the loop over [states]: one binarised state. *)
Definition binarize (state : list (string * Qc)) : Result State :=
  let* s := scan_loop (Scan (dict_of state) None (weight (-1) 1)) state in
  match best_intent s with
  | Some b => Ok (dict_set b (weight 1 1) (bin_state s))
  | None => Ok (bin_state s)
  end.

Definition _create_states {E} (self : TrackerFeaturizer E)
    (tracker : DialogueStateTracker) (domain : Domain)
    (is_binary_training : bool) (h : Heap) : Result (list loc * Heap) :=
  let states := past_states tracker domain in
  if negb (use_intent_probabilities self) && negb is_binary_training then
    let* bin_states := mapM binarize states in
    Ok (alloc_list h bin_states)
  else Ok (alloc_list h (dict_of <$> states)).

(** *** _postprocess_trackers_as_states: the duplicate-intent compressor *)

(** Truthiness of a window entry: [None] and the empty dict are falsy. *)
Definition truthy (d : option State) : bool :=
  match d with
  | Some (_ :: _) => true
  | _ => false
  end.

(** [[key for key in state_keys if key.startswith("intent_")]] *)
Definition intent_keys (d : State) : list string :=
  filter (fun key => is_intent key) (keys d).

(** One iteration of the loop over [j]; the store and [previous_intent]
    are carried along. *)
Definition postprocess_turn (st : Heap * option string) (entry : option loc)
  : Result (Heap * option string) :=
  let '(h, previous_intent) := st in
  if truthy (deref h entry) then
    match entry, deref h entry with
    | Some l, Some d =>
        match intent_keys d with
        | [] => Ok (h, previous_intent)
        | current_intent :: _ =>
            if decide (Some current_intent = previous_intent) then
              let* d' := dict_del current_intent d in
              Ok (<[l := d']> h, previous_intent)
            else Ok (h, Some current_intent)
        end
    | _, _ => Ok (h, previous_intent)
    end
  else Ok (h, previous_intent).

Fixpoint postprocess_turns (st : Heap * option string) (entries : list (option loc))
  : Result (Heap * option string) :=
  match entries with
  | [] => Ok st
  | entry :: rest => let* st' := postprocess_turn st entry in postprocess_turns st' rest
  end.

(** The loop over [i]; [previous_intent] starts as [None] in every
    sequence.  The method returns nothing: its effect is the store. *)
Fixpoint _postprocess_trackers_as_states
    (trackers_as_states : list (list (option loc))) (h : Heap) : Result Heap :=
  match trackers_as_states with
  | [] => Ok h
  | states :: rest =>
      let* st := postprocess_turns (h, None) states in
      _postprocess_trackers_as_states rest st.1
  end.

(** *** _pad_states

    The list returned is the padded one; Python also extends the list it
    was given in place, which no caller reads again. *)

Definition _pad_states {E A} (self : TrackerFeaturizer E) (states : list (option A))
  : Result (list (option A)) :=
  match class_of self with
  | FullDialogueTrackerFeaturizer =>
      match max_len self with
      | Some m =>
          let n := Z.of_nat (length states) in
          if n <? m then Ok (states ++ replicate (Z.to_nat (m - n)) None)
          else Ok states
      | None =>
          Raise (TypeError "'<' not supported between instances of 'int' and 'NoneType'")
      end
  | _ => Ok states
  end.

(** [[self._create_states(tracker, domain) for tracker in trackers]], the
    first step of both [prediction_states]. *)
Fixpoint create_states_all {E} (self : TrackerFeaturizer E)
    (trackers : list DialogueStateTracker) (domain : Domain) (h : Heap)
  : Result (list (list loc) * Heap) :=
  match trackers with
  | [] => Ok ([], h)
  | tracker :: rest =>
      let* (states, h) := _create_states self tracker domain false h in
      let* (others, h) := create_states_all self rest domain h in
      Ok (states :: others, h)
  end.

(** *** FullDialogueTrackerFeaturizer *)

Module Full.

(** [max(...)] of a non-empty list of integers. *)
Definition py_max (l : list Z) : option Z :=
  match l with
  | [] => None
  | x :: l' => Some (fold_left Z.max l' x)
  end.

Definition _calculate_max_len {A} (trackers_as_actions : list (list A)) : option Z :=
  match trackers_as_actions with
  | [] => None
  | _ => py_max ((fun states => Z.of_nat (length states)) <$> trackers_as_actions)
  end.

(** The loop over [tracker.applied_events()], carrying
    [delete_first_state] and [actions]. *)
Fixpoint scan_events (events : list Event) (delete_first_state : bool)
    (actions : list string) : Result (bool * list string) :=
  match events with
  | [] => Ok (delete_first_state, actions)
  | ActionExecuted action_name unpredictable :: rest =>
      if negb unpredictable then
        scan_events rest delete_first_state (actions ++ [action_name])
      else if delete_first_state then
        Raise (PyException
          "Found two unpredictable actions in one story.Check your story files.")
      else scan_events rest true actions
  | OtherEvent _ :: rest => scan_events rest delete_first_state actions
  end.

(** The lists built so far and the store. *)
Record progress := Progress {
  trackers_as_states : list (list (option loc));
  trackers_as_actions : list (list string);
  heap : Heap;
}.

(** The body of the loop over the trackers. *)
Definition process_tracker {E} (self : TrackerFeaturizer E) (domain : Domain)
    (p : progress) (tracker : DialogueStateTracker) : Result progress :=
  let* (states, h) := _create_states self tracker domain true (heap p) in
  let* (delete_first_state, actions) := scan_events (applied_events tracker) false [] in
  let states := if delete_first_state : bool then drop 1 states else states in
  Ok (Progress (trackers_as_states p ++ [Some <$> removelast states])
               (trackers_as_actions p ++ [actions])
               h).

Fixpoint trackers_loop {E} (self : TrackerFeaturizer E) (domain : Domain)
    (p : progress) (trackers : list DialogueStateTracker) : Result progress :=
  match trackers with
  | [] => Ok p
  | tracker :: rest =>
      let* p' := process_tracker self domain p tracker in
      trackers_loop self domain p' rest
  end.

(** Returns the two lists, and the featurizer with [max_len] set, and
    the store. *)
Definition training_states_and_actions {E} (self : TrackerFeaturizer E)
    (trackers : list DialogueStateTracker) (domain : Domain) (h : Heap)
  : Result (list (list (option loc)) * list (list string)
            * TrackerFeaturizer E * Heap) :=
  let* p := trackers_loop self domain (Progress [] [] h) trackers in
  Ok (trackers_as_states p, trackers_as_actions p,
      set_max_len self (_calculate_max_len (trackers_as_actions p)),
      heap p).

Definition prediction_states {E} (self : TrackerFeaturizer E)
    (trackers : list DialogueStateTracker) (domain : Domain) (h : Heap)
  : Result (list (list (option loc)) * Heap) :=
  let* (trackers_as_states, h) := create_states_all self trackers domain h in
  Ok ((fun states : list loc => Some <$> states) <$> trackers_as_states, h).

End Full.

(** *** MaxHistoryTrackerFeaturizer *)

Module MaxHistory.

Definition slice_state_history {A} (states : list A) (slice_length : Z)
  : list (option A) :=
  let slice_end := Z.of_nat (length states) in
  let slice_start := Z.max 0 (slice_end - slice_length) in
  let padding := replicate (Z.to_nat (Z.max 0 (slice_length - slice_end))) None in
  padding ++ (Some <$> drop (Z.to_nat slice_start) states).

(** A window entry frozen for hashing: [None], or the set of the items
    of the dict. *)
Definition freeze (h : Heap) (s : option loc) : option (gset (string * Qc)) :=
  match deref h s with
  | Some d => Some (list_to_set d)
  | None => None
  end.

Section Hashing.

(** Python's [hash] on a pair of tuples: a function of the value
    hashed. *)
Variable py_hash : list (option (gset (string * Qc))) * list string → Z.

Definition _hash_example (h : Heap) (states : list (option loc))
    (action : string) : Z :=
  let frozen_states := freeze h <$> states in
  let frozen_actions := [action] in
  py_hash (frozen_states, frozen_actions).

(** The examples emitted so far and the hashes seen. *)
Record progress := Progress {
  hashed_examples : gset Z;
  trackers_as_states : list (list (option loc));
  trackers_as_actions : list (list string);
}.

Definition emit (p : progress) (sliced_states : list (option loc))
    (action_name : string) : progress :=
  Progress (hashed_examples p)
           (trackers_as_states p ++ [sliced_states])
           (trackers_as_actions p ++ [[action_name]]).

(** The loop over [tracker.applied_events()], carrying [idx]. *)
Fixpoint events_loop {E} (self : TrackerFeaturizer E) (h : Heap)
    (states : list loc) (events : list Event) (idx : nat) (p : progress)
  : progress :=
  match events with
  | [] => p
  | ActionExecuted action_name unpredictable :: rest =>
      let p' :=
        if negb unpredictable then
          let sliced_states :=
            slice_state_history (take (idx + 1) states) (max_history self) in
          if remove_duplicates self then
            let hashed := _hash_example h sliced_states action_name in
            if decide (hashed ∉ hashed_examples p) then
              emit (Progress ({[hashed]} ∪ hashed_examples p)
                             (trackers_as_states p) (trackers_as_actions p))
                   sliced_states action_name
            else p
          else emit p sliced_states action_name
        else p in
      events_loop self h states rest (idx + 1)%nat p'
  | OtherEvent _ :: rest => events_loop self h states rest idx p
  end.

Fixpoint trackers_loop {E} (self : TrackerFeaturizer E) (domain : Domain)
    (trackers : list DialogueStateTracker) (h : Heap) (p : progress)
  : Result (progress * Heap) :=
  match trackers with
  | [] => Ok (p, h)
  | tracker :: rest =>
      let* (states, h) := _create_states self tracker domain true h in
      let p' := events_loop self h states (applied_events tracker) 0%nat p in
      trackers_loop self domain rest h p'
  end.

Definition training_states_and_actions {E} (self : TrackerFeaturizer E)
    (trackers : list DialogueStateTracker) (domain : Domain) (h : Heap)
  : Result (list (list (option loc)) * list (list string)
            * TrackerFeaturizer E * Heap) :=
  let* (p, h) := trackers_loop self domain trackers h (Progress ∅ [] []) in
  Ok (trackers_as_states p, trackers_as_actions p, self, h).

End Hashing.

Definition prediction_states {E} (self : TrackerFeaturizer E)
    (trackers : list DialogueStateTracker) (domain : Domain) (h : Heap)
  : Result (list (list (option loc)) * Heap) :=
  let* (trackers_as_states, h) := create_states_all self trackers domain h in
  Ok ((fun states : list loc => slice_state_history states (max_history self))
        <$> trackers_as_states, h).

End MaxHistory.

(** ** The featurization facade *)

(** The calls made on the state featurizer, in order. *)
Inductive Call :=
| CallPrepareFromDomain (domain : Domain)
| CallEncode (state : option State)
| CallActionAsOneHot (action : option string).

(** A computation that may raise and that records the calls it made on the
    state featurizer, also when it raises. *)
Record Eff (A : Type) := mkEff {
  outcome : Result A;
  calls : list Call;
}.
Arguments mkEff {A} outcome calls.
Arguments outcome {A} _.
Arguments calls {A} _.

Definition ebind {A B} (m : Eff A) (f : A → Eff B) : Eff B :=
  match outcome m with
  | Ok a => mkEff (outcome (f a)) (calls m ++ calls (f a))
  | Raise e => mkEff (Raise e) (calls m)
  end.

Definition lift {A} (r : Result A) : Eff A := mkEff r [].

Notation "'do*' x := m 'in' k" := (ebind m (fun x => k))
  (at level 10, x pattern, m at level 100, k at level 200,
   format "'[v' 'do*'  x  :=  m  'in' '/' k ']'").

#[global] Instance Eff_ret : MRet Eff := fun A a => mkEff (Ok a) [].
#[global] Instance Eff_bind : MBind Eff := fun A B f m => ebind m f.

(** [y], with or without the time axis. *)
Inductive Labels :=
| Labels3 (y : list (list (list Z)))
| Labels2 (y : list (list Z)).

Record DialogueTrainingData := {
  X : list (list (list Z));
  y : Labels;
  true_length : list Z;
}.

(** [np.array(labels).ndim == 3]: a non-empty batch of equally long,
    non-empty stories of equally long rows. *)
Definition is_rank3 (labels : list (list (list Z))) : bool :=
  match labels with
  | [] => false
  | [] :: _ => false
  | (row :: story) :: _ =>
      forallb (fun s => length s =? length (row :: story))%nat labels
      && forallb (forallb (fun r => length r =? length row)%nat) labels
  end.

Section Facade.

Context {E : Type} `{!SingleStateFeaturizer E}.
Variable py_hash : list (option (gset (string * Qc))) * list string → Z.

(** [self.state_featurizer.encode(state)] *)
Definition encode_state (self : TrackerFeaturizer E) (h : Heap)
    (state : option loc) : Eff (list Z) :=
  match state_featurizer self with
  | Some e => mkEff (encode e (deref h state)) [CallEncode (deref h state)]
  | None => lift (Raise (AttributeError "'NoneType' object has no attribute 'encode'"))
  end.

(** The body of the loop of [_featurize_states]. *)
Definition featurize_tracker_states (self : TrackerFeaturizer E) (h : Heap)
    (batch_size : nat) (tracker_states : list (option loc))
  : Eff (list (list Z) * Z) :=
  let dialogue_len := Z.of_nat (length tracker_states) in
  do* tracker_states :=
    lift (if (1 <? batch_size)%nat then _pad_states self tracker_states
          else Ok tracker_states) in
  do* story_features := mapM (encode_state self h) tracker_states in
  mret (story_features, dialogue_len).

Definition _featurize_states (self : TrackerFeaturizer E) (h : Heap)
    (trackers_as_states : list (list (option loc)))
  : Eff (list (list (list Z)) * list Z) :=
  do* rows :=
    mapM (featurize_tracker_states self h (length trackers_as_states))
         trackers_as_states in
  mret (rows.*1, rows.*2).

(** [self.state_featurizer.action_as_one_hot(action, domain)] *)
Definition one_hot_label (self : TrackerFeaturizer E) (domain : Domain)
    (action : option string) : Eff (list Z) :=
  match state_featurizer self with
  | Some _ => mkEff (action_as_one_hot action domain) [CallActionAsOneHot action]
  | None =>
      lift (Raise (AttributeError
        "'NoneType' object has no attribute 'action_as_one_hot'"))
  end.

Definition featurize_tracker_actions (self : TrackerFeaturizer E)
    (domain : Domain) (batch_size : nat) (tracker_actions : list string)
  : Eff (list (list Z)) :=
  do* tracker_actions :=
    lift (if (1 <? batch_size)%nat then _pad_states self (Some <$> tracker_actions)
          else Ok (Some <$> tracker_actions)) in
  mapM (one_hot_label self domain) tracker_actions.

Definition _featurize_labels (self : TrackerFeaturizer E)
    (trackers_as_actions : list (list string)) (domain : Domain) : Eff Labels :=
  do* labels :=
    mapM (featurize_tracker_actions self domain (length trackers_as_actions))
         trackers_as_actions in
  if is_rank3 labels
     && is_max_history (class_of self)
  then mret (Labels2 ((fun story => default [] (head story)) <$> labels))
  else mret (Labels3 labels).

(** Dispatch on the class of [self]. *)
Definition training_states_and_actions (self : TrackerFeaturizer E)
    (trackers : list DialogueStateTracker) (domain : Domain) (h : Heap)
  : Result (list (list (option loc)) * list (list string)
            * TrackerFeaturizer E * Heap) :=
  match class_of self with
  | TrackerFeaturizerBase =>
      Raise (NotImplementedError
        "Featurizer must have the capacity to encode trackers to feature vectors")
  | FullDialogueTrackerFeaturizer =>
      Full.training_states_and_actions self trackers domain h
  | MaxHistoryTrackerFeaturizer =>
      MaxHistory.training_states_and_actions py_hash self trackers domain h
  end.

Definition prediction_states (self : TrackerFeaturizer E)
    (trackers : list DialogueStateTracker) (domain : Domain) (h : Heap)
  : Result (list (list (option loc)) * Heap) :=
  match class_of self with
  | TrackerFeaturizerBase =>
      Raise (NotImplementedError
        "Featurizer must have the capacity to create feature vector")
  | FullDialogueTrackerFeaturizer => Full.prediction_states self trackers domain h
  | MaxHistoryTrackerFeaturizer => MaxHistory.prediction_states self trackers domain h
  end.

(** Returns the training data, and the featurizer and the store as the
    call leaves them. *)
Definition featurize_trackers (self : TrackerFeaturizer E)
    (trackers : list DialogueStateTracker) (domain : Domain) (h : Heap)
  : Eff (DialogueTrainingData * TrackerFeaturizer E * Heap) :=
  match state_featurizer self with
  | None =>
      lift (Raise (ValueError
        "Variable 'state_featurizer' is not set. Provide 'SingleStateFeaturizer' class to featurize trackers."))
  | Some e =>
      do* e := mkEff (prepare_from_domain e domain) [CallPrepareFromDomain domain] in
      let self := set_state_featurizer self (Some e) in
      do* (trackers_as_states, trackers_as_actions, self, h) :=
        lift (training_states_and_actions self trackers domain h) in
      do* h := lift (_postprocess_trackers_as_states trackers_as_states h) in
      do* (X, true_lengths) := _featurize_states self h trackers_as_states in
      do* y := _featurize_labels self trackers_as_actions domain in
      mret ({| X := X; y := y; true_length := true_lengths |}, self, h)
  end.

Definition create_X (self : TrackerFeaturizer E)
    (trackers : list DialogueStateTracker) (domain : Domain) (h : Heap)
  : Eff (list (list (list Z))) :=
  do* (trackers_as_states, h) := lift (prediction_states self trackers domain h) in
  do* (X, _) := _featurize_states self h trackers_as_states in
  mret X.

End Facade.

(** ** Loading a persisted featurizer *)

Inductive LogRecord :=
| LogError (msg : string)
| LogDebug (msg : string).

(** The files of the file system, by path. *)
Abbreviation FileSystem := (gmap string string).

(** [os.path.join(path, name)] for a relative [name]. *)
Definition ends_with_slash (path : string) : bool :=
  match last (String.list_ascii_of_string path) with
  | Some c => bool_decide (String c EmptyString = "/")
  | None => false
  end.

Definition os_path_join (path name : string) : string :=
  if decide (path = EmptyString) then name
  else if ends_with_slash path then path +:+ name
  else path +:+ "/" +:+ name.

Definition os_path_isfile (fs : FileSystem) (file : string) : bool :=
  bool_decide (is_Some (fs !! file)).

Definition read_file (fs : FileSystem) (file : string) : Result string :=
  match fs !! file with
  | Some content => Ok content
  | None => Raise (ValueError ("File '" +:+ file +:+ "' does not exist."))
  end.

Section Load.

Context {E : Type}.
(** [jsonpickle.decode], which may raise on a malformed file. *)
Variable jsonpickle_decode : string → Result (TrackerFeaturizer E).

(** [TrackerFeaturizer.load]: the value returned, or the exception, and
    the records logged. *)
Definition load (fs : FileSystem) (path : string)
  : Result (option (TrackerFeaturizer E)) * list LogRecord :=
  let featurizer_file := os_path_join path "featurizer.json" in
  if os_path_isfile fs featurizer_file then
    (let* content := read_file fs featurizer_file in
     let* featurizer := jsonpickle_decode content in
     Ok (Some featurizer), [])
  else
    (Ok None,
     [LogError ("Couldn't load featurizer for policy. File '"
                +:+ featurizer_file +:+ "' doesn't exist.")]).

End Load.

(* --------------------------------------------------------------------- *)
(** ** Vocabulary of the statements *)
(* --------------------------------------------------------------------- *)

(** *** Intent collapse *)

(** The running best of the scan, as a function of the items read. *)
Fixpoint best_of (b : option string) (bp : Qc) (items : list (string * Qc))
  : option string * Qc :=
  match items with
  | [] => (b, bp)
  | (k, p) :: rest =>
      if is_intent k && float_gt p bp then best_of (Some k) p rest
      else best_of b bp rest
  end.

(** The working copy after the scan has read [l]: the intent features
    other than the running best are gone. *)
Definition keep (b : option string) (l : State) : State :=
  filter (fun kv => is_intent kv.1 = false ∨ b = Some kv.1) l.

(** The intent features of a state, and the others, in order. *)
Definition intent_features (d : State) : State :=
  filter (fun kv => is_intent kv.1 = true) d.

Definition other_features (d : State) : State :=
  filter (fun kv => is_intent kv.1 = false) d.

(** [(k, p)], at position [i], is the intent feature of maximal weight,
    the first one among equals. *)
Definition first_max_intent (state : State) (i : nat) (k : string) (p : Qc) : Prop :=
  state !! i = Some (k, p) ∧ is_intent k = true ∧
  ∀ j k' p', state !! j = Some (k', p') → is_intent k' = true →
    (p' ≤ p)%Qc ∧ ((j < i)%nat → (p' < p)%Qc).

(** What the specification asks of a collapsed state. *)
Definition collapsed (state r : State) : Prop :=
  (intent_features state = [] → r = state) ∧
  (intent_features state ≠ [] →
   ∃ i k p, first_max_intent state i k p ∧
            intent_features r = [(k, weight 1 1)] ∧
            other_features r = other_features state).

(** The invariant of the scan: what [best_intent] and [best_intent_prob]
    say about the items [l] read so far. *)
Definition running_best_ok (l : State) (b : option string) (bp : Qc) : Prop :=
  match b with
  | None => bp = weight (-1) 1 ∧
            ∀ k p, (k, p) ∈ l → is_intent k = true → (p ≤ weight (-1) 1)%Qc
  | Some k => (weight (-1) 1 < bp)%Qc ∧ ∃ i, first_max_intent l i k bp
  end.

(** *** Windows *)

Definition has_length {A} (n : Z) (l : list A) : Prop := Z.of_nat (length l) = n.

(** *** Events *)

Definition is_unpredictable (e : Event) : bool :=
  match e with
  | ActionExecuted _ unpredictable => unpredictable
  | OtherEvent _ => false
  end.

(** The number of executed actions of a tracker flagged unpredictable. *)
Definition count_unpredictable (events : list Event) : nat :=
  length (filter (fun e => is_unpredictable e = true) events).

(** The names of the executed actions not flagged unpredictable, in event
    order. *)
Definition predictable_actions (events : list Event) : list string :=
  omap (fun e => match e with
                 | ActionExecuted name false => Some name
                 | _ => None
                 end) events.

Definition two_unpredictable_error : Exception :=
  PyException "Found two unpredictable actions in one story.Check your story files.".

(** The state sequence the full-dialogue featurizer keeps of a tracker:
    without the leading state if an action was unpredictable, and without
    the final state. *)
Definition full_dialogue_states {A} (events : list Event) (states : list A) : list A :=
  removelast (if bool_decide (0 < count_unpredictable events)%nat
              then drop 1 states else states).

(** A window entry is valid in a store that holds its dict. *)
Definition valid_entry (h : Heap) (s : option loc) : Prop :=
  ∀ l, s = Some l → (l < length h)%nat.

(** The dicts behind the windows of a batch. *)
Definition deref_all (h : Heap) (trackers_as_states : list (list (option loc)))
  : list (list (option State)) :=
  (λ w : list (option loc), deref h <$> w) <$> trackers_as_states.

(** The state sequences and the action lists the specification gives the
    full-dialogue featurizer. *)
Definition full_dialogue_sequences (domain : Domain)
    (trackers : list DialogueStateTracker) : list (list (option State)) :=
  (λ tracker : DialogueStateTracker,
     Some <$> full_dialogue_states (applied_events tracker)
                (dict_of <$> past_states tracker domain)) <$> trackers.

Definition full_dialogue_actions (trackers : list DialogueStateTracker)
  : list (list string) :=
  (λ tracker : DialogueStateTracker,
     predictable_actions (applied_events tracker)) <$> trackers.

(** *** Max-history examples *)

(** A training example: a window and its one-label action list. *)
Abbreviation Example := (list (option loc) * list string)%type.

(** The examples a tracker yields before deduplication: one per executed
    action not flagged unpredictable, [idx] counting the executed
    actions. *)
Fixpoint examples_of_events (max_history : Z) (states : list loc)
    (events : list Event) (idx : nat) : list Example :=
  match events with
  | [] => []
  | ActionExecuted action_name unpredictable :: rest =>
      (if unpredictable then []
       else [(MaxHistory.slice_state_history (take (idx + 1) states) max_history,
              [action_name])])
      ++ examples_of_events max_history states rest (idx + 1)
  | OtherEvent _ :: rest => examples_of_events max_history states rest idx
  end.

(** The examples of a batch, tracker after tracker, the states of each
    tracker allocated after those of the trackers before it. *)
Fixpoint batch_examples (max_history : Z) (domain : Domain)
    (trackers : list DialogueStateTracker) (h : Heap) : list Example :=
  match trackers with
  | [] => []
  | tracker :: rest =>
      examples_of_events max_history
        (seq (length h) (length (past_states tracker domain)))
        (applied_events tracker) 0
      ++ batch_examples max_history domain rest
           (h ++ (dict_of <$> past_states tracker domain))
  end.

(** The hash of an example, with the store its window refers to. *)
Definition example_hash
    (py_hash : list (option (gset (string * Qc))) * list string → Z)
    (h : Heap) (e : Example) : Z :=
  py_hash (MaxHistory.freeze h <$> e.1, e.2).

(** The examples emitted so far. *)
Definition emitted (p : MaxHistory.progress) : list Example :=
  zip (MaxHistory.trackers_as_states p) (MaxHistory.trackers_as_actions p).

(** Two window entries that are both [None], or dicts with the same
    items whatever their insertion order. *)
Definition same_items (h1 h2 : Heap) (s1 s2 : option loc) : Prop :=
  match s1, s2 with
  | None, None => True
  | Some l1, Some l2 =>
      ∃ d1 d2, h1 !! l1 = Some d1 ∧ h2 !! l2 = Some d2 ∧
               ∀ kv, kv ∈ d1 ↔ kv ∈ d2
  | _, _ => False
  end.

(** The body of the loop over the events, as a function of the example
    at hand. *)
Definition emit_example {E : Type}
    (py_hash : list (option (gset (string * Qc))) * list string → Z)
    (self : TrackerFeaturizer E) (h : Heap)
    (p : MaxHistory.progress) (e : Example) : MaxHistory.progress :=
  if remove_duplicates self then
    if decide (example_hash py_hash h e ∉ MaxHistory.hashed_examples p) then
      MaxHistory.Progress
        ({[example_hash py_hash h e]} ∪ MaxHistory.hashed_examples p)
        (MaxHistory.trackers_as_states p ++ [e.1])
        (MaxHistory.trackers_as_actions p ++ [e.2])
    else p
  else
    MaxHistory.Progress (MaxHistory.hashed_examples p)
      (MaxHistory.trackers_as_states p ++ [e.1])
      (MaxHistory.trackers_as_actions p ++ [e.2]).

(** The first occurrences of a list of examples under a hash: an example
    is kept when no example before it, nor any of the hashes [earlier],
    has its hash, and skipped otherwise. *)
Fixpoint first_occurrences_from (hash : Example → Z) (earlier : list Z)
    (C : list Example) : list Example :=
  match C with
  | [] => []
  | c :: C' =>
      (if decide (hash c ∈ earlier) then [] else [c])
      ++ first_occurrences_from hash (hash c :: earlier) C'
  end.

Definition first_occurrences (hash : Example → Z) (C : list Example) : list Example :=
  first_occurrences_from hash [] C.

(** The invariant of deduplication: [p] against the candidates [C] read so
    far, in the store [h]. *)
Definition dedup_ok {E : Type}
    (py_hash : list (option (gset (string * Qc))) * list string → Z)
    (self : TrackerFeaturizer E) (h : Heap) (C : list Example)
    (p : MaxHistory.progress) : Prop :=
  length (MaxHistory.trackers_as_states p)
    = length (MaxHistory.trackers_as_actions p) ∧
  Forall (λ e : Example, Forall (valid_entry h) e.1) C ∧
  emitted p `sublist_of` C ∧
  (remove_duplicates self = false → emitted p = C) ∧
  (remove_duplicates self = true →
   (∀ x, x ∈ MaxHistory.hashed_examples p
         ↔ x ∈ example_hash py_hash h <$> emitted p) ∧
   NoDup (example_hash py_hash h <$> emitted p) ∧
   ∀ c, c ∈ C → example_hash py_hash h c ∈ MaxHistory.hashed_examples p).

(** With deduplication, the examples emitted are the first occurrences
    among the candidates read so far. *)
Definition first_ok {E : Type}
    (py_hash : list (option (gset (string * Qc))) * list string → Z)
    (self : TrackerFeaturizer E) (h : Heap) (C : list Example)
    (p : MaxHistory.progress) : Prop :=
  remove_duplicates self = true →
  emitted p = first_occurrences (example_hash py_hash h) C.

(** The first executed action of a tracker is flagged unpredictable. *)
Definition first_action_unpredictable (events : list Event) : bool :=
  match omap (fun e => match e with
                       | ActionExecuted _ unpredictable => Some unpredictable
                       | OtherEvent _ => None
                       end) events with
  | unpredictable :: _ => unpredictable
  | [] => false
  end.

Definition is_executed (e : Event) : bool :=
  match e with
  | ActionExecuted _ _ => true
  | OtherEvent _ => false
  end.

(** The number of executed actions of a tracker. *)
Definition count_executed (events : list Event) : nat :=
  length (filter (fun e => is_executed e = true) events).

(** Modelled from the spec: the past states of a tracker are the states
    before each of its executed actions and the final state, which has no
    following action. *)
Definition states_follow_actions (domain : Domain) (tracker : DialogueStateTracker)
  : Prop :=
  length (past_states tracker domain) = S (count_executed (applied_events tracker)).

(** *** Duplicate-intent compression *)

(** The first-listed intent key of a turn; a falsy turn has none. *)
Definition first_intent (turn : option State) : option string :=
  if truthy turn then d ← turn; head (intent_keys d) else None.

(** [d] without the first entry under [k]. *)
Fixpoint dict_remove (k : string) (d : State) : State :=
  match d with
  | [] => []
  | (k', v) :: d' => if decide (k' = k) then d' else (k', v) :: dict_remove k d'
  end.

(** A turn without its first-listed intent [k], if that is its first
    intent. *)
Definition strip_intent (k : string) (turn : option State) : option State :=
  if decide (first_intent turn = Some k) then dict_remove k <$> turn else turn.

(** The compressor in the words of the specification, on the dicts of one
    sequence: the first intent of a turn is deleted when it equals the
    most recently kept intent [kept] of an earlier turn, and is kept, and
    remembered, otherwise; a turn without a first intent changes
    nothing. *)
Fixpoint compress_intents (kept : option string) (turns : list (option State))
  : list (option State) :=
  match turns with
  | [] => []
  | turn :: rest =>
      match first_intent turn with
      | Some current =>
          if decide (kept = Some current)
          then strip_intent current turn :: compress_intents kept rest
          else turn :: compress_intents (Some current) rest
      | None => turn :: compress_intents kept rest
      end
  end.

(** The references of a sequence. *)
Definition refs (states : list (option loc)) : list loc := omap id states.

(** The intent the compressor remembers after the turns [earlier]: the
    first intent of the most recent turn that has one. *)
Definition remembered_intent (kept : option string) (earlier : list (option State))
  : option string :=
  match last (omap first_intent earlier) with
  | Some current => Some current
  | None => kept
  end.

(** The store [h'] is the store [h] with the dicts of the sequence
    [states] compressed: the dicts the sequence refers to are what the
    compressor makes of them, every other dict is as it was, and no dict
    is added or lost. *)
Definition sequence_compressed (h : Heap) (states : list (option loc)) (h' : Heap)
  : Prop :=
  length h' = length h ∧
  deref h' <$> states = compress_intents None (deref h <$> states) ∧
  ∀ s, s ∉ states → deref h' s = deref h s.

(** The store [h'] is the store [h] after the sequences of a batch were
    compressed one after the other, each in the store the ones before it
    left; for no sequence it is [h] itself. *)
Fixpoint batch_compressed (h : Heap) (trackers_as_states : list (list (option loc)))
    (h' : Heap) : Prop :=
  match trackers_as_states with
  | [] => h' = h
  | states :: rest =>
      ∃ h1, sequence_compressed h states h1 ∧ batch_compressed h1 rest h'
  end.

(** *** The calls of the facade *)

Definition is_encode_call (c : Call) : Prop :=
  match c with
  | CallEncode _ => True
  | _ => False
  end.

(** The configuration error of [featurize_trackers]. *)
Definition missing_state_featurizer_error : Exception :=
  ValueError "Variable 'state_featurizer' is not set. Provide 'SingleStateFeaturizer' class to featurize trackers.".

(** A result that is not a [ValueError]. *)
Definition no_value_error {A} (r : Result A) : Prop :=
  match r with
  | Raise (ValueError _) => False
  | _ => True
  end.

(* --------------------------------------------------------------------- *)
(** ** Sample inputs *)
(* --------------------------------------------------------------------- *)

Definition demo_domain : Domain :=
  {| num_actions := 3;
     index_for_action := fun name =>
       match list_find (eq name) ["action_listen"; "utter_greet"; "utter_bye"] with
       | Some (i, _) => Ok (Z.of_nat i)
       | None => Raise (KeyError name)
       end;
     input_states := ["intent_greet"; "intent_bye"; "prev_action_listen"] |}.

Definition demo_tracker : DialogueStateTracker :=
  {| past_states := fun _ =>
       [ [ ("slot_name", weight 1 1); ("intent_greet", weight 3 10);
           ("intent_bye", weight 7 10); ("intent_thanks", weight 7 10) ];
         [ ("prev_action_listen", weight 1 1) ] ];
     applied_events := [ActionExecuted "action_listen" false] |}.

(** A hash without collisions: the code of the value as a countable
    type. *)
Definition demo_hash (example : list (option (gset (string * Qc))) * list string) : Z :=
  Z.pos (countable.encode example).

(** A state featurizer that records whether it was prepared and encodes a
    state by its numbers of intent keys and of keys. *)
Inductive DemoFeaturizer := demo_featurizer (prepared : bool).

#[global] Instance Demo_featurizer : SingleStateFeaturizer DemoFeaturizer := {
  prepare_from_domain _ _ := Ok (demo_featurizer true);
  encode _ state :=
    match state with
    | Some d => Ok [Z.of_nat (length (intent_keys d)); Z.of_nat (length d)]
    | None => Ok [-1; -1]
    end;
}.

Definition demo_max_history (max_history : Z) (remove_duplicates : bool)
  : TrackerFeaturizer DemoFeaturizer :=
  MaxHistory_init (Some (demo_featurizer false)) (Some max_history)
                  remove_duplicates false.

Definition demo_full_dialogue : TrackerFeaturizer DemoFeaturizer :=
  FullDialogue_init (demo_featurizer false) false.

(** Two trackers whose first state has the same items in two insertion
    orders. *)
Definition tracker_ab : DialogueStateTracker :=
  {| past_states := fun _ =>
       [ [("intent_greet", weight 1 1); ("slot_name", weight 1 1)]; [] ];
     applied_events := [ActionExecuted "action_listen" false] |}.

Definition tracker_ba : DialogueStateTracker :=
  {| past_states := fun _ =>
       [ [("slot_name", weight 1 1); ("intent_greet", weight 1 1)]; [] ];
     applied_events := [ActionExecuted "action_listen" false] |}.

(** A tracker with two executed actions flagged unpredictable. *)
Definition tracker_two_unpredictable : DialogueStateTracker :=
  {| past_states := fun _ =>
       [ []; [("prev_action_session_start", weight 1 1)];
         [("prev_action_restart", weight 1 1)];
         [("intent_greet", weight 1 1); ("prev_action_listen", weight 1 1)] ];
     applied_events :=
       [ ActionExecuted "action_session_start" true;
         ActionExecuted "action_restart" true;
         OtherEvent "user";
         ActionExecuted "utter_greet" false ] |}.

(** A story of the given actions, the first of them flagged unpredictable
    when [session_start] is set: one state before each action and the
    final state, every turn with the same intent. *)
Definition story (session_start : bool) (actions : list string)
  : DialogueStateTracker :=
  {| past_states := fun _ =>
       [("intent_greet", weight 1 1)]
       :: ((fun name => [("intent_greet", weight 1 1); ("prev_" +:+ name, weight 1 1)])
             <$> actions);
     applied_events :=
       match actions with
       | first :: others =>
           ActionExecuted first session_start
           :: ((fun name => ActionExecuted name false) <$> others)
       | [] => []
       end |}.

Definition stories_3_5_2 : list DialogueStateTracker :=
  [ story false ["action_listen"; "utter_greet"; "action_listen"];
    story false ["action_listen"; "utter_greet"; "action_listen";
                 "utter_bye"; "action_listen"];
    story false ["action_listen"; "utter_bye"] ].

(** A store of three turns with the same intent and one without intent,
    and a sequence over it with a [None] gap. *)
Definition demo_heap : Heap :=
  [ [("intent_greet", weight 1 1)];
    [("intent_greet", weight 1 1); ("prev_action_listen", weight 1 1)];
    [("prev_utter_greet", weight 1 1)];
    [("intent_greet", weight 1 1); ("intent_bye", weight 1 2)] ].

Definition demo_sequence : list (option loc) :=
  [Some 0%nat; None; Some 1%nat; Some 2%nat; Some 3%nat].

(** A calibrated bag-of-words featurizer with a vocabulary of four
    terms. *)
Definition demo_bow : BOWSingleStateFeaturizer :=
  {| delimiter := "_";
     vectorizers :=
       {[ "text" := {| vocabulary_ :=
                         {[ "intent" := 0%nat; "greet" := 1%nat;
                            "bye" := 2%nat; "__CLS__" := 3%nat ]} |} ]} |}.

Definition demo_tokens (self : BOWSingleStateFeaturizer) (message : string)
  : list string := [message].

Definition demo_sequence_features (self : BOWSingleStateFeaturizer)
    (tokens : list string) : list (list Z) :=
  (fun _ => [0; 0; 0; 1]) <$> tokens.

(* --------------------------------------------------------------------- *)
(** ** Further methods of the featurizers *)
(* --------------------------------------------------------------------- *)

Module BOWData.
Section BOWData.

(** The constant and the inherited [train] of the bag-of-words featurizer,
    as in [BOW]. *)
Variable CLS_TOKEN : string.
Variable train : BOWSingleStateFeaturizer → list string → BOWSingleStateFeaturizer.

(** The text of the message made of one state key. *)
Definition message_of_key (self : BOWSingleStateFeaturizer) (key : string) : string :=
  str_replace (delimiter self) " " key +:+ " " +:+ CLS_TOKEN.

(** The body of the loop over the states of a tracker: a truthy state
    adds one message per key. *)
Definition add_state (self : BOWSingleStateFeaturizer) (training_data : list string)
    (state : option State) : list string :=
  if truthy state then
    match state with
    | Some d => training_data ++ (message_of_key self <$> keys d)
    | None => training_data
    end
  else training_data.

Definition prepare_training_data_and_train (self : BOWSingleStateFeaturizer)
    (trackers_as_states : list (list (option State))) : BOWSingleStateFeaturizer :=
  let training_data :=
    fold_left (fun training_data tracker => fold_left (add_state self) tracker training_data)
              trackers_as_states [] in
  train self training_data.

End BOWData.
End BOWData.

Section Persist.

Context {E : Type}.
(** [jsonpickle.encode], as text. *)
Variable jsonpickle_encode : TrackerFeaturizer E → string.

(** Modelled from the spec: [rasa.utils.io] is not among the sources;
    [create_directory_for_file] makes the directories of the path, which
    hold no content of their own, and [write_text_file] makes the file
    hold the text, replacing what it held. *)
Definition write_text_file (content file : string) (fs : FileSystem) : FileSystem :=
  <[file := content]> fs.

(** [TrackerFeaturizer.persist]: the file system it leaves. *)
Definition persist (self : TrackerFeaturizer E) (fs : FileSystem) (path : string)
  : FileSystem :=
  let featurizer_file := os_path_join path "featurizer.json" in
  write_text_file (jsonpickle_encode self) featurizer_file fs.

End Persist.

(* --------------------------------------------------------------------- *)
(** ** Further vocabulary of the statements *)
(* --------------------------------------------------------------------- *)

(** The length [_featurize_states] and [_featurize_labels] give a
    sequence of [n] entries in a batch of [batch_size] sequences: only the
    full-dialogue featurizer pads, only in a batch of more than one, and
    never cuts. *)
Definition padded_length {E : Type} (self : TrackerFeaturizer E)
    (batch_size n : nat) : nat :=
  match class_of self, max_len self with
  | FullDialogueTrackerFeaturizer, Some m =>
      if (1 <? batch_size)%nat then Nat.max n (Z.to_nat m) else n
  | _, _ => n
  end.

(** A sequence with its padding. *)
Definition padded {E A : Type} (self : TrackerFeaturizer E) (batch_size : nat)
    (states : list (option A)) : list (option A) :=
  states ++ replicate (padded_length self batch_size (length states) - length states) None.

(** The number of stories of a label array. *)
Definition labels_count (y : Labels) : nat :=
  match y with
  | Labels3 y => length y
  | Labels2 y => length y
  end.

(** The keys a state contributes to the training of the bag of words. *)
Definition state_keys (state : option State) : list string :=
  match state with
  | Some d => keys d
  | None => []
  end.

(** A dict with at most one intent key. *)
Definition single_intent (turn : option State) : Prop :=
  match turn with
  | Some d => (length (intent_keys d) ≤ 1)%nat
  | None => True
  end.

(** The error of an unset [max_len]. *)
Definition max_len_unset_error : Exception :=
  TypeError "'<' not supported between instances of 'int' and 'NoneType'".

(** A pickler and its unpickler for the sample featurizer: the text is
    the value of [max_history]. *)
Definition demo_encode (self : TrackerFeaturizer DemoFeaturizer) : string :=
  if decide (max_history self = 4) then "4" else "other".

Definition demo_decode (content : string) : Result (TrackerFeaturizer DemoFeaturizer) :=
  if decide (content = "4") then Ok (demo_max_history 4 true)
  else Raise (ValueError "malformed featurizer file").
(* ===================================================================== *)
(** * Part II: properties *)
(* ===================================================================== *)

(** ** Results and dicts *)

Lemma rbind_ok {A B} (m : Result A) (f : A → Result B) a :
  m = Ok a → rbind m f = f a.
Proof. by intros ->. Qed.

Lemma dict_set_fresh k v d : k ∉ keys d → dict_set k v d = d ++ [(k, v)].
Proof.
  induction d as [|[k' v'] d IH]; simpl; [done|].
  intros Hk. apply not_elem_of_cons in Hk as [Hne Hk].
  case_decide; [congruence|]. by rewrite IH.
Qed.

Lemma dict_of_acc l acc :
  NoDup (keys (acc ++ l)) →
  fold_left (fun d kv => dict_set kv.1 kv.2 d) l acc = acc ++ l.
Proof.
  revert acc. induction l as [|[k v] l IH]; intros acc Hnd; simpl.
  - by rewrite app_nil_r.
  - rewrite dict_set_fresh.
    + rewrite IH; rewrite <- app_assoc; done.
    + unfold keys in *. rewrite fmap_app in Hnd. simpl in Hnd.
      apply NoDup_app in Hnd as (_ & Hd & _).
      intros Hin. apply (Hd k Hin). left.
Qed.

Lemma dict_of_nodup l : NoDup (keys l) → dict_of l = l.
Proof. intros Hnd. unfold dict_of. by rewrite dict_of_acc. Qed.

Lemma keep_fresh k l : k ∉ keys l → keep (Some k) l = keep None l.
Proof.
  induction l as [|[k' v'] l IH]; [done|].
  intros Hk. apply not_elem_of_cons in Hk as [Hne Hk].
  unfold keep in *. rewrite !filter_cons. simpl.
  rewrite IH by done.
  destruct (is_intent k') eqn:Hk'.
  - simpl in Hne. rewrite decide_False by (intros [?|?]; congruence).
    by rewrite decide_False by (intros [?|?]; congruence).
  - rewrite decide_True by by left.
    by rewrite decide_True by by left.
Qed.

Lemma keep_keys b l k : k ∈ keys (keep b l) → k ∈ keys l.
Proof.
  unfold keys, keep. rewrite !list_elem_of_fmap.
  intros (kv & -> & Hin). apply list_elem_of_filter in Hin as [_ Hin]. eauto.
Qed.

Lemma dict_del_fresh_app k v l1 l2 :
  k ∉ keys l1 → dict_del k (l1 ++ (k, v) :: l2) = Ok (l1 ++ l2).
Proof.
  induction l1 as [|[k' v'] l1 IH]; simpl.
  - intros _. by case_decide.
  - intros Hk. apply not_elem_of_cons in Hk as [Hne Hk].
    case_decide; [congruence|]. by rewrite IH.
Qed.

Lemma dict_del_keep kb l1 rest :
  NoDup (keys l1) → kb ∈ keys l1 → is_intent kb = true →
  dict_del kb (keep (Some kb) l1 ++ rest) = Ok (keep None l1 ++ rest).
Proof.
  induction l1 as [|[k' v'] l1 IH]; intros Hnd Hin Hintent.
  - by apply elem_of_nil in Hin.
  - simpl in Hnd. apply NoDup_cons in Hnd as [Hfresh Hnd].
    unfold keep in *. rewrite !filter_cons. simpl.
    destruct (decide (k' = kb)) as [->|Hne].
    + rewrite decide_True by by right.
      rewrite decide_False by (intros [?|?]; congruence).
      simpl. rewrite decide_True by done.
      fold (keep (Some kb) l1). by rewrite keep_fresh.
    + assert (kb ∈ keys l1) as Hin'.
      { simpl in Hin. apply elem_of_cons in Hin as [?|?]; [congruence|done]. }
      destruct (is_intent k') eqn:Hk'.
      * rewrite decide_False by (intros [?|?]; congruence).
        rewrite decide_False by (intros [?|?]; congruence).
        by apply IH.
      * rewrite decide_True by by left.
        rewrite decide_True by by left.
        simpl. rewrite decide_False by done. by rewrite IH.
Qed.

Lemma keep_snoc_other b l k p :
  is_intent k = true → b ≠ Some k → keep b (l ++ [(k, p)]) = keep b l.
Proof.
  intros Hk Hb. unfold keep. rewrite filter_app, filter_cons. simpl.
  rewrite decide_False by (intros [?|?]; congruence).
  by rewrite app_nil_r.
Qed.

Lemma keep_snoc_kept b l k p :
  is_intent k = false ∨ b = Some k → keep b (l ++ [(k, p)]) = keep b l ++ [(k, p)].
Proof.
  intros Hk. unfold keep. rewrite filter_app, filter_cons. simpl.
  by rewrite decide_True.
Qed.

Lemma keys_snoc_l (l : State) k p kb : kb ∈ keys l → kb ∈ keys (l ++ [(k, p)]).
Proof. unfold keys. rewrite fmap_app. intros ?. apply elem_of_app. by left. Qed.

Lemma keys_snoc_r (l : State) k p : k ∈ keys (l ++ [(k, p)]).
Proof. unfold keys. rewrite fmap_app. apply elem_of_app. right. left. Qed.

Lemma scan_loop_spec l2 : ∀ l1 b bp,
  NoDup (keys (l1 ++ l2)) →
  (∀ kb, b = Some kb → kb ∈ keys l1 ∧ is_intent kb = true) →
  scan_loop (Scan (keep b l1 ++ l2) b bp) l2
  = Ok (Scan (keep (best_of b bp l2).1 (l1 ++ l2))
             (best_of b bp l2).1 (best_of b bp l2).2).
Proof.
  induction l2 as [|[k p] l2 IH]; intros l1 b bp Hnd Hb; simpl.
  - by rewrite !app_nil_r.
  - assert (NoDup (keys ((l1 ++ [(k, p)]) ++ l2))) as Hnd'
      by by rewrite <- app_assoc.
    assert (k ∉ keys l1) as Hk1.
    { unfold keys in Hnd. rewrite fmap_app in Hnd.
      apply NoDup_app in Hnd as (_ & Hd & _).
      intros Hin. apply (Hd k Hin). left. }
    assert (NoDup (keys l1)) as Hnd1.
    { unfold keys in Hnd. rewrite fmap_app in Hnd.
      by apply NoDup_app in Hnd as (? & _ & _). }
    assert (b ≠ Some k) as Hbk.
    { intros ->. by destruct (Hb k eq_refl). }
    assert (∀ b' bp', keep (best_of b' bp' l2).1 (l1 ++ (k, p) :: l2)
                      = keep (best_of b' bp' l2).1 ((l1 ++ [(k, p)]) ++ l2)) as Hrhs.
    { intros. by rewrite <- app_assoc. }
    destruct (is_intent k) eqn:Hintent; simpl.
    + destruct (float_gt p bp) eqn:Hgt; simpl.
      * rewrite Hrhs.
        assert (∀ kb, Some k = Some kb →
                      kb ∈ keys (l1 ++ [(k, p)]) ∧ is_intent kb = true) as Hb'.
        { intros ? [= <-]. split; [apply keys_snoc_r|done]. }
        destruct b as [kb|].
        -- destruct (Hb kb eq_refl) as [Hin Hikb]. simpl.
           rewrite dict_del_keep by done. simpl.
           rewrite <- (keep_fresh k l1) by done.
           rewrite <- IH by done.
           rewrite keep_snoc_kept by by right. by rewrite <- app_assoc.
        -- rewrite <- (keep_fresh k l1) by done.
           rewrite <- IH by done.
           rewrite keep_snoc_kept by by right. by rewrite <- app_assoc.
      * rewrite dict_del_fresh_app.
        2:{ intros Hin. by apply keep_keys in Hin. }
        simpl. rewrite Hrhs, <- IH; [|done|].
        -- by rewrite keep_snoc_other.
        -- intros kb Hkb. destruct (Hb kb Hkb) as [Hin ?].
           split; [by apply keys_snoc_l|done].
    + rewrite Hrhs, <- IH; [|done|].
      * rewrite keep_snoc_kept by by left. by rewrite <- app_assoc.
      * intros kb Hkb. destruct (Hb kb Hkb) as [Hin ?].
        split; [by apply keys_snoc_l|done].
Qed.

(** ** _create_states: the intent collapse *)

Lemma float_gt_true a b : float_gt a b = true ↔ (b < a)%Qc.
Proof. unfold float_gt. by rewrite bool_decide_eq_true. Qed.

Lemma float_gt_false a b : float_gt a b = false ↔ (a ≤ b)%Qc.
Proof.
  unfold float_gt. rewrite bool_decide_eq_false. split.
  - apply Qcnot_lt_le.
  - apply Qcle_not_lt.
Qed.

Lemma lookup_snoc_inv {A} (l : list A) x j y :
  (l ++ [x]) !! j = Some y → l !! j = Some y ∨ (j = length l ∧ y = x).
Proof.
  intros H. destruct (decide (j < length l)%nat) as [Hlt|Hge].
  - left. by rewrite lookup_app_l in H.
  - right. rewrite lookup_app_r in H by lia.
    destruct (j - length l)%nat as [|n] eqn:Hn; simpl in H; [|done].
    split; [lia|congruence].
Qed.

Lemma running_best_step l b bp k p :
  running_best_ok l b bp →
  running_best_ok (l ++ [(k, p)])
    (if is_intent k && float_gt p bp then Some k else b)
    (if is_intent k && float_gt p bp then p else bp).
Proof.
  intros Hinv. destruct (is_intent k) eqn:Hintent; simpl.
  - destruct (float_gt p bp) eqn:Hgt.
    + apply float_gt_true in Hgt.
      assert (weight (-1) 1 < p)%Qc as Hp.
      { destruct b; simpl in Hinv.
        - destruct Hinv as [? _]. by eapply Qclt_trans.
        - destruct Hinv as [-> _]. done. }
      split; [done|]. exists (length l). split; [|split; [done|]].
      { by rewrite lookup_app_r, Nat.sub_diag by lia. }
      intros j k' p' Hj Hk'. apply lookup_snoc_inv in Hj as [Hj|[-> [= -> ->]]].
      * assert (p' < p)%Qc; [|split; [by apply Qclt_le_weak|done]].
        destruct b; simpl in Hinv.
        -- destruct Hinv as [_ (i & _ & _ & Hmax)].
           destruct (Hmax j k' p' Hj Hk') as [Hle _].
           by eapply Qcle_lt_trans.
        -- destruct Hinv as [-> Hall].
           eapply Qcle_lt_trans; [|done].
           apply (Hall k' p'); [|done]. by eapply list_elem_of_lookup_2.
      * split; [apply Qcle_refl|lia].
    + apply float_gt_false in Hgt. destruct b as [kb|]; simpl in *.
      * destruct Hinv as [Hbp (i & Hi & Hkb & Hmax)].
        split; [done|]. exists i. split; [|split; [done|]].
        { rewrite lookup_app_l; [done|]. by eapply lookup_lt_Some. }
        intros j k' p' Hj Hk'. apply lookup_snoc_inv in Hj as [Hj|[-> [= -> ->]]].
        -- by apply (Hmax j k' p').
        -- split; [done|]. apply lookup_lt_Some in Hi. lia.
      * destruct Hinv as [-> Hall]. split; [done|].
        intros k' p' Hin Hk'. apply elem_of_app in Hin as [Hin|Hin].
        -- by apply (Hall k' p').
        -- apply list_elem_of_singleton in Hin as [= -> ->]. done.
  - destruct b as [kb|]; simpl in *.
    + destruct Hinv as [Hbp (i & Hi & Hkb & Hmax)].
      split; [done|]. exists i. split; [|split; [done|]].
      { rewrite lookup_app_l; [done|]. by eapply lookup_lt_Some. }
      intros j k' p' Hj Hk'. apply lookup_snoc_inv in Hj as [Hj|[-> [= -> ->]]].
      * by apply (Hmax j k' p').
      * congruence.
    + destruct Hinv as [-> Hall]. split; [done|].
      intros k' p' Hin Hk'. apply elem_of_app in Hin as [Hin|Hin].
      * by apply (Hall k' p').
      * apply list_elem_of_singleton in Hin as [= -> ->]. congruence.
Qed.

Lemma best_of_ok l2 : ∀ l1 b bp,
  running_best_ok l1 b bp →
  running_best_ok (l1 ++ l2) (best_of b bp l2).1 (best_of b bp l2).2.
Proof.
  induction l2 as [|[k p] l2 IH]; intros l1 b bp Hinv; simpl.
  - by rewrite app_nil_r.
  - replace (l1 ++ (k, p) :: l2) with ((l1 ++ [(k, p)]) ++ l2)
      by by rewrite <- app_assoc.
    pose proof (running_best_step l1 b bp k p Hinv) as Hstep.
    destruct (is_intent k && float_gt p bp); by apply IH.
Qed.

Lemma keep_None l : keep None l = other_features l.
Proof.
  unfold keep, other_features. apply list_filter_iff.
  intros [k p]. simpl. split; [intros [?|?]; [done|congruence]|by left].
Qed.

Lemma intent_features_other l : intent_features (other_features l) = [].
Proof.
  unfold intent_features, other_features.
  induction l as [|[k p] l IH]; [done|].
  rewrite (filter_cons (λ kv, is_intent kv.1 = false)). simpl.
  destruct (is_intent k) eqn:Hk.
  - by rewrite decide_False by congruence.
  - rewrite decide_True by done.
    rewrite filter_cons. simpl. rewrite decide_False by congruence. done.
Qed.

Lemma other_features_idemp l : other_features (other_features l) = other_features l.
Proof.
  unfold other_features.
  induction l as [|[k p] l IH]; [done|].
  rewrite (filter_cons _ (k, p) l). simpl.
  destruct (is_intent k) eqn:Hk.
  - by rewrite decide_False by congruence.
  - rewrite decide_True by done.
    rewrite filter_cons. simpl. rewrite decide_True by done. by rewrite IH.
Qed.

Lemma other_features_all l : intent_features l = [] → other_features l = l.
Proof.
  unfold intent_features, other_features.
  induction l as [|[k p] l IH]; [done|].
  rewrite !filter_cons. simpl.
  destruct (is_intent k) eqn:Hk.
  - rewrite decide_True by done. done.
  - rewrite decide_False by done. rewrite decide_True by done.
    intros H. by rewrite IH.
Qed.

Lemma winner_replaces k l :
  NoDup (keys l) → k ∈ keys l → is_intent k = true →
  intent_features (dict_set k (weight 1 1) (keep (Some k) l)) = [(k, weight 1 1)] ∧
  other_features (dict_set k (weight 1 1) (keep (Some k) l)) = other_features l.
Proof.
  induction l as [|[k' v'] l IH]; intros Hnd Hin Hk.
  - by apply elem_of_nil in Hin.
  - simpl in Hnd. apply NoDup_cons in Hnd as [Hfresh Hnd].
    unfold keep. rewrite filter_cons. simpl. fold (keep (Some k) l).
    destruct (decide (k' = k)) as [->|Hne].
    + rewrite decide_True by by right. simpl.
      rewrite decide_True by done.
      rewrite keep_fresh, keep_None by done.
      unfold intent_features, other_features.
      rewrite !filter_cons. simpl.
      rewrite decide_True by done. rewrite !decide_False by congruence.
      split.
      * f_equal. apply intent_features_other.
      * apply other_features_idemp.
    + assert (k ∈ keys l) as Hin'.
      { simpl in Hin. apply elem_of_cons in Hin as [?|?]; [congruence|done]. }
      destruct (IH Hnd Hin' Hk) as [IH1 IH2].
      destruct (is_intent k') eqn:Hk'.
      * rewrite decide_False by (intros [?|?]; congruence).
        split; [done|]. rewrite IH2.
        unfold other_features. rewrite filter_cons. simpl.
        by rewrite decide_False by congruence.
      * rewrite decide_True by by left.
        simpl. rewrite decide_False by done.
        unfold intent_features, other_features in *.
        rewrite !filter_cons. simpl.
        rewrite decide_False by congruence. rewrite !decide_True by done.
        split; [done|]. by rewrite IH2.
Qed.

Lemma first_max_intent_features state i k p :
  first_max_intent state i k p → (k, p) ∈ intent_features state ∧ k ∈ keys state.
Proof.
  intros (Hi & Hk & _). apply list_elem_of_lookup_2 in Hi. split.
  - apply list_elem_of_filter. by split.
  - unfold keys. apply list_elem_of_fmap. by exists (k, p).
Qed.

(** The result of [binarize], by the running best at the end of the scan. *)
Lemma binarize_spec state :
  NoDup (keys state) →
  binarize state =
    Ok (match (best_of None (weight (-1) 1) state).1 with
        | Some k => dict_set k (weight 1 1) (keep (Some k) state)
        | None => other_features state
        end).
Proof.
  intros Hnd. unfold binarize. rewrite dict_of_nodup by done.
  pose proof (scan_loop_spec state [] None (weight (-1) 1)) as Hscan.
  simpl in Hscan. rewrite Hscan by done. simpl.
  destruct (best_of None (weight (-1) 1) state).1; [done|].
  by rewrite keep_None.
Qed.

Lemma binarize_collapsed state :
  NoDup (keys state) →
  (intent_features state ≠ [] →
   ∃ k p, (k, p) ∈ state ∧ is_intent k = true ∧ (weight (-1) 1 < p)%Qc) →
  ∃ r, binarize state = Ok r ∧ collapsed state r.
Proof.
  intros Hnd Hweak. rewrite binarize_spec by done. eexists. split; [done|].
  pose proof (best_of_ok state [] None (weight (-1) 1)) as Hbest.
  simpl in Hbest. specialize (Hbest (conj eq_refl (λ k p H, False_rect _ (not_elem_of_nil _ H)))).
  destruct (best_of None (weight (-1) 1) state) as [[k|] bp]; simpl in *.
  - destruct Hbest as [Hbp (i & Hmax)].
    destruct (first_max_intent_features _ _ _ _ Hmax) as [Hin Hkeys].
    split.
    + intros Hnone. rewrite Hnone in Hin. by apply elem_of_nil in Hin.
    + intros _. exists i, k, bp. split; [done|].
      destruct Hmax as (_ & Hk & _). by apply winner_replaces.
  - destruct Hbest as [_ Hall]. split.
    + apply other_features_all.
    + intros Hsome. destruct (Hweak Hsome) as (k & p & Hin & Hk & Hp).
      exfalso. eapply Qclt_not_le; [exact Hp|]. by apply (Hall k p).
Qed.

Lemma mapM_Result_cons {A B} (f : A → Result B) x l :
  mapM f (x :: l) = (let* y := f x in let* k := mapM f l in Ok (y :: k)).
Proof. reflexivity. Qed.

Lemma mapM_Result_Forall2 {A B} (f : A → Result B) (P : A → B → Prop) l :
  (∀ x, x ∈ l → ∃ r, f x = Ok r ∧ P x r) →
  ∃ rs, mapM f l = Ok rs ∧ Forall2 P l rs.
Proof.
  induction l as [|x l IH]; intros Hall.
  - exists []. by split.
  - destruct (Hall x) as (r & Hr & HP); [left|].
    destruct IH as (rs & Hrs & HPs).
    { intros x' Hx'. apply Hall. by right. }
    exists (r :: rs). split; [|by constructor].
    rewrite mapM_Result_cons, Hr. simpl. by rewrite Hrs.
Qed.

Lemma binarize_returns state :
  NoDup (keys state) →
  ∃ r, binarize state = Ok r ∧
       ((intent_features state ≠ [] →
         ∃ k p, (k, p) ∈ state ∧ is_intent k = true ∧ (weight (-1) 1 < p)%Qc) →
        collapsed state r).
Proof.
  intros Hnd. rewrite binarize_spec by done. eexists. split; [done|].
  intros Hweak. destruct (binarize_collapsed state Hnd Hweak) as (r & Hr & Hc).
  rewrite binarize_spec in Hr by done. by injection Hr as <-.
Qed.

Lemma confidences_above_sentinel state :
  Forall (λ kv : string * Qc, (0 ≤ kv.2)%Qc) (intent_features state) →
  intent_features state ≠ [] →
  ∃ k p, (k, p) ∈ state ∧ is_intent k = true ∧ (weight (-1) 1 < p)%Qc.
Proof.
  intros Hconf Hsome. destruct (intent_features state) as [|[k p] rest] eqn:Hi; [done|].
  assert ((k, p) ∈ intent_features state) as Hin by (rewrite Hi; by left).
  unfold intent_features in Hin. apply list_elem_of_filter in Hin as [Hk Hin].
  exists k, p. split; [done|]. split; [done|].
  apply Forall_cons in Hconf as [Hp _]. simpl in Hp.
  eapply Qclt_le_trans; [|exact Hp]. reflexivity.
Qed.

(** C1.  With [use_intent_probabilities] and [is_binary_training] both
    false, [_create_states] returns one fresh dict per past state, and
    state by state, whatever the other states of the tracker are: a state
    without intent features is returned unchanged; a state that has an
    intent feature of weight above the initial running best -1.0, as
    every state has whose intent weights are confidences, keeps exactly
    one intent feature: the one of maximal weight, the first-seen among
    equals, at weight 1.0; the other intent features are absent and the
    non-intent features keep their keys, weights and order. *)
Theorem create_states_collapses_intents {E} (self : TrackerFeaturizer E)
    (tracker : DialogueStateTracker) (domain : Domain) (h : Heap) :
  use_intent_probabilities self = false →
  (∀ state, state ∈ past_states tracker domain → NoDup (keys state)) →
  ∃ bin_states,
    _create_states self tracker domain false h
      = Ok (seq (length h) (length bin_states), h ++ bin_states) ∧
    Forall2 (λ state r,
               (intent_features state = [] → r = state) ∧
               ((∃ k p, (k, p) ∈ state ∧ is_intent k = true ∧
                        (weight (-1) 1 < p)%Qc) →
                collapsed state r) ∧
               (Forall (λ kv : string * Qc, (0 ≤ kv.2)%Qc) (intent_features state) →
                collapsed state r))
            (past_states tracker domain) bin_states.
Proof.
  intros Huip Hstates. unfold _create_states. rewrite Huip. simpl.
  destruct (mapM_Result_Forall2 binarize
              (λ state r,
                 (intent_features state = [] → r = state) ∧
                 ((∃ k p, (k, p) ∈ state ∧ is_intent k = true ∧
                          (weight (-1) 1 < p)%Qc) →
                  collapsed state r) ∧
                 (Forall (λ kv : string * Qc, (0 ≤ kv.2)%Qc) (intent_features state) →
                  collapsed state r))
              (past_states tracker domain))
    as (rs & Hrs & Hall).
  { intros state Hin.
    destruct (binarize_returns state (Hstates state Hin)) as (r & Hr & Hc).
    exists r. split; [exact Hr|]. split; [|split].
    - intros Hnone. apply Hc; [|exact Hnone]. by intros Hsome.
    - intros Hstrong. apply Hc. by intros _.
    - intros Hconf. apply Hc. by apply confidences_above_sentinel. }
  exists rs. by rewrite Hrs.
Qed.

(** ** slice_state_history and the max-history windows *)

Lemma slice_state_history_length {A} (states : list A) (slice_length : Z) :
  0 ≤ slice_length →
  Z.of_nat (length (MaxHistory.slice_state_history states slice_length)) = slice_length.
Proof.
  intros Hpos. unfold MaxHistory.slice_state_history.
  rewrite length_app, length_replicate, length_fmap, length_drop. lia.
Qed.

Lemma slice_state_history_short {A} (states : list A) (slice_length : Z) :
  Z.of_nat (length states) ≤ slice_length →
  MaxHistory.slice_state_history states slice_length
  = replicate (Z.to_nat slice_length - length states) None ++ (Some <$> states).
Proof.
  intros Hle. unfold MaxHistory.slice_state_history.
  replace (Z.to_nat (0 `max` (Z.of_nat (length states) - slice_length))) with 0%nat by lia.
  f_equal. f_equal. lia.
Qed.

Lemma slice_state_history_long {A} (states : list A) (slice_length : Z) :
  0 ≤ slice_length ≤ Z.of_nat (length states) →
  MaxHistory.slice_state_history states slice_length
  = Some <$> drop (length states - Z.to_nat slice_length) states.
Proof.
  intros Hle. unfold MaxHistory.slice_state_history.
  replace (Z.to_nat (0 `max` (slice_length - Z.of_nat (length states)))) with 0%nat by lia.
  simpl. f_equal. f_equal. lia.
Qed.

Lemma create_states_binary {E} (self : TrackerFeaturizer E) tracker domain h :
  _create_states self tracker domain true h
  = Ok (alloc_list h (dict_of <$> past_states tracker domain)).
Proof. unfold _create_states. by rewrite andb_false_r. Qed.

Section MaxHistoryWindows.

Context {E : Type}.
Variable py_hash : list (option (gset (string * Qc))) * list string → Z.
Variable self : TrackerFeaturizer E.

Lemma events_loop_windows h states events : ∀ idx p,
  0 ≤ max_history self →
  Forall (has_length (max_history self)) (MaxHistory.trackers_as_states p) →
  Forall (has_length (max_history self))
    (MaxHistory.trackers_as_states
       (MaxHistory.events_loop py_hash self h states events idx p)).
Proof.
  induction events as [|[name unpredictable|?] events IH]; intros idx p Hpos Hp;
    simpl; [done| |by apply IH].
  apply IH; [done|].
  assert (has_length (max_history self)
            (MaxHistory.slice_state_history
               (take (idx + 1) states) (max_history self))) as Hw
    by by apply slice_state_history_length.
  destruct unpredictable; simpl; [done|].
  destruct (remove_duplicates self); [case_decide|]; simpl; try done.
  all: apply Forall_app; split; [done|by constructor].
Qed.

Lemma trackers_loop_windows domain trackers : ∀ h p,
  0 ≤ max_history self →
  Forall (has_length (max_history self)) (MaxHistory.trackers_as_states p) →
  ∃ p' h', MaxHistory.trackers_loop py_hash self domain trackers h p = Ok (p', h') ∧
           Forall (has_length (max_history self)) (MaxHistory.trackers_as_states p').
Proof.
  induction trackers as [|tracker trackers IH]; intros h p Hpos Hp; simpl.
  - by exists p, h.
  - rewrite create_states_binary. simpl. apply IH; [done|].
    by apply events_loop_windows.
Qed.

Lemma training_windows trackers domain h :
  0 ≤ max_history self →
  ∃ tas taa h',
    MaxHistory.training_states_and_actions py_hash self trackers domain h
      = Ok (tas, taa, self, h') ∧
    Forall (has_length (max_history self)) tas.
Proof.
  intros Hpos. unfold MaxHistory.training_states_and_actions.
  destruct (trackers_loop_windows domain trackers h
              (MaxHistory.Progress ∅ [] []) Hpos) as (p' & h' & -> & Hw).
  { constructor. }
  simpl. by eexists _, _, _.
Qed.

Lemma create_states_returns tracker domain b h :
  (∀ state, state ∈ past_states tracker domain → NoDup (keys state)) →
  ∃ dicts, _create_states self tracker domain b h = Ok (alloc_list h dicts) ∧
           length dicts = length (past_states tracker domain).
Proof.
  intros Hnd. unfold _create_states.
  destruct (negb (use_intent_probabilities self) && negb b).
  - destruct (mapM_Result_Forall2 binarize (λ _ _, True)
                (past_states tracker domain)) as (rs & -> & Hall).
    { intros state Hin. rewrite binarize_spec by by apply Hnd. eauto. }
    exists rs. split; [done|]. symmetry. by eapply Forall2_length.
  - eexists. split; [done|]. by rewrite length_fmap.
Qed.

Lemma create_states_all_returns domain trackers : ∀ h,
  (∀ tracker state, tracker ∈ trackers → state ∈ past_states tracker domain →
                    NoDup (keys state)) →
  ∃ all_states h',
    create_states_all self trackers domain h = Ok (all_states, h') ∧
    Forall2 (λ tracker states,
               length states = length (past_states tracker domain))
            trackers all_states.
Proof.
  induction trackers as [|tracker trackers IH]; intros h Hnd; simpl.
  - by exists [], h.
  - destruct (create_states_returns tracker domain false h) as (dicts & -> & Hlen).
    { intros state ?. apply (Hnd tracker); [left|done]. }
    simpl. destruct (IH (h ++ dicts)) as (others & h' & -> & Hall).
    { intros t state ? ?. apply (Hnd t); [by right|done]. }
    simpl. eexists _, _. split; [done|].
    constructor; [|done]. by rewrite length_seq.
Qed.

Lemma prediction_windows trackers domain h :
  0 ≤ max_history self →
  (∀ tracker state, tracker ∈ trackers → state ∈ past_states tracker domain →
                    NoDup (keys state)) →
  ∃ tas h',
    MaxHistory.prediction_states self trackers domain h = Ok (tas, h') ∧
    length tas = length trackers ∧
    Forall (has_length (max_history self)) tas.
Proof.
  intros Hpos Hnd. unfold MaxHistory.prediction_states.
  destruct (create_states_all_returns domain trackers h Hnd)
    as (all_states & h' & -> & Hall).
  simpl. eexists _, _. split; [done|]. split.
  - rewrite length_fmap. symmetry. by eapply Forall2_length.
  - apply Forall_fmap, Forall_forall. intros states _.
    by apply slice_state_history_length.
Qed.

End MaxHistoryWindows.

(** C2.  For a slice length at least zero, [slice_state_history] returns
    exactly that many entries: a shorter input is left-padded with [None],
    a longer one keeps its most recent entries.  Hence every window of
    the max-history featurizer, from [training_states_and_actions] (which
    always returns) and from [prediction_states] (which returns when the
    states have distinct keys), has length [max_history]. *)
Theorem slice_state_history_exact_length {A E : Type} (states : list A) (slice_length : Z)
    (py_hash : list (option (gset (string * Qc))) * list string → Z)
    (self : TrackerFeaturizer E)
    (trackers : list DialogueStateTracker) (domain : Domain) (h : Heap) :
  0 ≤ slice_length →
  max_history self = slice_length →
  ( Z.of_nat (length (MaxHistory.slice_state_history states slice_length))
      = slice_length ∧
    (Z.of_nat (length states) ≤ slice_length →
     MaxHistory.slice_state_history states slice_length
     = replicate (Z.to_nat slice_length - length states) None ++ (Some <$> states)) ∧
    (slice_length ≤ Z.of_nat (length states) →
     MaxHistory.slice_state_history states slice_length
     = Some <$> drop (length states - Z.to_nat slice_length) states) ) ∧
  ( ∃ tas taa h',
      MaxHistory.training_states_and_actions py_hash self trackers domain h
        = Ok (tas, taa, self, h') ∧
      Forall (has_length (max_history self)) tas ) ∧
  ( (∀ tracker state, tracker ∈ trackers → state ∈ past_states tracker domain →
                      NoDup (keys state)) →
    ∃ tas h',
      MaxHistory.prediction_states self trackers domain h = Ok (tas, h') ∧
      length tas = length trackers ∧
      Forall (has_length (max_history self)) tas ).
Proof.
  intros Hpos Hself. split; [|split].
  - split; [by apply slice_state_history_length|]. split.
    + apply slice_state_history_short.
    + intros ?. by apply slice_state_history_long.
  - apply training_windows. by rewrite Hself.
  - apply prediction_windows. by rewrite Hself.
Qed.


(** ** FullDialogueTrackerFeaturizer.training_states_and_actions *)

Lemma count_unpredictable_cons e events :
  count_unpredictable (e :: events)
  = ((if is_unpredictable e then 1 else 0) + count_unpredictable events)%nat.
Proof.
  unfold count_unpredictable. rewrite filter_cons.
  destruct (decide (is_unpredictable e = true)) as [->| ->%not_true_is_false]; done.
Qed.

Lemma scan_events_ok events : ∀ dfs actions,
  (count_unpredictable events + (if dfs : bool then 1 else 0) ≤ 1)%nat →
  Full.scan_events events dfs actions
  = Ok (dfs || bool_decide (0 < count_unpredictable events)%nat,
        actions ++ predictable_actions events).
Proof.
  induction events as [|[name [|]|?] events IH]; intros dfs actions Hle;
    simpl; rewrite ?count_unpredictable_cons in *; simpl in *.
  - rewrite app_nil_r. by rewrite orb_false_r.
  - destruct dfs; [lia|]. by rewrite IH by (simpl; lia).
  - rewrite IH by done. by rewrite <- app_assoc.
  - by rewrite IH.
Qed.

Lemma scan_events_raise events : ∀ dfs actions,
  (2 ≤ count_unpredictable events + (if dfs : bool then 1 else 0))%nat →
  Full.scan_events events dfs actions = Raise two_unpredictable_error.
Proof.
  induction events as [|[name [|]|?] events IH]; intros dfs actions Hle;
    simpl; rewrite ?count_unpredictable_cons in *; simpl in *.
  - unfold count_unpredictable in Hle. simpl in Hle. destruct dfs; lia.
  - destruct dfs; [done|]. apply IH. simpl. lia.
  - by apply IH.
  - by apply IH.
Qed.

Lemma process_tracker_raise {E} (self : TrackerFeaturizer E) domain p tracker :
  (2 ≤ count_unpredictable (applied_events tracker))%nat →
  Full.process_tracker self domain p tracker = Raise two_unpredictable_error.
Proof.
  intros Hbad. unfold Full.process_tracker.
  rewrite create_states_binary. simpl.
  rewrite scan_events_raise; [done|lia].
Qed.

Lemma process_tracker_ok {E} (self : TrackerFeaturizer E) domain p tracker :
  (count_unpredictable (applied_events tracker) ≤ 1)%nat →
  Full.process_tracker self domain p tracker
  = Ok (Full.Progress
          (Full.trackers_as_states p ++
             [Some <$> full_dialogue_states (applied_events tracker)
                         (seq (length (Full.heap p))
                              (length (past_states tracker domain)))])
          (Full.trackers_as_actions p ++
             [predictable_actions (applied_events tracker)])
          (Full.heap p ++ (dict_of <$> past_states tracker domain))).
Proof.
  intros Hok. unfold Full.process_tracker.
  rewrite create_states_binary. simpl.
  rewrite scan_events_ok by lia. simpl.
  rewrite length_fmap. unfold full_dialogue_states.
  by destruct (bool_decide _).
Qed.

Lemma full_trackers_loop_raise {E} (self : TrackerFeaturizer E) domain trackers :
  ∀ p,
  (∃ tracker, tracker ∈ trackers ∧
              (2 ≤ count_unpredictable (applied_events tracker))%nat) →
  Full.trackers_loop self domain p trackers = Raise two_unpredictable_error.
Proof.
  induction trackers as [|t trackers IH]; intros p (bad & Hin & Hbad).
  - by apply elem_of_nil in Hin.
  - simpl.
    destruct (decide (2 ≤ count_unpredictable (applied_events t))%nat) as [Ht|Ht].
    + by rewrite process_tracker_raise.
    + rewrite process_tracker_ok by lia. simpl. apply IH.
      apply elem_of_cons in Hin as [->|Hin]; [done|]. by exists bad.
Qed.

Lemma deref_extend h ext s : valid_entry h s → deref (h ++ ext) s = deref h s.
Proof.
  intros Hv. destruct s as [l|]; simpl; [|done].
  apply lookup_app_l. by apply Hv.
Qed.

Lemma deref_window_extend h ext (w : list (option loc)) :
  Forall (valid_entry h) w → deref (h ++ ext) <$> w = deref h <$> w.
Proof.
  intros Hw. apply Forall_fmap_ext_1. eapply Forall_impl; [done|].
  intros s Hs. by apply deref_extend.
Qed.

Lemma valid_entry_extend h ext s : valid_entry h s → valid_entry (h ++ ext) s.
Proof. intros Hv l Hl. rewrite length_app. specialize (Hv l Hl). lia. Qed.

Lemma fmap_removelast {A B} (f : A → B) (l : list A) :
  f <$> removelast l = removelast (f <$> l).
Proof. by rewrite !removelast_firstn_len, fmap_take, length_fmap. Qed.

Lemma fmap_full_dialogue_states {A B} (f : A → B) events (l : list A) :
  f <$> full_dialogue_states events l = full_dialogue_states events (f <$> l).
Proof.
  unfold full_dialogue_states. rewrite fmap_removelast.
  destruct (bool_decide _); [|done]. by rewrite fmap_drop.
Qed.

Lemma full_dialogue_states_sub {A} (P : A → Prop) events (l : list A) :
  Forall P l → Forall P (full_dialogue_states events l).
Proof.
  intros Hl. unfold full_dialogue_states. rewrite removelast_firstn_len.
  apply Forall_take. destruct (bool_decide _); [|done]. by apply Forall_drop.
Qed.

(** The dicts just allocated are read back through their references. *)
Lemma deref_alloc h dicts ext :
  (deref ((h ++ dicts) ++ ext) ∘ Some) <$> seq (length h) (length dicts)
  = Some <$> dicts.
Proof.
  apply list_eq. intros i. rewrite !list_lookup_fmap.
  destruct (decide (i < length dicts)%nat) as [Hi|Hi].
  - rewrite lookup_seq_lt by done. simpl.
    rewrite <- app_assoc, lookup_app_r by lia.
    replace (length h + i - length h)%nat with i by lia.
    rewrite lookup_app_l by done.
    destruct (dicts !! i) eqn:Hd; [done|].
    apply lookup_ge_None in Hd. lia.
  - rewrite lookup_seq_ge by lia. simpl.
    by rewrite lookup_ge_None_2 by lia.
Qed.

Lemma valid_alloc h dicts :
  Forall (valid_entry (h ++ dicts)) (Some <$> seq (length h) (length dicts)).
Proof.
  apply Forall_fmap, Forall_seq. intros j Hj l [= <-].
  rewrite length_app. lia.
Qed.

(** The dereferenced state sequences and the action lists the loop adds
    for a batch without a second unpredictable action. *)
Lemma full_trackers_loop_ok {E} (self : TrackerFeaturizer E) domain trackers :
  ∀ p,
  Forall (λ tracker, (count_unpredictable (applied_events tracker) ≤ 1)%nat)
         trackers →
  Forall (Forall (valid_entry (Full.heap p))) (Full.trackers_as_states p) →
  ∃ p',
    Full.trackers_loop self domain p trackers = Ok p' ∧
    Full.trackers_as_actions p'
    = Full.trackers_as_actions p ++ full_dialogue_actions trackers ∧
    Forall (Forall (valid_entry (Full.heap p'))) (Full.trackers_as_states p') ∧
    deref_all (Full.heap p') (Full.trackers_as_states p')
    = deref_all (Full.heap p) (Full.trackers_as_states p)
      ++ full_dialogue_sequences domain trackers.
Proof.
  induction trackers as [|t trackers IH]; intros p Hok Hvalid.
  - exists p. unfold full_dialogue_actions, full_dialogue_sequences.
    simpl. by rewrite !app_nil_r.
  - apply Forall_cons in Hok as [Ht Hok]. simpl.
    rewrite process_tracker_ok by done. simpl.
    set (dicts := dict_of <$> past_states t domain).
    set (w := Some <$> full_dialogue_states (applied_events t)
                (seq (length (Full.heap p)) (length (past_states t domain)))).
    assert (Forall (valid_entry (Full.heap p ++ dicts)) w) as Hw.
    { unfold w. rewrite fmap_full_dialogue_states.
      apply full_dialogue_states_sub.
      replace (length (past_states t domain)) with (length dicts)
        by apply length_fmap.
      apply valid_alloc. }
    destruct (IH (Full.Progress (Full.trackers_as_states p ++ [w])
                    (Full.trackers_as_actions p
                       ++ [predictable_actions (applied_events t)])
                    (Full.heap p ++ dicts)) Hok) as (p' & Hrun & Hacts & Hv' & Hst).
    { simpl. apply Forall_app. split.
      - eapply Forall_impl; [exact Hvalid|]. intros w' Hw'.
        eapply Forall_impl; [exact Hw'|]. intros s. apply valid_entry_extend.
      - by constructor. }
    exists p'. split; [done|]. simpl in *. split; [|split; [done|]].
    + rewrite Hacts. unfold full_dialogue_actions. simpl.
      by rewrite <- app_assoc.
    + rewrite Hst. unfold deref_all, full_dialogue_sequences.
      rewrite fmap_app, <- app_assoc. f_equal.
      * apply Forall_fmap_ext_1. eapply Forall_impl; [exact Hvalid|].
        intros w' Hw'. by apply deref_window_extend.
      * simpl. f_equal. unfold w.
        rewrite <- list_fmap_compose, fmap_full_dialogue_states.
        replace (length (past_states t domain)) with (length dicts)
          by apply length_fmap.
        pose proof (deref_alloc (Full.heap p) dicts []) as Hread.
        rewrite app_nil_r in Hread.
        by rewrite Hread, fmap_full_dialogue_states.
Qed.

(** ** _hash_example and deduplication *)

Section Dedup.

Context {E : Type}.
Variable py_hash : list (option (gset (string * Qc))) * list string → Z.
Variable self : TrackerFeaturizer E.

(** [example_hash] is [_hash_example] on an example with one label. *)
Lemma example_hash_hash_example h (window : list (option loc)) action :
  example_hash py_hash h (window, [action])
  = MaxHistory._hash_example py_hash h window action.
Proof. reflexivity. Qed.

Lemma freeze_same_items h1 h2 s1 s2 :
  same_items h1 h2 s1 s2 → MaxHistory.freeze h1 s1 = MaxHistory.freeze h2 s2.
Proof.
  unfold same_items, MaxHistory.freeze.
  destruct s1 as [l1|], s2 as [l2|]; simpl; try done.
  intros (d1 & d2 & -> & -> & Heq). f_equal.
  apply set_eq. intros kv. by rewrite !elem_of_list_to_set.
Qed.

Lemma hash_example_same_items h1 h2 w1 w2 action :
  Forall2 (same_items h1 h2) w1 w2 →
  MaxHistory._hash_example py_hash h1 w1 action
  = MaxHistory._hash_example py_hash h2 w2 action.
Proof.
  intros Hw. unfold MaxHistory._hash_example. do 2 f_equal.
  induction Hw as [|s1 s2 w1 w2 Hs Hw IH]; [done|].
  simpl. f_equal; [by apply freeze_same_items|done].
Qed.

Lemma events_loop_fold h states events : ∀ idx p,
  MaxHistory.events_loop py_hash self h states events idx p
  = fold_left (emit_example py_hash self h)
      (examples_of_events (max_history self) states events idx) p.
Proof.
  induction events as [|[name [|]|?] events IH]; intros idx p; simpl;
    [done|by rewrite IH| |by rewrite IH].
  rewrite IH. f_equal.
Qed.

Lemma freeze_extend h ext s :
  valid_entry h s → MaxHistory.freeze (h ++ ext) s = MaxHistory.freeze h s.
Proof. intros Hv. unfold MaxHistory.freeze. by rewrite deref_extend. Qed.

Lemma example_hash_extend h ext (e : Example) :
  Forall (valid_entry h) e.1 →
  example_hash py_hash (h ++ ext) e = example_hash py_hash h e.
Proof.
  intros Hv. unfold example_hash. do 2 f_equal.
  apply Forall_fmap_ext_1. eapply Forall_impl; [done|].
  intros s. apply freeze_extend.
Qed.

Lemma dedup_ok_extend h ext C p :
  dedup_ok py_hash self h C p → dedup_ok py_hash self (h ++ ext) C p.
Proof.
  intros (Hlen & Hvalid & Hsub & Hall & Hdedup).
  assert (Forall (λ e : Example, Forall (valid_entry h) e.1) (emitted p)) as Hem.
  { eapply Forall_forall. intros e He.
    eapply (proj1 (Forall_forall _ _) Hvalid). by eapply elem_of_sublist. }
  assert (example_hash py_hash (h ++ ext) <$> emitted p
          = example_hash py_hash h <$> emitted p) as Heq.
  { apply Forall_fmap_ext_1. eapply Forall_impl; [exact Hem|].
    intros e. apply example_hash_extend. }
  split; [done|]. split; [|split; [done|split; [done|]]].
  - eapply Forall_impl; [exact Hvalid|]. intros e He.
    eapply Forall_impl; [exact He|]. intros s. apply valid_entry_extend.
  - intros Hrd. destruct (Hdedup Hrd) as (Hseen & Hnd & Hcov).
    rewrite Heq. split; [done|]. split; [done|].
    intros c Hc. rewrite example_hash_extend; [by apply Hcov|].
    by eapply (proj1 (Forall_forall _ _) Hvalid).
Qed.

Lemma emitted_snoc p (e : Example) :
  length (MaxHistory.trackers_as_states p)
    = length (MaxHistory.trackers_as_actions p) →
  zip (MaxHistory.trackers_as_states p ++ [e.1])
      (MaxHistory.trackers_as_actions p ++ [e.2])
  = emitted p ++ [e].
Proof.
  intros Hlen. unfold emitted. rewrite zip_with_app by done.
  by destruct e.
Qed.

Lemma dedup_ok_step h C p (e : Example) :
  Forall (valid_entry h) e.1 →
  dedup_ok py_hash self h C p →
  dedup_ok py_hash self h (C ++ [e]) (emit_example py_hash self h p e).
Proof.
  intros He (Hlen & Hvalid & Hsub & Hall & Hdedup).
  assert (Forall (λ e : Example, Forall (valid_entry h) e.1) (C ++ [e])) as HvC.
  { apply Forall_app. split; [done|by constructor]. }
  unfold emit_example. destruct (remove_duplicates self) eqn:Hrd.
  - destruct (Hdedup eq_refl) as (Hseen & Hnd & Hcov).
    case_decide as Hnew.
    + unfold dedup_ok, emitted. simpl. rewrite emitted_snoc by done.
      split; [by rewrite !length_app, Hlen|]. split; [done|]. split.
      { by apply sublist_app. }
      split; [congruence|]. intros _. rewrite fmap_app. simpl. split; [|split].
      * intros x. rewrite elem_of_union, elem_of_singleton, elem_of_app,
          list_elem_of_singleton, Hseen. tauto.
      * apply NoDup_app. split; [done|]. split; [|apply NoDup_singleton].
        intros x Hx ->%list_elem_of_singleton. apply Hnew. by apply Hseen.
      * intros c [Hc| ->%list_elem_of_singleton]%elem_of_app.
        -- apply elem_of_union. right. by apply Hcov.
        -- apply elem_of_union. left. by apply elem_of_singleton.
    + split; [done|]. split; [done|]. split.
      { by apply sublist_inserts_r. }
      split; [congruence|]. intros _. split; [done|]. split; [done|].
      intros c [Hc| ->%list_elem_of_singleton]%elem_of_app; [by apply Hcov|].
      destruct (decide (example_hash py_hash h e ∈ MaxHistory.hashed_examples p));
        [done|contradiction].
  - unfold dedup_ok, emitted. simpl. rewrite emitted_snoc by done.
    split; [by rewrite !length_app, Hlen|]. split; [done|]. split.
    { by apply sublist_app. }
    split; [|congruence]. intros _. by rewrite Hall.
Qed.

Lemma dedup_ok_fold h (es : list Example) : ∀ C p,
  Forall (λ e : Example, Forall (valid_entry h) e.1) es →
  dedup_ok py_hash self h C p →
  dedup_ok py_hash self h (C ++ es) (fold_left (emit_example py_hash self h) es p).
Proof.
  induction es as [|e es IH]; intros C p Hes Hp; simpl.
  - by rewrite app_nil_r.
  - apply Forall_cons in Hes as [He Hes].
    replace (C ++ e :: es) with ((C ++ [e]) ++ es) by by rewrite <- app_assoc.
    apply IH; [done|]. by apply dedup_ok_step.
Qed.

Lemma slice_valid h (states : list loc) (k : nat) (n : Z) :
  Forall (λ l, (l < length h)%nat) states →
  Forall (valid_entry h) (MaxHistory.slice_state_history (take k states) n).
Proof.
  intros Hst. unfold MaxHistory.slice_state_history. apply Forall_app. split.
  - apply Forall_replicate. by intros l.
  - apply Forall_fmap, Forall_drop, Forall_take.
    eapply Forall_impl; [exact Hst|]. by intros l Hl l' [= <-].
Qed.

Lemma examples_of_events_valid h (states : list loc) events : ∀ idx,
  Forall (λ l, (l < length h)%nat) states →
  Forall (λ e : Example, Forall (valid_entry h) e.1)
         (examples_of_events (max_history self) states events idx).
Proof.
  induction events as [|[name [|]|?] events IH]; intros idx Hst; simpl;
    [done|by apply IH| |by apply IH].
  constructor; [|by apply IH]. by apply slice_valid.
Qed.

Lemma max_history_trackers_loop_dedup domain trackers : ∀ h C p,
  dedup_ok py_hash self h C p →
  ∃ p' h',
    MaxHistory.trackers_loop py_hash self domain trackers h p = Ok (p', h') ∧
    dedup_ok py_hash self h'
      (C ++ batch_examples (max_history self) domain trackers h) p'.
Proof.
  induction trackers as [|t trackers IH]; intros h C p Hp; simpl.
  - exists p, h. by rewrite app_nil_r.
  - rewrite create_states_binary. simpl. rewrite events_loop_fold.
    rewrite length_fmap, app_assoc. apply IH.
    apply dedup_ok_fold; [|by apply dedup_ok_extend].
    apply examples_of_events_valid, Forall_seq.
    intros j Hj. rewrite length_app, length_fmap. lia.
Qed.

Lemma max_history_training_spec trackers domain h :
  ∃ tas taa h',
    MaxHistory.training_states_and_actions py_hash self trackers domain h
      = Ok (tas, taa, self, h') ∧
    dedup_ok py_hash self h'
      (batch_examples (max_history self) domain trackers h)
      (MaxHistory.Progress
         (if remove_duplicates self
          then list_to_set (example_hash py_hash h' <$> zip tas taa) else ∅)
         tas taa).
Proof.
  unfold MaxHistory.training_states_and_actions.
  destruct (max_history_trackers_loop_dedup domain trackers h []
              (MaxHistory.Progress ∅ [] [])) as (p & h' & -> & Hp).
  { split; [done|]. split; [done|]. split; [done|]. split; [done|].
    intros _. split; [|split].
    - intros x. unfold emitted. simpl. set_solver.
    - constructor.
    - intros c Hc. by apply elem_of_nil in Hc. }
  simpl in *. eexists _, _, _. split; [done|].
  destruct Hp as (Hlen & Hvalid & Hsub & Hall & Hdedup).
  split; [done|]. split; [done|]. split; [done|]. split; [done|].
  intros Hrd. destruct (Hdedup Hrd) as (Hseen & Hnd & Hcov).
  rewrite Hrd. unfold emitted in *. simpl in *. split; [|split; [done|]].
  - intros x. by rewrite elem_of_list_to_set.
  - intros c Hc. apply elem_of_list_to_set, Hseen. by apply Hcov.
Qed.

Lemma first_occurrences_from_snoc (hash : Example → Z) (C : list Example) e :
  ∀ earlier,
  first_occurrences_from hash earlier (C ++ [e])
  = first_occurrences_from hash earlier C
    ++ (if decide (hash e ∈ earlier ∨ hash e ∈ hash <$> C) then [] else [e]).
Proof.
  induction C as [|c C IH]; intros earlier; csimpl.
  - rewrite app_nil_r.
    destruct (decide (hash e ∈ earlier)) as [Hin|Hout].
    + by rewrite decide_True by by left.
    + rewrite decide_False; [done|]. intros [Hin|Hin]; [done|].
      by apply elem_of_nil in Hin.
  - rewrite IH, <- app_assoc. do 2 f_equal.
    destruct (decide (hash e ∈ hash c :: earlier ∨ hash e ∈ hash <$> C)) as [Hin|Hout].
    + rewrite decide_True; [done|]. rewrite elem_of_cons in Hin.
      rewrite elem_of_cons. tauto.
    + rewrite decide_False; [done|]. rewrite elem_of_cons in Hout.
      rewrite elem_of_cons. tauto.
Qed.

Lemma first_occurrences_from_ext (hash1 hash2 : Example → Z) (C : list Example) :
  ∀ earlier,
  Forall (λ c, hash1 c = hash2 c) C →
  first_occurrences_from hash1 earlier C = first_occurrences_from hash2 earlier C.
Proof.
  induction C as [|c C IH]; intros earlier Hext; [done|].
  apply Forall_cons in Hext as [Hc HC]. simpl. by rewrite Hc, IH.
Qed.

Lemma first_ok_extend h ext C p :
  dedup_ok py_hash self h C p →
  first_ok py_hash self h C p → first_ok py_hash self (h ++ ext) C p.
Proof.
  intros (_ & Hvalid & _) Hfirst Hrd. rewrite (Hfirst Hrd).
  unfold first_occurrences. symmetry. apply first_occurrences_from_ext.
  eapply Forall_impl; [exact Hvalid|]. intros c. apply example_hash_extend.
Qed.

Lemma first_ok_step h C p (e : Example) :
  dedup_ok py_hash self h C p →
  first_ok py_hash self h C p →
  first_ok py_hash self h (C ++ [e]) (emit_example py_hash self h p e).
Proof.
  intros (Hlen & Hvalid & Hsub & Hall & Hdedup) Hfirst Hrd.
  destruct (Hdedup Hrd) as (Hseen & Hnd & Hcov).
  unfold first_occurrences. rewrite first_occurrences_from_snoc.
  fold (first_occurrences (example_hash py_hash h) C). rewrite <- (Hfirst Hrd).
  unfold emit_example. rewrite Hrd. case_decide as Hnew.
  - unfold emitted at 1. simpl. rewrite emitted_snoc by done. f_equal.
    rewrite decide_False; [done|]. intros [Hin|Hin]; [by apply elem_of_nil in Hin|].
    apply Hnew. apply list_elem_of_fmap in Hin as (c & -> & Hc). by apply Hcov.
  - rewrite decide_True; [by rewrite app_nil_r|]. right.
    assert (example_hash py_hash h e ∈ MaxHistory.hashed_examples p) as Hin.
    { destruct (decide (example_hash py_hash h e ∈ MaxHistory.hashed_examples p));
        [done|contradiction]. }
    apply Hseen in Hin. apply list_elem_of_fmap in Hin as (c & Hc & Hem).
    apply list_elem_of_fmap. exists c. split; [done|]. by eapply elem_of_sublist.
Qed.

Lemma first_ok_fold h (es : list Example) : ∀ C p,
  Forall (λ e : Example, Forall (valid_entry h) e.1) es →
  dedup_ok py_hash self h C p →
  first_ok py_hash self h C p →
  first_ok py_hash self h (C ++ es) (fold_left (emit_example py_hash self h) es p).
Proof.
  induction es as [|e es IH]; intros C p Hes Hp Hfirst; simpl.
  - by rewrite app_nil_r.
  - apply Forall_cons in Hes as [He Hes].
    replace (C ++ e :: es) with ((C ++ [e]) ++ es) by by rewrite <- app_assoc.
    apply IH; [done| |].
    + by apply dedup_ok_step.
    + by apply first_ok_step.
Qed.

Lemma max_history_trackers_loop_first domain trackers : ∀ h C p,
  dedup_ok py_hash self h C p →
  first_ok py_hash self h C p →
  ∃ p' h',
    MaxHistory.trackers_loop py_hash self domain trackers h p = Ok (p', h') ∧
    first_ok py_hash self h'
      (C ++ batch_examples (max_history self) domain trackers h) p'.
Proof.
  induction trackers as [|t trackers IH]; intros h C p Hp Hfirst; simpl.
  - exists p, h. by rewrite app_nil_r.
  - rewrite create_states_binary. simpl. rewrite events_loop_fold.
    rewrite length_fmap, app_assoc.
    assert (Forall (λ e : Example,
                      Forall (valid_entry (h ++ (dict_of <$> past_states t domain))) e.1)
                   (examples_of_events (max_history self)
                      (seq (length h) (length (past_states t domain)))
                      (applied_events t) 0)) as Hvalid.
    { apply examples_of_events_valid, Forall_seq.
      intros j Hj. rewrite length_app, length_fmap. lia. }
    apply IH.
    + apply dedup_ok_fold; [done | by apply dedup_ok_extend].
    + apply first_ok_fold; [done | by apply dedup_ok_extend | by apply first_ok_extend].
Qed.

Lemma max_history_training_first trackers domain h :
  remove_duplicates self = true →
  ∃ tas taa h',
    MaxHistory.training_states_and_actions py_hash self trackers domain h
      = Ok (tas, taa, self, h') ∧
    zip tas taa
    = first_occurrences (example_hash py_hash h')
        (batch_examples (max_history self) domain trackers h).
Proof.
  intros Hrd. unfold MaxHistory.training_states_and_actions.
  destruct (max_history_trackers_loop_first domain trackers h []
              (MaxHistory.Progress ∅ [] [])) as (p & h' & -> & Hp).
  { split; [done|]. split; [done|]. split; [done|]. split; [done|].
    intros _. split; [|split].
    - intros x. unfold emitted. simpl. set_solver.
    - constructor.
    - intros c Hc. by apply elem_of_nil in Hc. }
  { by intros _. }
  simpl in *. eexists _, _, _. split; [done|]. by apply Hp.
Qed.

Lemma examples_of_events_labels (states : list loc) events : ∀ idx,
  snd <$> examples_of_events (max_history self) states events idx
  = (λ name : string, [name]) <$> predictable_actions events.
Proof.
  induction events as [|[name [|]|?] events IH]; intros idx; simpl;
    [done|by rewrite IH| |by rewrite IH].
  by rewrite IH.
Qed.

Lemma batch_examples_labels domain trackers : ∀ h,
  snd <$> batch_examples (max_history self) domain trackers h
  = (λ name : string, [name]) <$> concat (full_dialogue_actions trackers).
Proof.
  induction trackers as [|t trackers IH]; intros h; simpl; [done|].
  by rewrite !fmap_app, examples_of_events_labels, IH.
Qed.

End Dedup.

Lemma filter_none {A} (P : A → Prop) `{∀ x, Decision (P x)} (l : list A) :
  (∀ x, x ∈ l → ¬ P x) → filter P l = [].
Proof.
  induction l as [|a l IH]; intros Hl; [done|].
  rewrite filter_cons, decide_False by (apply Hl; left).
  apply IH. intros x Hx. apply Hl. by right.
Qed.

Lemma filter_unique_image {A B} `{EqDecision B} (f : A → B) (l : list A) (x : B) :
  NoDup (f <$> l) → x ∈ f <$> l → length (filter (λ e, f e = x) l) = 1%nat.
Proof.
  induction l as [|a l IH]; intros Hnd Hin; simpl in *.
  - by apply elem_of_nil in Hin.
  - apply NoDup_cons in Hnd as [Ha Hnd]. rewrite filter_cons.
    destruct (decide (f a = x)) as [<-|Hne].
    + simpl. f_equal. rewrite filter_none; [done|].
      intros e He Heq. apply Ha.
      rewrite <- Heq. apply list_elem_of_fmap. by exists e.
    + apply IH; [done|]. apply elem_of_cons in Hin as [?|?]; [congruence|done].
Qed.

(** C4.  [_hash_example] gives one hash to two windows whose entries are
    pairwise [None], or dicts with the same items in whatever insertion
    order, and that carry the same action.  With [remove_duplicates] set,
    [training_states_and_actions] of the max-history featurizer returns
    exactly the first occurrences among the examples of the batch, in
    their order: an example is emitted when no earlier example of the
    batch, from whichever tracker, has its hash, and every later example
    with a hash already met is skipped.  So the examples returned have
    pairwise different hashes, and every example of the batch has its
    hash on exactly one of them. *)
Theorem hash_example_dedup {E : Type}
    (py_hash : list (option (gset (string * Qc))) * list string → Z)
    (self : TrackerFeaturizer E)
    (trackers : list DialogueStateTracker) (domain : Domain) (h : Heap) :
  remove_duplicates self = true →
  (∀ h1 h2 w1 w2 action,
     Forall2 (same_items h1 h2) w1 w2 →
     MaxHistory._hash_example py_hash h1 w1 action
     = MaxHistory._hash_example py_hash h2 w2 action) ∧
  ∃ tas taa h',
    MaxHistory.training_states_and_actions py_hash self trackers domain h
      = Ok (tas, taa, self, h') ∧
    length tas = length taa ∧
    zip tas taa
    = first_occurrences (example_hash py_hash h')
        (batch_examples (max_history self) domain trackers h) ∧
    zip tas taa `sublist_of` batch_examples (max_history self) domain trackers h ∧
    NoDup (example_hash py_hash h' <$> zip tas taa) ∧
    ∀ c, c ∈ batch_examples (max_history self) domain trackers h →
         length (filter (λ e, example_hash py_hash h' e = example_hash py_hash h' c)
                        (zip tas taa)) = 1%nat.
Proof.
  intros Hrd. split; [apply hash_example_same_items|].
  destruct (max_history_training_spec py_hash self trackers domain h)
    as (tas & taa & h' & Hrun & Hlen & _ & Hsub & _ & Hdedup).
  destruct (max_history_training_first py_hash self trackers domain h Hrd)
    as (tas1 & taa1 & h1 & Hrun1 & Hfirst).
  rewrite Hrun in Hrun1. injection Hrun1 as <- <- <-.
  destruct (Hdedup Hrd) as (Hseen & Hnd & Hcov).
  rewrite Hrd in *. unfold emitted in *. simpl in *.
  exists tas, taa, h'. split; [done|]. split; [done|]. split; [done|].
  split; [done|]. split; [done|]. intros c Hc.
  apply filter_unique_image; [done|]. apply Hseen. by apply Hcov.
Qed.

(** ** The shape of the full-dialogue training data *)

Lemma first_action_unpredictable_count events :
  first_action_unpredictable events = true →
  (0 < count_unpredictable events)%nat.
Proof.
  unfold first_action_unpredictable.
  induction events as [|[name u|?] events IH]; simpl; [done| |].
  - intros ->. rewrite count_unpredictable_cons. simpl. lia.
  - intros H. rewrite count_unpredictable_cons. simpl. by apply IH.
Qed.

Lemma full_training_ok {E : Type} (self : TrackerFeaturizer E) trackers domain h :
  Forall (λ tracker, (count_unpredictable (applied_events tracker) ≤ 1)%nat)
         trackers →
  ∃ tas h',
    Full.training_states_and_actions self trackers domain h
      = Ok (tas, full_dialogue_actions trackers,
            set_max_len self
              (Full._calculate_max_len (full_dialogue_actions trackers)), h') ∧
    deref_all h' tas = full_dialogue_sequences domain trackers.
Proof.
  intros Hok. unfold Full.training_states_and_actions.
  destruct (full_trackers_loop_ok self domain trackers (Full.Progress [] [] h) Hok)
    as (p & -> & Hacts & _ & Hst); [done|].
  simpl in *. rewrite Hacts. by eexists _, _.
Qed.

(** C6.  For a batch in which no tracker has a second unpredictable
    action, [training_states_and_actions] of the full-dialogue featurizer
    returns, for each tracker in order: as actions the names of its
    executed actions not flagged unpredictable, in event order; as states
    fresh copies of its past states without the final one and, when an
    action is flagged unpredictable (in particular the first one), without
    the leading one. *)
Theorem full_dialogue_states_and_actions {E : Type} (self : TrackerFeaturizer E)
    (trackers : list DialogueStateTracker) (domain : Domain) (h : Heap) :
  Forall (λ tracker, (count_unpredictable (applied_events tracker) ≤ 1)%nat)
         trackers →
  ∃ tas taa self' h',
    Full.training_states_and_actions self trackers domain h
      = Ok (tas, taa, self', h') ∧
    taa = (λ tracker : DialogueStateTracker,
             predictable_actions (applied_events tracker)) <$> trackers ∧
    deref_all h' tas
    = (λ tracker : DialogueStateTracker,
         let states := dict_of <$> past_states tracker domain in
         Some <$> removelast
                    (if first_action_unpredictable (applied_events tracker)
                     then drop 1 states
                     else if bool_decide
                               (0 < count_unpredictable (applied_events tracker))%nat
                          then drop 1 states else states)) <$> trackers.
Proof.
  intros Hok. destruct (full_training_ok self trackers domain h Hok)
    as (tas & h' & Hrun & Hst).
  eexists _, _, _, _. split; [exact Hrun|]. split; [done|].
  rewrite Hst. unfold full_dialogue_sequences. apply list_fmap_ext.
  intros _ tracker _. simpl. unfold full_dialogue_states.
  destruct (first_action_unpredictable (applied_events tracker)) eqn:Hfirst; [|done].
  apply first_action_unpredictable_count in Hfirst.
  by rewrite bool_decide_eq_true_2.
Qed.

(** ** Padding to the longest dialogue *)

Lemma fold_left_max_spec (l : list Z) : ∀ x,
  (x ≤ fold_left Z.max l x ∧ ∀ y, y ∈ l → y ≤ fold_left Z.max l x) ∧
  (fold_left Z.max l x = x ∨ fold_left Z.max l x ∈ l).
Proof.
  induction l as [|a l IH]; intros x; simpl.
  - split; [split; [lia|]|by left]. intros y Hy. by apply elem_of_nil in Hy.
  - destruct (IH (x `max` a)) as [[Hx Hall] Hin]. split; [split|].
    + lia.
    + intros y [->|Hy]%elem_of_cons; [lia|by apply Hall].
    + destruct Hin as [Heq|Hin]; [|right; by right].
      rewrite Heq. destruct (Z.max_spec x a) as [[_ ->]|[_ ->]];
        [right; left|by left].
Qed.

Lemma py_max_spec (l : list Z) m :
  Full.py_max l = Some m → m ∈ l ∧ ∀ y, y ∈ l → y ≤ m.
Proof.
  destruct l as [|x l]; simpl; [done|]. intros [= <-].
  destruct (fold_left_max_spec l x) as [[Hx Hall] Hin]. split.
  - destruct Hin as [->|Hin]; [left|by right].
  - intros y [->|Hy]%elem_of_cons; [done|by apply Hall].
Qed.

Lemma calculate_max_len_spec {A} (trackers_as_actions : list (list A)) :
  trackers_as_actions ≠ [] →
  ∃ m, Full._calculate_max_len trackers_as_actions = Some m ∧
       (∃ actions, actions ∈ trackers_as_actions ∧ Z.of_nat (length actions) = m) ∧
       ∀ actions, actions ∈ trackers_as_actions → Z.of_nat (length actions) ≤ m.
Proof.
  intros Hne. unfold Full._calculate_max_len.
  destruct trackers_as_actions as [|a l] eqn:Heq; [done|]. rewrite <- Heq.
  destruct (Full.py_max ((λ states, Z.of_nat (length states)) <$> trackers_as_actions))
    as [m|] eqn:Hm.
  - exists m. split; [done|]. destruct (py_max_spec _ _ Hm) as [Hin Hall]. split.
    + apply list_elem_of_fmap in Hin as (actions & -> & Hin). by exists actions.
    + intros actions Hin'. apply Hall. apply list_elem_of_fmap. by exists actions.
  - rewrite Heq in Hm. done.
Qed.

Lemma count_executed_split events :
  count_executed events
  = (length (predictable_actions events) + count_unpredictable events)%nat.
Proof.
  unfold count_executed.
  induction events as [|[name [|]|?] events IH];
    rewrite ?count_unpredictable_cons, ?filter_cons; simpl in *; try lia.
  - unfold count_unpredictable. done.
Qed.

Lemma full_dialogue_states_length {A} events (states : list A) :
  (count_unpredictable events ≤ 1)%nat →
  length states = S (count_executed events) →
  length (full_dialogue_states events states) = length (predictable_actions events).
Proof.
  intros Hle Hlen. unfold full_dialogue_states.
  rewrite removelast_firstn_len, length_take.
  rewrite count_executed_split in Hlen.
  case_bool_decide; rewrite ?length_drop; lia.
Qed.

Lemma pad_states_full {E A : Type} (self : TrackerFeaturizer E) m
    (states : list (option A)) :
  class_of self = FullDialogueTrackerFeaturizer →
  max_len self = Some m →
  Z.of_nat (length states) ≤ m →
  _pad_states self states
    = Ok (states ++ replicate (Z.to_nat m - length states) None) ∧
  has_length m (states ++ replicate (Z.to_nat m - length states) None).
Proof.
  intros Hcls Hm Hle. unfold _pad_states, has_length. rewrite Hcls, Hm. split.
  - destruct (Z.ltb_spec (Z.of_nat (length states)) m).
    + do 3 f_equal. lia.
    + replace (Z.to_nat m - length states)%nat with 0%nat by lia.
      by rewrite app_nil_r.
  - rewrite length_app, length_replicate. lia.
Qed.

Lemma mapM_Eff_cons {A B} (f : A → Eff B) x l :
  mapM f (x :: l) = (do* y := f x in do* k := mapM f l in mret (y :: k)).
Proof. reflexivity. Qed.

Lemma ebind_Ok {A B} (m : Eff A) (f : A → Eff B) b :
  outcome (ebind m f) = Ok b → ∃ a, outcome m = Ok a ∧ outcome (f a) = Ok b.
Proof.
  unfold ebind. destruct (outcome m) as [a|e]; simpl; [|done]. by exists a.
Qed.

Lemma mapM_Eff_Ok {A B} (f : A → Eff B) l : ∀ rs,
  outcome (mapM f l) = Ok rs → Forall2 (λ x r, outcome (f x) = Ok r) l rs.
Proof.
  induction l as [|x l IH]; intros rs.
  - intros [= <-]. constructor.
  - rewrite mapM_Eff_cons. intros (y & Hy & Hrest)%ebind_Ok.
    apply ebind_Ok in Hrest as (k & Hk & [= <-]).
    constructor; [done|by apply IH].
Qed.

Lemma featurize_tracker_states_length {E : Type} `{!SingleStateFeaturizer E}
    (self : TrackerFeaturizer E) h batch_size m states features len :
  class_of self = FullDialogueTrackerFeaturizer →
  max_len self = Some m →
  (1 < batch_size)%nat →
  Z.of_nat (length states) ≤ m →
  outcome (featurize_tracker_states self h batch_size states) = Ok (features, len) →
  has_length m features ∧ len = Z.of_nat (length states).
Proof.
  intros Hcls Hm Hbatch Hle. unfold featurize_tracker_states.
  rewrite (proj2 (Nat.ltb_lt _ _) Hbatch).
  destruct (pad_states_full self m states Hcls Hm Hle) as [-> Hlen].
  intros (padded & [= <-] & Hrest)%ebind_Ok.
  apply ebind_Ok in Hrest as (story & Hstory & [= <- <-]).
  apply mapM_Eff_Ok, Forall2_length in Hstory.
  split; [|done]. unfold has_length in *. by rewrite <- Hstory.
Qed.

Lemma featurize_rows_length {E : Type} `{!SingleStateFeaturizer E}
    (self : TrackerFeaturizer E) h batch_size m
    (tas : list (list (option loc))) (rows : list (list (list Z) * Z)) :
  class_of self = FullDialogueTrackerFeaturizer →
  max_len self = Some m →
  (1 < batch_size)%nat →
  Forall (λ states : list (option loc), Z.of_nat (length states) ≤ m) tas →
  Forall2 (λ states row,
             outcome (featurize_tracker_states self h batch_size states) = Ok row)
          tas rows →
  Forall (has_length m) rows.*1 ∧
  rows.*2 = (λ states : list (option loc), Z.of_nat (length states)) <$> tas.
Proof.
  intros Hcls Hm Hbatch Hshort Hrows.
  induction Hrows as [|states [features len] tas rows Hrow Hrows IH]; [done|].
  apply Forall_cons in Hshort as [Hle Hshort].
  destruct (IH Hshort) as [IH1 IH2].
  destruct (featurize_tracker_states_length self h batch_size m states features len)
    as [Hf ->]; try done.
  simpl. split; [by constructor|by f_equal].
Qed.

(** C5.  For a non-empty batch without a second unpredictable action,
    [training_states_and_actions] of the full-dialogue featurizer sets
    [max_len] to the maximum length of the action lists, and [_pad_states]
    then extends a sequence shorter than [max_len] with trailing [None]
    entries to that length.  When the past states of every tracker are the
    states before each executed action and the final one, no state
    sequence is longer than [max_len]; so for a batch of more than one
    tracker every sequence of encoded states of [_featurize_states], in
    whatever store, has length exactly [max_len], the true lengths being
    those before padding. *)
Theorem full_dialogue_padding {E : Type} `{!SingleStateFeaturizer E}
    (self : TrackerFeaturizer E)
    (trackers : list DialogueStateTracker) (domain : Domain) (h : Heap) :
  class_of self = FullDialogueTrackerFeaturizer →
  trackers ≠ [] →
  Forall (λ tracker, (count_unpredictable (applied_events tracker) ≤ 1)%nat)
         trackers →
  ∃ tas taa self' h' m,
    Full.training_states_and_actions self trackers domain h
      = Ok (tas, taa, self', h') ∧
    max_len self' = Some m ∧
    (∃ actions, actions ∈ taa ∧ Z.of_nat (length actions) = m) ∧
    (∀ actions, actions ∈ taa → Z.of_nat (length actions) ≤ m) ∧
    (∀ states : list (option loc),
       Z.of_nat (length states) ≤ m →
       _pad_states self' states
         = Ok (states ++ replicate (Z.to_nat m - length states) None) ∧
       has_length m (states ++ replicate (Z.to_nat m - length states) None)) ∧
    (Forall (states_follow_actions domain) trackers →
     Forall (λ states, Z.of_nat (length states) ≤ m) tas ∧
     ((1 < length trackers)%nat →
      ∀ h'' X true_lengths,
        outcome (_featurize_states self' h'' tas) = Ok (X, true_lengths) →
        Forall (has_length m) X ∧
        true_lengths = (λ states, Z.of_nat (length states)) <$> tas)).
Proof.
  intros Hcls Hbatch Hok.
  destruct (full_training_ok self trackers domain h Hok) as (tas & h' & Hrun & Hst).
  destruct (calculate_max_len_spec (full_dialogue_actions trackers))
    as (m & Hm & Hmax & Hall).
  { by destruct trackers. }
  assert (length tas = length trackers) as Hlen.
  { apply (f_equal length) in Hst.
    unfold deref_all, full_dialogue_sequences in Hst.
    by rewrite !length_fmap in Hst. }
  set (self' := set_max_len self (Full._calculate_max_len (full_dialogue_actions trackers))).
  assert (class_of self' = FullDialogueTrackerFeaturizer) as Hcls' by done.
  assert (max_len self' = Some m) as Hm' by done.
  exists tas, (full_dialogue_actions trackers), self', h', m.
  split; [done|]. split; [done|]. split; [done|]. split; [done|]. split.
  { intros states Hle. by apply pad_states_full. }
  intros Hwf.
  assert (Forall (λ states : list (option loc), Z.of_nat (length states) ≤ m) tas)
    as Hshort.
  { apply Forall_lookup. intros i states Hi.
    assert (deref_all h' tas !! i = Some (deref h' <$> states)) as Hd.
    { unfold deref_all. by rewrite list_lookup_fmap, Hi. }
    rewrite Hst in Hd. unfold full_dialogue_sequences in Hd.
    rewrite list_lookup_fmap in Hd.
    destruct (trackers !! i) as [tracker|] eqn:Ht; [|done].
    simpl in Hd. injection Hd as Hd. apply (f_equal length) in Hd.
    rewrite !length_fmap in Hd.
    rewrite full_dialogue_states_length in Hd.
    - rewrite <- Hd. apply Hall. unfold full_dialogue_actions.
      apply list_elem_of_fmap. exists tracker. split; [done|].
      by eapply list_elem_of_lookup_2.
    - by eapply (proj1 (Forall_lookup _ _) Hok).
    - rewrite length_fmap. by eapply (proj1 (Forall_lookup _ _) Hwf). }
  split; [done|]. intros Hmany h'' X true_lengths. unfold _featurize_states.
  intros (rows & Hrows & [= <- <-])%ebind_Ok.
  apply mapM_Eff_Ok in Hrows.
  apply (featurize_rows_length self' h'' (length tas) m); try done.
  by rewrite Hlen.
Qed.

(** ** Two unpredictable actions in one tracker *)

Lemma full_training_raise {E : Type} (self : TrackerFeaturizer E) trackers domain h :
  (∃ tracker, tracker ∈ trackers ∧
              (2 ≤ count_unpredictable (applied_events tracker))%nat) →
  Full.training_states_and_actions self trackers domain h
  = Raise two_unpredictable_error.
Proof.
  intros Hbad. unfold Full.training_states_and_actions.
  by rewrite full_trackers_loop_raise.
Qed.

(** C3 (amended).  A tracker with two or more executed actions flagged
    unpredictable makes [training_states_and_actions] of the full-dialogue
    featurizer raise, whatever the other trackers of the batch, and
    [featurize_trackers] passes the exception on to its caller.  The
    max-history featurizer has no such check: it returns normally, its
    labels taken in order from the actions not flagged unpredictable. *)
Theorem two_unpredictable_actions {E : Type} `{!SingleStateFeaturizer E}
    (py_hash : list (option (gset (string * Qc))) * list string → Z)
    (self : TrackerFeaturizer E)
    (trackers : list DialogueStateTracker) (domain : Domain) (h : Heap) :
  (∃ tracker, tracker ∈ trackers ∧
              (2 ≤ count_unpredictable (applied_events tracker))%nat) →
  (class_of self = FullDialogueTrackerFeaturizer →
   training_states_and_actions py_hash self trackers domain h
     = Raise two_unpredictable_error ∧
   ∀ e e', state_featurizer self = Some e →
           prepare_from_domain e domain = Ok e' →
           outcome (featurize_trackers py_hash self trackers domain h)
             = Raise two_unpredictable_error) ∧
  (class_of self = MaxHistoryTrackerFeaturizer →
   ∃ tas taa h',
     training_states_and_actions py_hash self trackers domain h
       = Ok (tas, taa, self, h') ∧
     length tas = length taa ∧
     taa `sublist_of`
       ((λ name : string, [name]) <$> concat (full_dialogue_actions trackers))).
Proof.
  intros Hbad. split.
  - intros Hcls. split.
    + unfold training_states_and_actions. rewrite Hcls.
      by apply full_training_raise.
    + intros e e' He Hprep. unfold featurize_trackers. rewrite He.
      unfold ebind at 1. simpl. rewrite Hprep. simpl.
      unfold ebind at 1. simpl.
      unfold training_states_and_actions. simpl. rewrite Hcls.
      by rewrite full_training_raise.
  - intros Hcls. unfold training_states_and_actions. rewrite Hcls.
    destruct (max_history_training_spec py_hash self trackers domain h)
      as (tas & taa & h' & Hrun & Hlen & _ & Hsub & _).
    unfold emitted in *. simpl in *.
    exists tas, taa, h'. split; [done|]. split; [done|].
    rewrite <- (batch_examples_labels self domain trackers h).
    rewrite <- (snd_zip tas taa) at 1 by lia.
    by apply fmap_sublist.
Qed.

(** ** Sentinel vectors and one-hot labels *)

Lemma np_full_ok n v : 0 ≤ n → np_full n v = Ok (replicate (Z.to_nat n) v).
Proof. intros Hn. unfold np_full. by rewrite (proj2 (Z.ltb_ge _ _) Hn). Qed.

Lemma np_mul_replicate n v c : np_mul (replicate n v) c = replicate n (v * c).
Proof. unfold np_mul. by rewrite fmap_replicate. Qed.

(** C7.  [encode(None)] of a calibrated featurizer is the vector of as
    many -1 as the vocabulary has entries (a one-row matrix of them when a
    sparse result is asked for); [action_as_one_hot(None, domain)] is the
    vector of [num_actions] times -1; and for an action whose index lies
    within the action count, [action_as_one_hot] is the vector of that
    length with a 1 at the index and 0 elsewhere. *)
Theorem none_encodes_to_sentinel (CLS_TOKEN : string)
    (_get_processed_message_tokens_by_attribute :
       BOWSingleStateFeaturizer → string → list string)
    (_create_sequence : BOWSingleStateFeaturizer → list string → list (list Z))
    (self : BOWSingleStateFeaturizer) (vectorizer : CountVectorizer)
    (domain : Domain) (name : string) (i : Z) :
  vectorizers self !! "text" = Some vectorizer →
  0 ≤ num_actions domain →
  index_for_action domain name = Ok i →
  0 ≤ i < num_actions domain →
  let sentinel := replicate (size (vocabulary_ vectorizer)) (-1) in
  BOW.encode CLS_TOKEN _get_processed_message_tokens_by_attribute _create_sequence
    self None "dense" = Ok (Dense sentinel) ∧
  BOW.encode CLS_TOKEN _get_processed_message_tokens_by_attribute _create_sequence
    self None "sparse" = Ok (Sparse [sentinel]) ∧
  action_as_one_hot None domain
    = Ok (replicate (Z.to_nat (num_actions domain)) (-1)) ∧
  ∃ y, action_as_one_hot (Some name) domain = Ok y ∧
       Z.of_nat (length y) = num_actions domain ∧
       ∀ j, (j < length y)%nat →
            y !! j = Some (if decide (j = Z.to_nat i) then 1 else 0).
Proof.
  intros Hvoc Hn Hidx Hi sentinel. split; [|split; [|split]].
  - unfold BOW.encode, BOW.vocabulary_size. rewrite Hvoc. simpl.
    rewrite np_full_ok by lia. simpl.
    by rewrite np_mul_replicate, Nat2Z.id.
  - unfold BOW.encode, BOW.vocabulary_size. rewrite Hvoc. simpl.
    rewrite np_full_ok by lia. simpl.
    by rewrite np_mul_replicate, Nat2Z.id.
  - unfold action_as_one_hot. rewrite np_full_ok by done. simpl.
    by rewrite np_mul_replicate.
  - unfold action_as_one_hot. rewrite np_full_ok by done. simpl.
    rewrite Hidx. simpl. unfold np_setitem. rewrite length_replicate.
    rewrite Z2Nat.id by done.
    rewrite (proj2 (Z.leb_le _ _) (proj1 Hi)), (proj2 (Z.ltb_lt _ _) (proj2 Hi)).
    simpl. eexists. split; [done|].
    rewrite length_insert, length_replicate. split; [lia|].
    intros j Hj. case_decide as Hji.
    + subst j. by rewrite list_lookup_insert_eq by by rewrite length_replicate.
    + rewrite list_lookup_insert_ne by done. by apply lookup_replicate_2.
Qed.

(** ** Loading a persisted featurizer *)

(** C8.  [load] never raises for a missing file: when no file
    featurizer.json exists under the path it logs one error and returns
    [None]; when the file exists it logs nothing and returns what
    [jsonpickle.decode] makes of its content. *)
Theorem load_missing_file_returns_none {E : Type}
    (jsonpickle_decode : string → Result (TrackerFeaturizer E))
    (fs : gmap string string) (path : string) :
  (fs !! os_path_join path "featurizer.json" = None →
   load jsonpickle_decode fs path
   = (Ok None,
      [LogError ("Couldn't load featurizer for policy. File '"
                 +:+ os_path_join path "featurizer.json" +:+ "' doesn't exist.")])) ∧
  (∀ content featurizer,
     fs !! os_path_join path "featurizer.json" = Some content →
     jsonpickle_decode content = Ok featurizer →
     load jsonpickle_decode fs path = (Ok (Some featurizer), [])).
Proof.
  split.
  - intros Hnone. unfold load, os_path_isfile.
    rewrite bool_decide_eq_false_2; [done|].
    rewrite Hnone. by intros [? ?].
  - intros content featurizer Hfile Hdec. unfold load, os_path_isfile, read_file.
    rewrite bool_decide_eq_true_2 by by rewrite Hfile.
    rewrite Hfile. simpl. by rewrite Hdec.
Qed.

(** ** _postprocess_trackers_as_states *)

Lemma dict_del_remove k d : k ∈ keys d → dict_del k d = Ok (dict_remove k d).
Proof.
  induction d as [|[k' v] d IH]; simpl.
  - intros H. by apply elem_of_nil in H.
  - intros [->|Hin]%elem_of_cons.
    + by rewrite !decide_True by done.
    + case_decide; [done|]. by rewrite IH.
Qed.

Lemma intent_keys_head d current rest :
  intent_keys d = current :: rest → current ∈ keys d.
Proof.
  unfold intent_keys. intros H.
  assert (current ∈ filter (λ key, is_intent key) (keys d)) as Hin
    by (rewrite H; left).
  by apply list_elem_of_filter in Hin as [_ ?].
Qed.

(** One turn, by cases on its first intent. *)
Lemma postprocess_turn_spec h previous_intent entry :
  postprocess_turn (h, previous_intent) entry
  = Ok (match entry, first_intent (deref h entry) with
        | Some l, Some current =>
            if decide (previous_intent = Some current)
            then (<[l := default [] (dict_remove current <$> deref h entry)]> h,
                  previous_intent)
            else (h, Some current)
        | _, _ => (h, previous_intent)
        end).
Proof.
  unfold postprocess_turn, first_intent.
  destruct entry as [l|]; simpl; [|done].
  destruct (h !! l) as [d|] eqn:Hl; simpl; [|done].
  destruct d as [|kv d0]; [done|].
  cbn -[dict_del dict_remove intent_keys]. clear Hl.
  generalize dependent (kv :: d0). intros d.
  destruct (intent_keys d) as [|current others] eqn:Hkeys; [done|].
  cbn -[dict_del dict_remove].
  destruct (decide (Some current = previous_intent)) as [<-|Hne].
  - rewrite decide_True by done.
    rewrite dict_del_remove by apply (intent_keys_head _ _ _ Hkeys). done.
  - by rewrite decide_False by congruence.
Qed.

Lemma postprocess_turns_cons st entry entries :
  postprocess_turns st (entry :: entries)
  = (let* st' := postprocess_turn st entry in postprocess_turns st' entries).
Proof. reflexivity. Qed.

Lemma postprocess_turns_total entries : ∀ st,
  ∃ st', postprocess_turns st entries = Ok st' ∧ length st'.1 = length st.1.
Proof.
  induction entries as [|entry entries IH]; intros [h prev].
  - by eexists.
  - rewrite postprocess_turns_cons, postprocess_turn_spec. simpl.
    match goal with |- context [postprocess_turns ?s _] =>
      destruct (IH s) as (st' & -> & Hlen) end.
    exists st'. split; [done|]. rewrite Hlen.
    destruct entry as [l|]; [|done].
    destruct (first_intent _); [|done].
    case_decide; [|done]. simpl. by rewrite length_insert.
Qed.

Lemma postprocess_total trackers_as_states : ∀ h,
  ∃ h', _postprocess_trackers_as_states trackers_as_states h = Ok h' ∧
        length h' = length h.
Proof.
  induction trackers_as_states as [|states rest IH]; intros h; simpl.
  - by eexists.
  - destruct (postprocess_turns_total states (h, None)) as (st & -> & Hlen).
    simpl. destruct (IH st.1) as (h' & -> & Hlen').
    exists h'. split; [done|]. by rewrite Hlen'.
Qed.

Lemma deref_insert_ne h l d (s : option loc) :
  s ≠ Some l → deref (<[l := d]> h) s = deref h s.
Proof.
  destruct s as [l'|]; simpl; [|done]. intros Hne.
  apply list_lookup_insert_ne. congruence.
Qed.

Lemma refs_cons_Some l states : refs (Some l :: states) = l :: refs states.
Proof. done. Qed.

Lemma elem_of_refs l states : l ∈ refs states ↔ Some l ∈ states.
Proof.
  unfold refs. rewrite list_elem_of_omap. split.
  - intros ([l'|] & Hin & [= <-]). done.
  - intros Hin. by exists (Some l).
Qed.

Lemma compress_intents_cons kept turn rest :
  compress_intents kept (turn :: rest)
  = match first_intent turn with
    | Some current =>
        if decide (kept = Some current)
        then strip_intent current turn :: compress_intents kept rest
        else turn :: compress_intents (Some current) rest
    | None => turn :: compress_intents kept rest
    end.
Proof. reflexivity. Qed.

Lemma strip_intent_first current turn :
  first_intent turn = Some current →
  strip_intent current turn = dict_remove current <$> turn.
Proof. intros H. unfold strip_intent. by rewrite decide_True. Qed.

(** The loop over one sequence of pairwise distinct references refines
    the specification's compressor, and leaves every other dict alone. *)
Lemma postprocess_turns_refines states : ∀ h previous_intent,
  NoDup (refs states) →
  ∃ h' previous_intent',
    postprocess_turns (h, previous_intent) states = Ok (h', previous_intent') ∧
    deref h' <$> states = compress_intents previous_intent (deref h <$> states) ∧
    ∀ s, s ∉ states → deref h' s = deref h s.
Proof.
  induction states as [|entry states IH]; intros h prev Hnd.
  - by eexists _, _.
  - rewrite postprocess_turns_cons, postprocess_turn_spec.
    rewrite !fmap_cons, compress_intents_cons. unfold rbind.
    assert (NoDup (refs states) ∧ (∀ l, entry = Some l → Some l ∉ states))
      as [Hnd' Hfresh].
    { destruct entry as [l|]; [|done].
      rewrite refs_cons_Some in Hnd. apply NoDup_cons in Hnd as [Hl Hnd].
      split; [done|]. intros ? [= <-]. by rewrite <- elem_of_refs. }
    destruct entry as [l|]; [|].
    2:{ destruct (IH h prev Hnd') as (h' & prev' & -> & Hst & Hframe).
        exists h', prev'. split; [done|]. split.
        - change (first_intent (deref h None)) with (@None string).
          cbn iota. by rewrite fmap_cons, Hst.
        - intros s [_ Hs]%not_elem_of_cons. by apply Hframe. }
    specialize (Hfresh l eq_refl).
    destruct (first_intent (deref h (Some l))) as [current|] eqn:Hfirst.
    + destruct (decide (prev = Some current)) as [->|Hne].
      * set (d' := default [] (dict_remove current <$> deref h (Some l))).
        destruct (IH (<[l := d']> h) (Some current) Hnd')
          as (h' & prev' & -> & Hst & Hframe).
        exists h', prev'. split; [done|]. split.
        -- rewrite fmap_cons. f_equal.
           ++ rewrite (Hframe (Some l) Hfresh), strip_intent_first by done.
              unfold first_intent in Hfirst. simpl in *.
              destruct (h !! l) as [d|] eqn:Hd; [|done]. simpl.
              apply list_lookup_insert_eq. by eapply lookup_lt_Some.
           ++ rewrite Hst. f_equal. apply Forall_fmap_ext_1, Forall_forall.
              intros s Hs. apply deref_insert_ne. by intros ->.
        -- intros s [Hne Hs]%not_elem_of_cons.
           rewrite (Hframe s Hs). by apply deref_insert_ne.
      * destruct (IH h (Some current) Hnd') as (h' & prev' & -> & Hst & Hframe).
        exists h', prev'. split; [done|]. split.
        -- by rewrite fmap_cons, (Hframe (Some l) Hfresh), Hst.
        -- intros s [_ Hs]%not_elem_of_cons. by apply Hframe.
    + destruct (IH h prev Hnd') as (h' & prev' & -> & Hst & Hframe).
      exists h', prev'. split; [done|]. split.
      * by rewrite fmap_cons, (Hframe (Some l) Hfresh), Hst.
      * intros s [_ Hs]%not_elem_of_cons. by apply Hframe.
Qed.

Lemma remembered_intent_cons kept turn earlier :
  remembered_intent kept (turn :: earlier)
  = remembered_intent (match first_intent turn with
                       | Some current => Some current
                       | None => kept
                       end) earlier.
Proof.
  unfold remembered_intent. cbn [omap list_omap].
  destruct (first_intent turn) as [current|]; cbn; [|done].
  rewrite last_cons. by destruct (last (omap first_intent earlier)).
Qed.

(** Turn by turn: the first intent of a turn is deleted exactly when it
    is the intent remembered from the earlier turns. *)
Lemma compress_intents_lookup turns : ∀ kept j turn current,
  turns !! j = Some turn →
  first_intent turn = Some current →
  compress_intents kept turns !! j
  = Some (if decide (remembered_intent kept (take j turns) = Some current)
          then strip_intent current turn else turn).
Proof.
  induction turns as [|t turns IH]; intros kept j turn current Hj Hfirst; [done|].
  rewrite compress_intents_cons. destruct j as [|j]; simpl in Hj.
  - injection Hj as ->. rewrite Hfirst. simpl.
    unfold remembered_intent. simpl. by case_decide.
  - rewrite firstn_cons, remembered_intent_cons.
    destruct (first_intent t) as [c|] eqn:Ht.
    + destruct (decide (kept = Some c)) as [->|Hne]; simpl; by apply IH.
    + simpl. by apply IH.
Qed.

Lemma compress_intents_gap kept pre turns :
  Forall (λ turn, first_intent turn = None) pre →
  compress_intents kept (pre ++ turns) = pre ++ compress_intents kept turns.
Proof.
  induction 1 as [|turn pre Hturn Hpre IH]; [done|].
  simpl. rewrite Hturn. by rewrite IH.
Qed.

Lemma strip_intent_other current turn :
  first_intent turn ≠ Some current → strip_intent current turn = turn.
Proof. intros H. unfold strip_intent. by rewrite decide_False. Qed.

Lemma compress_intents_same current turns :
  Forall (λ turn, first_intent turn = Some current ∨ first_intent turn = None) turns →
  compress_intents (Some current) turns = strip_intent current <$> turns.
Proof.
  induction 1 as [|turn turns Hturn Hturns IH]; [done|].
  rewrite compress_intents_cons, fmap_cons, IH.
  destruct Hturn as [-> | Hnone].
  - by rewrite decide_True.
  - rewrite Hnone. by rewrite strip_intent_other by congruence.
Qed.

(** A run of turns sharing one intent, gaps included: only the first
    turn keeps it. *)
Lemma compress_intents_run current pre first rest :
  Forall (λ turn, first_intent turn = None) pre →
  first_intent first = Some current →
  Forall (λ turn, first_intent turn = Some current ∨ first_intent turn = None) rest →
  compress_intents None (pre ++ first :: rest)
  = pre ++ first :: (strip_intent current <$> rest).
Proof.
  intros Hpre Hfirst Hrest. rewrite compress_intents_gap by done.
  rewrite compress_intents_cons, Hfirst. rewrite decide_False by done.
  by rewrite compress_intents_same.
Qed.

Lemma sequence_compressed_unique h states h1 h2 :
  sequence_compressed h states h1 → sequence_compressed h states h2 → h1 = h2.
Proof.
  intros (_ & Hst1 & Hframe1) (_ & Hst2 & Hframe2).
  apply list_eq. intros l.
  destruct (decide (Some l ∈ states)) as [Hin|Hout].
  - rewrite <- Hst2 in Hst1. apply (list_fmap_inj_1 _ _ _ _ Hst1 Hin).
  - pose proof (Hframe1 (Some l) Hout) as H1.
    pose proof (Hframe2 (Some l) Hout) as H2. simpl in *. congruence.
Qed.

Lemma batch_compressed_unique trackers_as_states : ∀ h h1 h2,
  batch_compressed h trackers_as_states h1 →
  batch_compressed h trackers_as_states h2 → h1 = h2.
Proof.
  induction trackers_as_states as [|states rest IH]; intros h h1 h2; simpl.
  - congruence.
  - intros (ha & Ha & Hresta) (hb & Hb & Hrestb).
    rewrite (sequence_compressed_unique _ _ _ _ Ha Hb) in Hresta.
    by eapply IH.
Qed.

Lemma postprocess_turns_compressed states h :
  NoDup (refs states) →
  ∃ h' previous_intent,
    postprocess_turns (h, None) states = Ok (h', previous_intent) ∧
    sequence_compressed h states h'.
Proof.
  intros Hnd.
  destruct (postprocess_turns_refines states h None Hnd)
    as (h' & prev' & Hrun & Hst & Hframe).
  destruct (postprocess_turns_total states (h, None)) as (st' & Hrun' & Hlen).
  rewrite Hrun in Hrun'. injection Hrun' as <-. simpl in Hlen.
  by exists h', prev'.
Qed.

Lemma postprocess_batch_compressed trackers_as_states : ∀ h,
  Forall (λ states, NoDup (refs states)) trackers_as_states →
  ∃ h', _postprocess_trackers_as_states trackers_as_states h = Ok h' ∧
        batch_compressed h trackers_as_states h'.
Proof.
  induction trackers_as_states as [|states rest IH]; intros h Hnd; simpl.
  - by exists h.
  - apply Forall_cons in Hnd as [Hstates Hrest].
    destruct (postprocess_turns_compressed states h Hstates)
      as (h1 & prev & Hrun & Hcomp).
    rewrite Hrun. simpl. destruct (IH h1 Hrest) as (h' & Hrun' & Hcomp').
    exists h'. split; [exact Hrun'|]. by exists h1.
Qed.

(** C9.  [_postprocess_trackers_as_states] never raises.  In every turn
    the first-listed intent key of the dict at hand is deleted exactly
    when it equals [previous_intent], the most recently kept intent of
    the sequence, and becomes [previous_intent] otherwise; a [None], empty
    or intent-free turn changes nothing.  On a batch of sequences of
    pairwise distinct dict references, as the featurizers build them, the
    method leaves exactly one store: the store it was given for an empty
    batch, and otherwise the one in which, sequence after sequence, the
    dicts of the sequence are, in place, what the compressor of the
    specification makes of them in the store the sequences before left,
    the other dicts being untouched.  In that compressor the first intent
    of a turn goes exactly when it is the intent remembered from the
    earlier turns, gaps included, so in a run of turns sharing one intent
    only the first turn keeps it. *)
Theorem postprocess_compresses_duplicate_intents
    (h : Heap) (trackers_as_states : list (list (option loc))) :
  (∀ previous_intent entry,
     postprocess_turn (h, previous_intent) entry
     = Ok (match entry, first_intent (deref h entry) with
           | Some l, Some current =>
               if decide (previous_intent = Some current)
               then (<[l := default [] (dict_remove current <$> deref h entry)]> h,
                     previous_intent)
               else (h, Some current)
           | _, _ => (h, previous_intent)
           end)) ∧
  (∃ h', _postprocess_trackers_as_states trackers_as_states h = Ok h' ∧
         length h' = length h) ∧
  (Forall (λ states, NoDup (refs states)) trackers_as_states →
   ∃ h', _postprocess_trackers_as_states trackers_as_states h = Ok h' ∧
         batch_compressed h trackers_as_states h' ∧
         ∀ h2, batch_compressed h trackers_as_states h2 → h2 = h') ∧
  (∀ states others,
     NoDup (refs states) →
     ∃ h' previous_intent,
       postprocess_turns (h, None) states = Ok (h', previous_intent) ∧
       sequence_compressed h states h' ∧
       _postprocess_trackers_as_states (states :: others) h
         = _postprocess_trackers_as_states others h') ∧
  (∀ turns j turn current,
     turns !! j = Some turn →
     first_intent turn = Some current →
     compress_intents None turns !! j
     = Some (if decide (remembered_intent None (take j turns) = Some current)
             then dict_remove current <$> turn else turn)) ∧
  (∀ current pre first rest,
     Forall (λ turn, first_intent turn = None) pre →
     first_intent first = Some current →
     Forall (λ turn, first_intent turn = Some current ∨ first_intent turn = None)
            rest →
     compress_intents None (pre ++ first :: rest)
     = pre ++ first :: (strip_intent current <$> rest)).
Proof.
  split; [|split; [|split; [|split; [|split]]]].
  - intros. apply postprocess_turn_spec.
  - apply postprocess_total.
  - intros Hnd.
    destruct (postprocess_batch_compressed trackers_as_states h Hnd)
      as (h' & Hrun & Hcomp).
    exists h'. split; [exact Hrun|]. split; [exact Hcomp|].
    intros h2 Hcomp2. by eapply batch_compressed_unique.
  - intros states others Hnd.
    destruct (postprocess_turns_compressed states h Hnd)
      as (h' & prev' & Hrun & Hcomp).
    exists h', prev'. split; [done|]. split; [done|].
    simpl. by rewrite Hrun.
  - intros turns j turn current Hj Hfirst.
    rewrite (compress_intents_lookup turns None j turn current Hj Hfirst).
    by rewrite strip_intent_first.
  - intros. by apply compress_intents_run.
Qed.

(** ** The inference path and the training path *)

Lemma calls_ebind {A B} (m : Eff A) (f : A → Eff B) :
  calls (ebind m f)
  = calls m ++ match outcome m with Ok a => calls (f a) | Raise _ => [] end.
Proof. unfold ebind. destruct (outcome m); simpl; [done|by rewrite app_nil_r]. Qed.

Lemma outcome_ebind {A B} (m : Eff A) (f : A → Eff B) :
  outcome (ebind m f)
  = match outcome m with Ok a => outcome (f a) | Raise e => Raise e end.
Proof. unfold ebind. by destruct (outcome m). Qed.

Lemma ebind_lift_Ok {A B} (a : A) (f : A → Eff B) :
  outcome (ebind (lift (Ok a)) f) = outcome (f a) ∧
  calls (ebind (lift (Ok a)) f) = calls (f a).
Proof. done. Qed.

Section EffInvariants.

Context {A B : Type}.
Variable P : list Call → Prop.
Hypothesis P_nil : P [].
Hypothesis P_app : ∀ l1 l2, P l1 → P l2 → P (l1 ++ l2).

Lemma calls_ebind_inv (m : Eff A) (f : A → Eff B) :
  P (calls m) → (∀ a, P (calls (f a))) → P (calls (ebind m f)).
Proof.
  intros Hm Hf. rewrite calls_ebind. apply P_app; [done|].
  destruct (outcome m); [apply Hf|apply P_nil].
Qed.

End EffInvariants.

Lemma calls_mapM_inv {A B} (P : list Call → Prop) (f : A → Eff B) l :
  P [] → (∀ l1 l2, P l1 → P l2 → P (l1 ++ l2)) →
  (∀ x, P (calls (f x))) → P (calls (mapM f l)).
Proof.
  intros Hnil Happ Hf. induction l as [|x l IH]; [done|].
  rewrite mapM_Eff_cons. apply calls_ebind_inv; [done..|].
  intros y. apply calls_ebind_inv; [done..|]. by intros.
Qed.

Lemma no_value_error_ebind {A B} (m : Eff A) (f : A → Eff B) :
  no_value_error (outcome m) → (∀ a, no_value_error (outcome (f a))) →
  no_value_error (outcome (ebind m f)).
Proof.
  intros Hm Hf. rewrite outcome_ebind.
  destruct (outcome m) as [a|e]; [apply Hf|]. by destruct e.
Qed.

Lemma no_value_error_mapM {A B} (f : A → Eff B) l :
  (∀ x, no_value_error (outcome (f x))) → no_value_error (outcome (mapM f l)).
Proof.
  intros Hf. induction l as [|x l IH]; [done|].
  rewrite mapM_Eff_cons. apply no_value_error_ebind; [done|].
  intros y. apply no_value_error_ebind; [done|]. by intros.
Qed.

Lemma no_value_error_rbind {A B} (m : Result A) (f : A → Result B) :
  no_value_error m → (∀ a, no_value_error (f a)) → no_value_error (rbind m f).
Proof. intros Hm Hf. destruct m as [a|e]; [apply Hf|]. by destruct e. Qed.

Lemma no_value_error_mapM_Result {A B} (f : A → Result B) l :
  (∀ x, no_value_error (f x)) → no_value_error (mapM f l).
Proof.
  intros Hf. induction l as [|x l IH]; [done|].
  rewrite mapM_Result_cons. apply no_value_error_rbind; [done|].
  intros y. apply no_value_error_rbind; [done|]. by intros.
Qed.

Lemma dict_del_no_value_error k d : no_value_error (dict_del k d).
Proof.
  induction d as [|[k' v] d IH]; simpl; [done|].
  case_decide; [done|]. apply no_value_error_rbind; [done|]. by intros.
Qed.

Lemma scan_loop_no_value_error items : ∀ s, no_value_error (scan_loop s items).
Proof.
  induction items as [|[k p] items IH]; intros s; simpl; [done|].
  apply no_value_error_rbind; [|done].
  destruct (is_intent k); [|done].
  destruct (float_gt p (best_intent_prob s)).
  - destruct (best_intent s); [|done].
    apply no_value_error_rbind; [apply dict_del_no_value_error|by intros].
  - apply no_value_error_rbind; [apply dict_del_no_value_error|by intros].
Qed.

Lemma binarize_no_value_error state : no_value_error (binarize state).
Proof.
  unfold binarize. apply no_value_error_rbind; [apply scan_loop_no_value_error|].
  intros s. by destruct (best_intent s).
Qed.

Lemma create_states_no_value_error {E : Type} (self : TrackerFeaturizer E)
    tracker domain b h :
  no_value_error (_create_states self tracker domain b h).
Proof.
  unfold _create_states. destruct (_ && _); [|done].
  apply no_value_error_rbind; [|by intros].
  apply no_value_error_mapM_Result, binarize_no_value_error.
Qed.

Lemma create_states_all_no_value_error {E : Type} (self : TrackerFeaturizer E)
    trackers domain : ∀ h,
  no_value_error (create_states_all self trackers domain h).
Proof.
  induction trackers as [|t trackers IH]; intros h; simpl; [done|].
  apply no_value_error_rbind; [apply create_states_no_value_error|].
  intros [states h1]. apply no_value_error_rbind; [apply IH|]. by intros [? ?].
Qed.

Section FacadePaths.

Context {E : Type} `{!SingleStateFeaturizer E}.
Variable py_hash : list (option (gset (string * Qc))) * list string → Z.
Variable self : TrackerFeaturizer E.

Lemma prediction_states_no_value_error trackers domain h :
  no_value_error (prediction_states self trackers domain h).
Proof.
  unfold prediction_states, Full.prediction_states, MaxHistory.prediction_states.
  destruct (class_of self); [done| |];
    (apply no_value_error_rbind;
      [apply create_states_all_no_value_error|by intros [? ?]]).
Qed.

Lemma pad_states_no_value_error {A} (states : list (option A)) :
  no_value_error (_pad_states self states).
Proof.
  unfold _pad_states. destruct (class_of self); try done.
  destruct (max_len self); [|done]. by destruct (_ <? _).
Qed.

Lemma encode_state_calls h state :
  Forall is_encode_call (calls (encode_state self h state)).
Proof.
  unfold encode_state. destruct (state_featurizer self); simpl; [|done].
  by repeat constructor.
Qed.

Lemma featurize_states_calls h tas :
  Forall is_encode_call (calls (_featurize_states self h tas)).
Proof.
  unfold _featurize_states.
  apply calls_ebind_inv; [done|apply Forall_app_2| |by intros].
  apply calls_mapM_inv; [done|apply Forall_app_2|].
  intros states. unfold featurize_tracker_states.
  apply calls_ebind_inv; [done|apply Forall_app_2|done|].
  intros padded. apply calls_ebind_inv; [done|apply Forall_app_2| |by intros].
  apply calls_mapM_inv; [done|apply Forall_app_2|].
  intros state. apply encode_state_calls.
Qed.

Lemma featurize_states_no_value_error h tas :
  state_featurizer self = None →
  no_value_error (outcome (_featurize_states self h tas)).
Proof.
  intros Hnone. unfold _featurize_states.
  apply no_value_error_ebind; [|by intros].
  apply no_value_error_mapM. intros states. unfold featurize_tracker_states.
  apply no_value_error_ebind.
  { simpl. destruct (_ <? _)%nat; [apply pad_states_no_value_error|done]. }
  intros padded. apply no_value_error_ebind; [|by intros].
  apply no_value_error_mapM. intros state.
  unfold encode_state. by rewrite Hnone.
Qed.

End FacadePaths.

(** C10.  [create_X] is [prediction_states] followed by
    [_featurize_states] in the store [prediction_states] leaves: the only
    calls it makes on the state featurizer are [encode] calls, so never
    [prepare_from_domain]; without a state featurizer it does not raise
    the configuration error; and no compression of the states comes in
    between.  [featurize_trackers] raises the configuration error without
    a state featurizer, and otherwise calls [prepare_from_domain] first
    and encodes the states in the store the duplicate-intent compressor
    leaves. *)
Theorem create_X_only_encodes {E : Type} `{!SingleStateFeaturizer E}
    (py_hash : list (option (gset (string * Qc))) * list string → Z)
    (self : TrackerFeaturizer E)
    (trackers : list DialogueStateTracker) (domain : Domain) (h : Heap) :
  Forall is_encode_call (calls (create_X self trackers domain h)) ∧
  (state_featurizer self = None →
   no_value_error (outcome (create_X self trackers domain h))) ∧
  (∀ tas h',
     prediction_states self trackers domain h = Ok (tas, h') →
     calls (create_X self trackers domain h) = calls (_featurize_states self h' tas) ∧
     outcome (create_X self trackers domain h)
     = (let* r := outcome (_featurize_states self h' tas) in Ok r.1)) ∧
  (state_featurizer self = None →
   featurize_trackers py_hash self trackers domain h
   = mkEff (Raise missing_state_featurizer_error) []) ∧
  (∀ e, state_featurizer self = Some e →
     ∃ later, calls (featurize_trackers py_hash self trackers domain h)
              = CallPrepareFromDomain domain :: later) ∧
  (∀ e e' tas taa self' h1 h2,
     state_featurizer self = Some e →
     prepare_from_domain e domain = Ok e' →
     training_states_and_actions py_hash (set_state_featurizer self (Some e'))
       trackers domain h = Ok (tas, taa, self', h1) →
     _postprocess_trackers_as_states tas h1 = Ok h2 →
     ∃ later, calls (featurize_trackers py_hash self trackers domain h)
              = CallPrepareFromDomain domain
                :: calls (_featurize_states self' h2 tas) ++ later).
Proof.
  split; [|split; [|split; [|split; [|split]]]].
  - unfold create_X.
    apply calls_ebind_inv; [done|apply Forall_app_2|done|]. intros [tas h'].
    apply calls_ebind_inv; [done|apply Forall_app_2| |by intros [? ?]].
    apply featurize_states_calls.
  - intros Hnone. unfold create_X.
    apply no_value_error_ebind; [apply prediction_states_no_value_error|].
    intros [tas h']. apply no_value_error_ebind; [|by intros [? ?]].
    by apply featurize_states_no_value_error.
  - intros tas h' Hpred. unfold create_X. rewrite Hpred.
    rewrite calls_ebind, outcome_ebind. simpl.
    rewrite calls_ebind, outcome_ebind.
    destruct (outcome (_featurize_states self h' tas)) as [[X lens]|err]; simpl.
    + by rewrite app_nil_r.
    + by rewrite app_nil_r.
  - intros Hnone. unfold featurize_trackers. by rewrite Hnone.
  - intros e He. unfold featurize_trackers. rewrite He.
    rewrite calls_ebind. simpl. by eexists.
  - intros e e' tas taa self' h1 h2 He Hprep Htrain Hpost.
    unfold featurize_trackers. rewrite He.
    rewrite calls_ebind. simpl. rewrite Hprep. rewrite Htrain.
    rewrite calls_ebind. simpl. rewrite Hpost.
    rewrite calls_ebind. simpl. rewrite calls_ebind.
    eexists. done.
Qed.

(** ** The sequences the featurizers build hold distinct references *)

Lemma NoDup_sublist {A} (l k : list A) : l `sublist_of` k → NoDup k → NoDup l.
Proof. intros Hsub Hk. by eapply sublist_NoDup. Qed.

Lemma refs_app (l1 l2 : list (option loc)) : refs (l1 ++ l2) = refs l1 ++ refs l2.
Proof. unfold refs. apply omap_app. Qed.

Lemma refs_replicate_None n : refs (replicate n None) = [].
Proof. induction n as [|n IH]; [done|]. simpl. exact IH. Qed.

Lemma refs_Some (l : list loc) : refs (Some <$> l) = l.
Proof. induction l as [|x l IH]; [done|]. simpl. unfold refs in *. simpl. by f_equal. Qed.

Lemma slice_refs_distinct (states : list loc) (k : nat) (n : Z) :
  NoDup states → NoDup (refs (MaxHistory.slice_state_history (take k states) n)).
Proof.
  intros Hnd. unfold MaxHistory.slice_state_history.
  rewrite refs_app, refs_replicate_None, refs_Some. simpl.
  apply (NoDup_sublist _ states); [|done].
  etrans; [apply sublist_drop|apply sublist_take].
Qed.

Lemma examples_of_events_distinct max_history (states : list loc) events : ∀ idx,
  NoDup states →
  Forall (λ e : Example, NoDup (refs e.1))
         (examples_of_events max_history states events idx).
Proof.
  induction events as [|[name [|]|?] events IH]; intros idx Hnd; simpl;
    [done|by apply IH| |by apply IH].
  constructor; [|by apply IH]. by apply slice_refs_distinct.
Qed.

Lemma batch_examples_distinct max_history domain trackers : ∀ h,
  Forall (λ e : Example, NoDup (refs e.1))
         (batch_examples max_history domain trackers h).
Proof.
  induction trackers as [|t trackers IH]; intros h; simpl; [done|].
  apply Forall_app. split; [|apply IH].
  apply examples_of_events_distinct, NoDup_seq.
Qed.

Lemma full_dialogue_states_distinct events (states : list loc) :
  NoDup states → NoDup (refs (Some <$> full_dialogue_states events states)).
Proof.
  intros Hnd. rewrite refs_Some. unfold full_dialogue_states.
  rewrite removelast_firstn_len.
  apply (NoDup_sublist _ states); [|done].
  etrans; [apply sublist_take|].
  destruct (bool_decide _); [apply sublist_drop|done].
Qed.

Lemma full_trackers_loop_distinct {E : Type} (self : TrackerFeaturizer E)
    domain trackers : ∀ p p',
  Full.trackers_loop self domain p trackers = Ok p' →
  Forall (λ states, NoDup (refs states)) (Full.trackers_as_states p) →
  Forall (λ states, NoDup (refs states)) (Full.trackers_as_states p').
Proof.
  induction trackers as [|t trackers IH]; intros p p' Hrun Hp; simpl in Hrun.
  - by injection Hrun as <-.
  - destruct (decide (2 ≤ count_unpredictable (applied_events t))%nat) as [Ht|Ht].
    + by rewrite process_tracker_raise in Hrun.
    + rewrite process_tracker_ok in Hrun by lia. simpl in Hrun.
      eapply IH; [exact Hrun|]. simpl. apply Forall_app. split; [done|].
      constructor; [|done]. apply full_dialogue_states_distinct, NoDup_seq.
Qed.

(** Every state sequence [training_states_and_actions] returns holds
    pairwise distinct dict references: the compressor meets no dict
    twice in one sequence. *)
Lemma training_sequences_distinct {E : Type} `{!SingleStateFeaturizer E}
    (py_hash : list (option (gset (string * Qc))) * list string → Z)
    (self : TrackerFeaturizer E) trackers domain h tas taa self' h' :
  training_states_and_actions py_hash self trackers domain h
    = Ok (tas, taa, self', h') →
  Forall (λ states, NoDup (refs states)) tas.
Proof.
  unfold training_states_and_actions. destruct (class_of self); [done| |].
  - unfold Full.training_states_and_actions.
    destruct (Full.trackers_loop self domain (Full.Progress [] [] h) trackers)
      as [p|] eqn:Hloop; [|done].
    simpl. intros [= <- _ _ _].
    by eapply (full_trackers_loop_distinct self domain trackers _ p Hloop).
  - intros Hrun.
    destruct (max_history_training_spec py_hash self trackers domain h)
      as (tas0 & taa0 & h0 & Hrun0 & Hlen & _ & Hsub & _).
    rewrite Hrun in Hrun0. injection Hrun0 as Htas Htaa _ _. subst tas0 taa0.
    unfold emitted in *. simpl in *.
    rewrite <- (fst_zip tas taa) by lia.
    apply Forall_fmap. eapply Forall_forall. intros e He.
    eapply (proj1 (Forall_forall _ _)
              (batch_examples_distinct (max_history self) domain trackers h)).
    by eapply elem_of_sublist.
Qed.

(* ===================================================================== *)
(** * Part III: worked instances *)
(* ===================================================================== *)

(** ** Intent collapse *)

Lemma create_states_collapses_intents_witness :
  ∃ weak bin_state,
    _create_states (TrackerFeaturizer_init (Some base_single_state_featurizer) false)
      {| past_states := fun _ =>
           [ [("intent_greet", weight (-2) 1)];
             [ ("slot_name", weight 1 1); ("intent_greet", weight 3 10);
               ("intent_bye", weight 7 10); ("intent_thanks", weight 7 10) ] ];
         applied_events := [] |}
      demo_domain false []
    = Ok ([0; 1]%nat, [weak; bin_state]) ∧
    collapsed [ ("slot_name", weight 1 1); ("intent_greet", weight 3 10);
                ("intent_bye", weight 7 10); ("intent_thanks", weight 7 10) ]
              bin_state.
Proof.
  destruct (create_states_collapses_intents
              (TrackerFeaturizer_init (Some base_single_state_featurizer) false)
              {| past_states := fun _ =>
                   [ [("intent_greet", weight (-2) 1)];
                     [ ("slot_name", weight 1 1); ("intent_greet", weight 3 10);
                       ("intent_bye", weight 7 10); ("intent_thanks", weight 7 10) ] ];
                 applied_events := [] |}
              demo_domain [])
    as (bin_states & Hrun & Hall).
  - reflexivity.
  - intros state Hin. simpl in Hin.
    apply elem_of_cons in Hin as [->|Hin]; [compute_done|].
    apply elem_of_cons in Hin as [->|Hin]; [compute_done | by apply elem_of_nil in Hin].
  - simpl in Hall.
    apply Forall2_cons_inv_l in Hall as (weak & rest & _ & Hall & ->).
    apply Forall2_cons_inv_l in Hall as (bin_state & none & (_ & Hstrong & _) & Hnil & ->).
    apply Forall2_nil_inv_l in Hnil as ->.
    exists weak, bin_state. split; [exact Hrun|].
    apply Hstrong. exists "intent_bye", (weight 7 10).
    split; [compute_done|]. split; reflexivity.
Defined.

(** Below the confidences: a weight at or under the initial running best
    -1.0 never becomes the best, so a state whose only intent feature has
    weight -2.0 comes back without it. *)
Example create_states_below_sentinel :
  _create_states (TrackerFeaturizer_init (Some base_single_state_featurizer) false)
                 {| past_states := fun _ => [[("intent_greet", weight (-2) 1)]];
                    applied_events := [] |}
                 demo_domain false []
    = Ok ([0%nat], [[]]).
Proof. reflexivity. Qed.

(** ** Windows *)

Lemma slice_state_history_exact_length_witness :
  0 ≤ 2 ∧ max_history (demo_max_history 2 true) = 2 ∧
  Z.of_nat (length (MaxHistory.slice_state_history [10; 11; 12]%nat 2)) = 2 ∧
  MaxHistory.slice_state_history [10; 11; 12]%nat 2 = [Some 11%nat; Some 12%nat] ∧
  ∃ tas taa h',
    MaxHistory.training_states_and_actions demo_hash (demo_max_history 2 true)
      stories_3_5_2 demo_domain [] = Ok (tas, taa, demo_max_history 2 true, h') ∧
    Forall (has_length 2) tas.
Proof.
  destruct (slice_state_history_exact_length [10; 11; 12]%nat 2 demo_hash
              (demo_max_history 2 true) stories_3_5_2 demo_domain [])
    as ((Hlen & _ & Hlong) & Htrain & _); [lia|reflexivity|].
  split; [lia|]. split; [reflexivity|]. split; [exact Hlen|].
  split; [apply Hlong; simpl; lia|]. exact Htrain.
Defined.

(** ** Two unpredictable actions *)

Lemma two_unpredictable_actions_witness :
  (∃ tracker, tracker ∈ [demo_tracker; tracker_two_unpredictable] ∧
              (2 ≤ count_unpredictable (applied_events tracker))%nat) ∧
  training_states_and_actions demo_hash demo_full_dialogue
    [demo_tracker; tracker_two_unpredictable] demo_domain []
    = Raise two_unpredictable_error ∧
  outcome (featurize_trackers demo_hash demo_full_dialogue
             [demo_tracker; tracker_two_unpredictable] demo_domain [])
    = Raise two_unpredictable_error.
Proof.
  assert (∃ tracker, tracker ∈ [demo_tracker; tracker_two_unpredictable] ∧
                     (2 ≤ count_unpredictable (applied_events tracker))%nat) as Hbad.
  { exists tracker_two_unpredictable. split; [right; left|]. vm_compute. lia. }
  split; [exact Hbad|].
  destruct (two_unpredictable_actions demo_hash demo_full_dialogue
              [demo_tracker; tracker_two_unpredictable] demo_domain [] Hbad)
    as [Hfull _].
  destruct (Hfull eq_refl) as [Hraise Hsurfaced].
  split; [exact Hraise|].
  apply (Hsurfaced (demo_featurizer false) (demo_featurizer true));
    reflexivity.
Defined.

(** C3 as stated fails for the max-history featurizer: with a tracker
    that has two executed actions flagged unpredictable it raises nothing,
    neither in [training_states_and_actions] nor in [featurize_trackers];
    the two actions are skipped and the third gives the one example. *)
Lemma max_history_accepts_two_unpredictable :
  (2 ≤ count_unpredictable (applied_events tracker_two_unpredictable))%nat ∧
  (∃ h', training_states_and_actions demo_hash (demo_max_history 2 true)
           [tracker_two_unpredictable] demo_domain []
         = Ok ([[Some 1%nat; Some 2%nat]], [["utter_greet"]],
               demo_max_history 2 true, h')) ∧
  is_ok (outcome (featurize_trackers demo_hash (demo_max_history 2 true)
                    [tracker_two_unpredictable] demo_domain [])) = true.
Proof.
  split; [vm_compute; lia|]. split; [|reflexivity].
  eexists. reflexivity.
Qed.

(** ** Deduplication *)

Lemma hash_example_dedup_witness :
  ∃ h',
    MaxHistory.training_states_and_actions demo_hash (demo_max_history 2 true)
      [tracker_ab; tracker_ba] demo_domain []
    = Ok ([[None; Some 0%nat]], [["action_listen"]], demo_max_history 2 true, h') ∧
    batch_examples 2 demo_domain [tracker_ab; tracker_ba] []
    = [([None; Some 0%nat], ["action_listen"]); ([None; Some 2%nat], ["action_listen"])] ∧
    first_occurrences (example_hash demo_hash h')
      (batch_examples 2 demo_domain [tracker_ab; tracker_ba] [])
    = [([None; Some 0%nat], ["action_listen"])].
Proof.
  destruct (hash_example_dedup demo_hash (demo_max_history 2 true)
              [tracker_ab; tracker_ba] demo_domain [] eq_refl)
    as (_ & tas & taa & h' & Hrun & _ & Hfirst & _).
  assert (tas = [[None; Some 0%nat]] ∧ taa = [["action_listen"]]) as [-> ->].
  { pose proof Hrun as Hc. vm_compute in Hc. injection Hc as Htas Htaa _.
    split; symmetry; assumption. }
  exists h'. split; [exact Hrun|]. split; [reflexivity|].
  symmetry. exact Hfirst.
Defined.

(** The same example from two trackers, the items of its dict inserted
    in two orders: two examples without deduplication, one with it. *)
Example dedup_two_trackers :
  (∃ h', MaxHistory.training_states_and_actions demo_hash (demo_max_history 2 false)
           [tracker_ab; tracker_ba] demo_domain []
         = Ok ([[None; Some 0%nat]; [None; Some 2%nat]],
               [["action_listen"]; ["action_listen"]],
               demo_max_history 2 false, h')) ∧
  (∃ h', MaxHistory.training_states_and_actions demo_hash (demo_max_history 2 true)
           [tracker_ab; tracker_ba] demo_domain []
         = Ok ([[None; Some 0%nat]], [["action_listen"]],
               demo_max_history 2 true, h')).
Proof. split; eexists; vm_compute; reflexivity. Qed.

(** ** The full-dialogue featurizer *)

Lemma full_dialogue_states_and_actions_witness :
  Forall (λ tracker, (count_unpredictable (applied_events tracker) ≤ 1)%nat)
         [story true ["action_session_start"; "action_listen"; "utter_greet"];
          story false ["action_listen"; "utter_bye"]] ∧
  ∃ tas taa self' h',
    Full.training_states_and_actions demo_full_dialogue
      [story true ["action_session_start"; "action_listen"; "utter_greet"];
       story false ["action_listen"; "utter_bye"]] demo_domain []
      = Ok (tas, taa, self', h') ∧
    taa = [["action_listen"; "utter_greet"]; ["action_listen"; "utter_bye"]] ∧
    tas = [[Some 1%nat; Some 2%nat]; [Some 4%nat; Some 5%nat]].
Proof.
  assert (Forall (λ tracker, (count_unpredictable (applied_events tracker) ≤ 1)%nat)
            [story true ["action_session_start"; "action_listen"; "utter_greet"];
             story false ["action_listen"; "utter_bye"]]) as Hok.
  { repeat constructor; vm_compute; lia. }
  split; [exact Hok|].
  destruct (full_dialogue_states_and_actions demo_full_dialogue _ demo_domain [] Hok)
    as (tas & taa & self' & h' & Hrun & Htaa & _).
  exists tas, taa, self', h'. split; [exact Hrun|]. split; [exact Htaa|].
  vm_compute in Hrun. by injection Hrun as <- _ _ _.
Defined.

Lemma full_dialogue_padding_witness :
  class_of demo_full_dialogue = FullDialogueTrackerFeaturizer ∧
  stories_3_5_2 ≠ [] ∧
  Forall (states_follow_actions demo_domain) stories_3_5_2 ∧
  ∃ tas taa self' h',
    Full.training_states_and_actions demo_full_dialogue stories_3_5_2 demo_domain []
      = Ok (tas, taa, self', h') ∧
    length <$> taa = [3; 5; 2]%nat ∧
    max_len self' = Some 5 ∧
    ∃ X, outcome (_featurize_states self' h' tas) = Ok (X, [3; 5; 2]) ∧
         Forall (has_length 5) X.
Proof.
  assert (Forall (states_follow_actions demo_domain) stories_3_5_2) as Hwf
    by (repeat constructor).
  split; [reflexivity|]. split; [done|]. split; [exact Hwf|].
  destruct (full_dialogue_padding demo_full_dialogue stories_3_5_2 demo_domain [])
    as (tas & taa & self' & h' & m & Hrun & Hm & _ & _ & _ & Hfollow).
  - reflexivity.
  - done.
  - repeat constructor; vm_compute; lia.
  - destruct (Hfollow Hwf) as [_ Hencoded].
    assert (1 < length stories_3_5_2)%nat as Hbatch by (simpl; lia).
    specialize (Hencoded Hbatch h').
    exists tas, taa, self', h'. split; [exact Hrun|].
    vm_compute in Hrun. injection Hrun as <- <- <- <-.
    split; [reflexivity|]. split; [reflexivity|].
    injection Hm as <-.
    eexists. split; [vm_compute; reflexivity|].
    refine (proj1 (Hencoded _ [3; 5; 2] _)). vm_compute. reflexivity.
Defined.

(** ** Sentinels, one-hot labels and loading *)

Lemma none_encodes_to_sentinel_witness :
  0 ≤ num_actions demo_domain ∧
  index_for_action demo_domain "utter_greet" = Ok 1 ∧
  BOW.encode "__CLS__" demo_tokens demo_sequence_features demo_bow None "dense"
    = Ok (Dense [-1; -1; -1; -1]) ∧
  action_as_one_hot None demo_domain = Ok [-1; -1; -1] ∧
  action_as_one_hot (Some "utter_greet") demo_domain = Ok [0; 1; 0].
Proof.
  destruct (none_encodes_to_sentinel "__CLS__" demo_tokens demo_sequence_features
              demo_bow
              {| vocabulary_ := {[ "intent" := 0%nat; "greet" := 1%nat;
                                   "bye" := 2%nat; "__CLS__" := 3%nat ]} |}
              demo_domain "utter_greet" 1)
    as (Hdense & _ & Hnone & y & Hy & _).
  - reflexivity.
  - simpl. lia.
  - reflexivity.
  - simpl. lia.
  - split; [simpl; lia|]. split; [reflexivity|].
    split; [exact Hdense|]. split; [exact Hnone|].
    rewrite Hy. vm_compute in Hy. by injection Hy as <-.
Defined.

Lemma load_missing_file_returns_none_witness :
  load (E := DemoFeaturizer)
       (fun content => if decide (content = "demo") then Ok demo_full_dialogue
                       else Raise (ValueError "malformed"))
       ∅ "models/core"
  = (Ok None,
     [LogError "Couldn't load featurizer for policy. File 'models/core/featurizer.json' doesn't exist."]) ∧
  load (E := DemoFeaturizer)
       (fun content => if decide (content = "demo") then Ok demo_full_dialogue
                       else Raise (ValueError "malformed"))
       {[ "models/core/featurizer.json" := "demo" ]} "models/core"
  = (Ok (Some demo_full_dialogue), []).
Proof.
  split.
  - apply (load_missing_file_returns_none (E := DemoFeaturizer)). reflexivity.
  - apply (proj2 (load_missing_file_returns_none (E := DemoFeaturizer)
                    _ {[ "models/core/featurizer.json" := "demo" ]} "models/core")
             "demo" demo_full_dialogue); reflexivity.
Defined.

(** ** Duplicate intents *)

Lemma postprocess_compresses_duplicate_intents_witness :
  ∃ h',
    _postprocess_trackers_as_states [demo_sequence; [Some 3%nat]] demo_heap = Ok h' ∧
    batch_compressed demo_heap [demo_sequence; [Some 3%nat]] h' ∧
    h' = [ [("intent_greet", weight 1 1)];
           [("prev_action_listen", weight 1 1)];
           [("prev_utter_greet", weight 1 1)];
           [("intent_bye", weight 1 2)] ].
Proof.
  destruct (postprocess_compresses_duplicate_intents demo_heap
              [demo_sequence; [Some 3%nat]]) as (_ & _ & Hbatch & _).
  destruct Hbatch as (h' & Hrun & Hcomp & _).
  - constructor; [compute_done|]. constructor; [compute_done|]. constructor.
  - exists h'. split; [exact Hrun|]. split; [exact Hcomp|].
    pose proof Hrun as Hc. vm_compute in Hc. injection Hc as Hh'.
    rewrite <- Hh'. reflexivity.
Defined.

(** Two windows sharing a dict: the deletion made through the second
    window shows in every sequence that holds the dict. *)
Example postprocess_shared_dict :
  _postprocess_trackers_as_states
    [[None; Some 0%nat]; [Some 0%nat; Some 1%nat]; [Some 1%nat; Some 2%nat]]
    [ [("intent_greet", weight 1 1)];
      [("intent_greet", weight 1 1)];
      [("intent_greet", weight 1 1)] ]
  = Ok [ [("intent_greet", weight 1 1)]; []; [("intent_greet", weight 1 1)] ].
Proof. reflexivity. Qed.

(** ** The two paths *)

Lemma create_X_only_encodes_witness :
  Forall is_encode_call
    (calls (create_X (demo_max_history 3 true)
              [story false ["action_listen"; "utter_greet"]] demo_domain [])) ∧
  featurize_trackers demo_hash
    (TrackerFeaturizer_init (E := DemoFeaturizer) None false)
    [story false ["action_listen"; "utter_greet"]] demo_domain []
  = mkEff (Raise missing_state_featurizer_error) [].
Proof.
  destruct (create_X_only_encodes demo_hash (demo_max_history 3 true)
              [story false ["action_listen"; "utter_greet"]] demo_domain [])
    as (Hcalls & _).
  split; [exact Hcalls|].
  apply (create_X_only_encodes demo_hash
           (TrackerFeaturizer_init (E := DemoFeaturizer) None false)
           [story false ["action_listen"; "utter_greet"]] demo_domain []).
  reflexivity.
Defined.

(** Three turns with the same intent: the inference path encodes all of
    them with their intent (one intent key each), the training path
    prepares the featurizer first and encodes the second turn of a window
    without it. *)
Example inference_keeps_repeated_intents :
  create_X (demo_max_history 3 true)
    [story false ["action_listen"; "utter_greet"]] demo_domain []
  = mkEff (Ok [[[1; 1]; [1; 2]; [1; 2]]])
      [ CallEncode (Some [("intent_greet", weight 1 1)]);
        CallEncode (Some [("intent_greet", weight 1 1);
                          ("prev_action_listen", weight 1 1)]);
        CallEncode (Some [("intent_greet", weight 1 1);
                          ("prev_utter_greet", weight 1 1)]) ] ∧
  take 5 (calls (featurize_trackers demo_hash (demo_max_history 2 true)
                   [story false ["action_listen"; "utter_greet"]] demo_domain []))
  = [ CallPrepareFromDomain demo_domain;
      CallEncode None;
      CallEncode (Some [("intent_greet", weight 1 1)]);
      CallEncode (Some [("intent_greet", weight 1 1)]);
      CallEncode (Some [("prev_action_listen", weight 1 1)]) ].
Proof. split; reflexivity. Qed.

(* ===================================================================== *)
(** * Part IV: further properties of the code *)
(* ===================================================================== *)

(** ** States as the featurizers build them *)

Lemma dict_of_copies (states : list (list (string * Qc))) :
  (∀ state, state ∈ states → NoDup (keys state)) → dict_of <$> states = states.
Proof.
  induction states as [|state states IH]; intros Hnd; [done|].
  rewrite fmap_cons, dict_of_nodup, IH; [done| |].
  - intros s Hs. apply Hnd. by right.
  - apply Hnd. by left.
Qed.

(** X1.  With [use_intent_probabilities] set, or in binary training,
    [_create_states] returns exact copies: one fresh dict per past state,
    with the items of the state, weights included, in their order, the
    dicts already in the store left as they are. *)
Theorem create_states_keeps_weights {E : Type} (self : TrackerFeaturizer E)
    (tracker : DialogueStateTracker) (domain : Domain)
    (is_binary_training : bool) (h : Heap) :
  use_intent_probabilities self = true ∨ is_binary_training = true →
  (∀ state, state ∈ past_states tracker domain → NoDup (keys state)) →
  _create_states self tracker domain is_binary_training h
  = Ok (seq (length h) (length (past_states tracker domain)),
        h ++ past_states tracker domain).
Proof.
  intros Hmode Hnd. unfold _create_states.
  assert (negb (use_intent_probabilities self) && negb is_binary_training = false)
    as -> by (destruct Hmode as [-> | ->]; [done | by rewrite andb_false_r]).
  unfold alloc_list. by rewrite dict_of_copies, ?length_fmap.
Qed.

Lemma best_of_intent items : ∀ b bp k,
  (best_of b bp items).1 = Some k →
  b = Some k ∨ ∃ p, (k, p) ∈ items ∧ is_intent k = true.
Proof.
  induction items as [|[k' p'] items IH]; intros b bp k; simpl; [by left|].
  destruct (is_intent k' && float_gt p' bp) eqn:Hc; intros Hb.
  - apply andb_true_iff in Hc as [Hi _].
    destruct (IH _ _ _ Hb) as [[= <-] | (p & Hp & Hk)]; right.
    + exists p'. split; [by left | done].
    + exists p. split; [by right | done].
  - destruct (IH _ _ _ Hb) as [-> | (p & Hp & Hk)]; [by left|right].
    exists p. split; [by right | done].
Qed.

(** X2.  Without [use_intent_probabilities] and outside binary training,
    [_create_states] returns for every tracker whose states have distinct
    keys, whatever the weights: every returned dict has the non-intent
    features of its state, unchanged and in order, and either no intent
    feature or exactly one, which is an intent of the state, at weight
    1.0. *)
Theorem create_states_at_most_one_intent {E : Type} (self : TrackerFeaturizer E)
    (tracker : DialogueStateTracker) (domain : Domain) (h : Heap) :
  use_intent_probabilities self = false →
  (∀ state, state ∈ past_states tracker domain → NoDup (keys state)) →
  ∃ bin_states,
    _create_states self tracker domain false h
      = Ok (seq (length h) (length bin_states), h ++ bin_states) ∧
    Forall2 (λ state r,
               other_features r = other_features state ∧
               (intent_features r = [] ∨
                ∃ k p, (k, p) ∈ state ∧ is_intent k = true ∧
                       intent_features r = [(k, weight 1 1)]))
            (past_states tracker domain) bin_states.
Proof.
  intros Hprob Hnd. unfold _create_states. rewrite Hprob. simpl.
  destruct (mapM_Result_Forall2 binarize
              (λ state r,
                 other_features r = other_features state ∧
                 (intent_features r = [] ∨
                  ∃ k p, (k, p) ∈ state ∧ is_intent k = true ∧
                         intent_features r = [(k, weight 1 1)]))
              (past_states tracker domain)) as (rs & Hrs & Hall).
  - intros state Hstate. specialize (Hnd state Hstate).
    rewrite (binarize_spec state Hnd). eexists. split; [reflexivity|].
    destruct (best_of None (weight (-1) 1) state).1 as [k|] eqn:Hbest.
    + destruct (best_of_intent _ _ _ _ Hbest) as [? | (p & Hp & Hk)]; [done|].
      assert (k ∈ keys state) as Hin.
      { unfold keys. apply list_elem_of_fmap. by exists (k, p). }
      destruct (winner_replaces k state Hnd Hin Hk) as [Hi Ho].
      split; [exact Ho|]. right. by exists k, p.
    + split; [apply other_features_idemp|]. left. apply intent_features_other.
  - exists rs. rewrite Hrs. split; [|exact Hall]. reflexivity.
Qed.

(** ** Windows of any length *)

Lemma omap_id_Some {A} (l : list A) : omap id (Some <$> l) = l.
Proof. induction l as [|x l IH]; [done|]. csimpl. by rewrite IH. Qed.

Lemma omap_id_replicate_None {A} n : omap id (replicate n (@None A)) = [].
Proof. induction n as [|n IH]; [done|]. exact IH. Qed.

Lemma slice_state_history_nat_length {A} (states : list A) (slice_length : Z) :
  length (MaxHistory.slice_state_history states slice_length) = Z.to_nat slice_length.
Proof.
  unfold MaxHistory.slice_state_history.
  rewrite length_app, length_replicate, length_fmap, length_drop. lia.
Qed.

(** X3.  For every integer [slice_length], also a negative one,
    [slice_state_history] returns a window of max(0, slice_length)
    entries whose dicts are the most recent states, in their order; for
    a length of zero or less the window is empty. *)
Theorem slice_state_history_any_length {A : Type} (states : list A) (slice_length : Z) :
  length (MaxHistory.slice_state_history states slice_length) = Z.to_nat slice_length ∧
  omap id (MaxHistory.slice_state_history states slice_length)
    = drop (length states - Z.to_nat slice_length) states ∧
  (slice_length ≤ 0 → MaxHistory.slice_state_history states slice_length = []).
Proof.
  split; [apply slice_state_history_nat_length|]. split.
  - unfold MaxHistory.slice_state_history.
    rewrite omap_app, omap_id_replicate_None, omap_id_Some. simpl.
    destruct (decide (0 ≤ slice_length)) as [Hpos|Hneg].
    + f_equal. lia.
    + rewrite !drop_ge; [done | lia | lia].
  - intros Hle. apply nil_length_inv.
    rewrite slice_state_history_nat_length. lia.
Qed.

(** ** Windows of a max-history featurizer as constructed *)

Lemma examples_of_events_window_length max_history (states : list loc) events : ∀ idx,
  Forall (λ e : Example, length e.1 = Z.to_nat max_history)
         (examples_of_events max_history states events idx).
Proof.
  induction events as [|[name unpredictable|description] events IH]; intros idx; simpl.
  - constructor.
  - apply Forall_app. split; [|apply IH].
    destruct unpredictable; [constructor|].
    constructor; [|constructor]. apply slice_state_history_nat_length.
  - apply IH.
Qed.

Lemma batch_examples_window_length max_history domain trackers : ∀ h,
  Forall (λ e : Example, length e.1 = Z.to_nat max_history)
         (batch_examples max_history domain trackers h).
Proof.
  induction trackers as [|tracker trackers IH]; intros h; simpl; [constructor|].
  apply Forall_app. split; [apply examples_of_events_window_length | apply IH].
Qed.

Lemma max_history_training_sublist {E : Type}
    (py_hash : list (option (gset (string * Qc))) * list string → Z)
    (self : TrackerFeaturizer E) trackers domain h :
  ∃ tas taa h',
    MaxHistory.training_states_and_actions py_hash self trackers domain h
      = Ok (tas, taa, self, h') ∧
    length tas = length taa ∧
    zip tas taa `sublist_of` batch_examples (max_history self) domain trackers h ∧
    (remove_duplicates self = false →
     zip tas taa = batch_examples (max_history self) domain trackers h).
Proof.
  destruct (max_history_training_spec py_hash self trackers domain h)
    as (tas & taa & h' & Hrun & Hlen & _ & Hsub & Hall & _).
  exists tas, taa, h'. split; [exact Hrun|]. split; [exact Hlen|].
  split; [exact Hsub | exact Hall].
Qed.

(** X4.  A max-history featurizer cannot be built with a history of 0:
    [max_history] is the default 5 when the argument is [None] or 0, and
    the argument otherwise.  Every window [training_states_and_actions]
    then returns has max(0, max_history) entries, so for an argument that
    is not negative no window is empty. *)
Theorem max_history_init_windows {E : Type}
    (py_hash : list (option (gset (string * Qc))) * list string → Z)
    (state_featurizer : option E) (requested : option Z)
    (remove_duplicates use_intent_probabilities : bool)
    (trackers : list DialogueStateTracker) (domain : Domain) (h : Heap) :
  let self := MaxHistory_init state_featurizer requested remove_duplicates
                              use_intent_probabilities in
  max_history self ≠ 0 ∧
  (requested = None ∨ requested = Some 0 → max_history self = 5) ∧
  (∀ n, requested = Some n → n ≠ 0 → max_history self = n) ∧
  ∃ tas taa h',
    MaxHistory.training_states_and_actions py_hash self trackers domain h
      = Ok (tas, taa, self, h') ∧
    Forall (λ window, length window = Z.to_nat (max_history self)) tas ∧
    ((∀ n, requested = Some n → 0 ≤ n) → Forall (λ window, window ≠ []) tas).
Proof.
  intros self.
  assert (max_history self ≠ 0) as Hnz.
  { subst self. simpl. destruct requested as [n|]; [|done].
    destruct (n =? 0) eqn:Hn; [done | lia]. }
  split; [exact Hnz|]. split; [|split].
  - intros [-> | ->]; reflexivity.
  - intros n -> Hn. subst self. simpl.
    destruct (n =? 0) eqn:Hz; [lia | done].
  - destruct (max_history_training_sublist py_hash self trackers domain h)
      as (tas & taa & h' & Hrun & Hlen & Hsub & _).
    exists tas, taa, h'. split; [exact Hrun|].
    assert (Forall (λ window, length window = Z.to_nat (max_history self)) tas)
      as Hwin.
    { apply Forall_forall. intros window Hw.
      rewrite <- (fst_zip tas taa) in Hw by lia.
      apply list_elem_of_fmap in Hw as (e & -> & He).
      pose proof (elem_of_sublist _ _ _ He Hsub) as Hc.
      pose proof (batch_examples_window_length (max_history self) domain trackers h)
        as Hall.
      rewrite Forall_forall in Hall. by apply Hall. }
    split; [exact Hwin|]. intros Hpos.
    assert (0 < max_history self) as Hgt.
    { subst self. simpl in *. destruct requested as [n|]; [|done].
      specialize (Hpos n eq_refl). destruct (n =? 0) eqn:Hz; [done | lia]. }
    eapply Forall_impl; [exact Hwin|]. intros window Hw ->. cbn [length] in Hw. lia.
Qed.

(** ** One-hot labels *)

Lemma np_full_inv n v y : np_full n v = Ok y → 0 ≤ n ∧ y = replicate (Z.to_nat n) v.
Proof.
  unfold np_full. destruct (n <? 0) eqn:Hn; [done|].
  intros [= <-]. split; [lia | done].
Qed.

Lemma np_setitem_spec (y : list Z) i v :
  let n := Z.of_nat (length y) in
  if bool_decide (- n ≤ i < n)
  then np_setitem y i v = Ok (<[Z.to_nat (i mod n) := v]> y)
  else ∃ msg, np_setitem y i v = Raise (IndexError msg).
Proof.
  intros n. unfold np_setitem. fold n.
  destruct (decide (0 ≤ i < n)) as [Hin|Hout].
  - rewrite bool_decide_eq_true_2 by lia.
    assert ((0 <=? i) && (i <? n) = true) as -> by lia.
    by rewrite Z.mod_small by lia.
  - assert ((0 <=? i) && (i <? n) = false) as -> by lia.
    destruct (decide (- n ≤ i < 0)) as [Hneg|Hfar].
    + rewrite bool_decide_eq_true_2 by lia.
      assert ((- n <=? i) && (i <? 0) = true) as -> by lia.
      do 3 f_equal. apply Z.mod_unique_pos with (-1); lia.
    + rewrite bool_decide_eq_false_2 by lia.
      assert ((- n <=? i) && (i <? 0) = false) as -> by lia.
      by eexists.
Qed.

Lemma action_as_one_hot_inv action domain y :
  action_as_one_hot action domain = Ok y →
  let n := num_actions domain in
  0 ≤ n ∧
  match action with
  | None => y = replicate (Z.to_nat n) (-1)
  | Some name =>
      ∃ i, index_for_action domain name = Ok i ∧ - n ≤ i < n ∧
           y = <[Z.to_nat (i mod n) := 1]> (replicate (Z.to_nat n) 0)
  end.
Proof.
  intros Hy n. unfold action_as_one_hot in Hy. destruct action as [name|].
  - destruct (np_full (num_actions domain) 0) as [y0|] eqn:Hfull; [|done].
    apply np_full_inv in Hfull as [Hn ->]. simpl in Hy.
    destruct (index_for_action domain name) as [i|] eqn:Hidx; [|done].
    simpl in Hy. split; [exact Hn|]. exists i. split; [done|].
    pose proof (np_setitem_spec (replicate (Z.to_nat (num_actions domain)) 0) i 1)
      as Hset.
    rewrite length_replicate, Z2Nat.id in Hset by lia. simpl in Hset.
    destruct (bool_decide (- num_actions domain ≤ i < num_actions domain)) eqn:Hr.
    + apply bool_decide_eq_true in Hr. split; [exact Hr|]. subst n. congruence.
    + destruct Hset as [msg Hmsg]. congruence.
  - destruct (np_full (num_actions domain) 1) as [y0|] eqn:Hfull; [|done].
    apply np_full_inv in Hfull as [Hn ->]. simpl in Hy. injection Hy as <-.
    split; [exact Hn|]. by rewrite np_mul_replicate.
Qed.

Lemma action_as_one_hot_length action domain y :
  action_as_one_hot action domain = Ok y →
  length y = Z.to_nat (num_actions domain).
Proof.
  intros Hy. apply action_as_one_hot_inv in Hy as [_ Hy]. destruct action.
  - destruct Hy as (i & _ & _ & ->). by rewrite length_insert, length_replicate.
  - subst y. by rewrite length_replicate.
Qed.

(** X5.  For an action count that is not negative, [action_as_one_hot]
    of an action passes on the exception of [index_for_action]; for an
    index outside [-num_actions, num_actions) it raises an [IndexError];
    for an index within, a negative one counting from the end, it returns
    the vector of [num_actions] entries with 1 at that position and 0
    elsewhere. *)
Theorem action_as_one_hot_index_errors (domain : Domain) (name : string) :
  0 ≤ num_actions domain →
  let n := num_actions domain in
  match index_for_action domain name with
  | Raise e => action_as_one_hot (Some name) domain = Raise e
  | Ok i =>
      if bool_decide (- n ≤ i < n)
      then ∃ y, action_as_one_hot (Some name) domain = Ok y ∧
                length y = Z.to_nat n ∧
                ∀ j, (j < length y)%nat →
                     y !! j = Some (if decide (j = Z.to_nat (i mod n)) then 1 else 0)
      else ∃ msg, action_as_one_hot (Some name) domain = Raise (IndexError msg)
  end.
Proof.
  intros Hn n. unfold action_as_one_hot. rewrite np_full_ok by done. simpl.
  destruct (index_for_action domain name) as [i|e]; [|done]. simpl.
  pose proof (np_setitem_spec (replicate (Z.to_nat (num_actions domain)) 0) i 1)
    as Hset.
  rewrite length_replicate, Z2Nat.id in Hset by lia. simpl in Hset. fold n in Hset.
  fold n. destruct (bool_decide (- n ≤ i < n)) eqn:Hr; [|exact Hset].
  eexists. split; [exact Hset|].
  rewrite length_insert, length_replicate. split; [done|].
  intros j Hj. destruct (decide (j = Z.to_nat (i mod n))) as [->|Hne].
  - apply list_lookup_insert_eq. by rewrite length_replicate.
  - rewrite list_lookup_insert_ne by done. by apply lookup_replicate_2.
Qed.

(** X6.  A label [action_as_one_hot] returns for an action holds a 1, and
    the padding label it returns for [None] holds none: the two never
    coincide, whatever the domain. *)
Theorem one_hot_is_not_padding (domain : Domain) (name : string) (y y' : list Z) :
  action_as_one_hot (Some name) domain = Ok y →
  action_as_one_hot None domain = Ok y' →
  1 ∈ y ∧ ¬ (1 ∈ y') ∧ y ≠ y'.
Proof.
  intros Hy Hy'.
  apply action_as_one_hot_inv in Hy as [Hn (i & _ & Hi & ->)].
  apply action_as_one_hot_inv in Hy' as [_ ->].
  set (y0 := replicate (Z.to_nat (num_actions domain)) 0).
  assert (1 ∈ (<[Z.to_nat (i mod num_actions domain) := 1]> y0)) as Hin.
  { eapply list_elem_of_lookup_2. apply list_lookup_insert_eq.
    unfold y0. rewrite length_replicate.
    pose proof (Z.mod_pos_bound i (num_actions domain)). lia. }
  assert (1 ∉ replicate (Z.to_nat (num_actions domain)) (-1)) as Hout.
  { intros Hc. apply elem_of_replicate in Hc as [Hc _]. lia. }
  split; [exact Hin|]. split; [exact Hout|]. intros Heq. by rewrite Heq in Hin.
Qed.

(** ** The bag-of-words featurizer *)

(** X7.  The dense and the sparse output of [encode] carry the same
    numbers: one returns the vector [v] exactly when the other returns the
    one-row matrix of [v], and one raises exactly when the other does.
    An output type that is neither of the two names gives the dense
    vector for [None] but the sparse row for a state. *)
Theorem bow_encode_outputs_agree (CLS_TOKEN : string)
    (_get_processed_message_tokens_by_attribute :
       BOWSingleStateFeaturizer → string → list string)
    (_create_sequence : BOWSingleStateFeaturizer → list string → list (list Z))
    (self : BOWSingleStateFeaturizer) (state : option State) :
  let bow_encode :=
    BOW.encode CLS_TOKEN _get_processed_message_tokens_by_attribute _create_sequence in
  (∀ v, bow_encode self state "dense" = Ok (Dense v)
        ↔ bow_encode self state "sparse" = Ok (Sparse [v])) ∧
  (∀ e, bow_encode self state "dense" = Raise e
        ↔ bow_encode self state "sparse" = Raise e) ∧
  (∀ type_output, type_output ≠ "dense" → type_output ≠ "sparse" →
     bow_encode self None type_output = bow_encode self None "dense" ∧
     ∀ d, bow_encode self (Some d) type_output = bow_encode self (Some d) "sparse").
Proof.
  intros bow_encode. subst bow_encode. split; [|split].
  - intros v. unfold BOW.encode. destruct state as [d|].
    + destruct (last _) as [row|]; simpl; [|done].
      split; intros [= ->]; done.
    + destruct (BOW.vocabulary_size self) as [n|]; simpl; [|done].
      destruct (np_full n 1) as [ones|]; simpl; [|done].
      split; intros [= ->]; done.
  - intros e. unfold BOW.encode. destruct state as [d|].
    + destruct (last _) as [row|]; simpl; done.
    + destruct (BOW.vocabulary_size self) as [n|]; simpl; [|done].
      destruct (np_full n 1) as [ones|]; simpl; done.
  - intros type_output Hd Hs. unfold BOW.encode. split.
    + destruct (BOW.vocabulary_size self) as [n|]; simpl; [|done].
      destruct (np_full n 1) as [ones|]; simpl; [|done].
      by rewrite decide_False.
    + intros d. destruct (last _) as [row|]; [|done].
      by rewrite decide_False.
Qed.

Lemma fold_add_state CLS_TOKEN self tracker : ∀ training_data,
  fold_left (BOWData.add_state CLS_TOKEN self) tracker training_data
  = training_data
    ++ (BOWData.message_of_key CLS_TOKEN self <$> concat (state_keys <$> tracker)).
Proof.
  induction tracker as [|state tracker IH]; intros training_data; simpl.
  - by rewrite app_nil_r.
  - rewrite IH, fmap_app, app_assoc. f_equal.
    unfold BOWData.add_state. destruct state as [[|kv d]|]; simpl.
    + by rewrite app_nil_r.
    + done.
    + by rewrite app_nil_r.
Qed.

Lemma fold_trackers_add_state CLS_TOKEN self trackers_as_states : ∀ training_data,
  fold_left (λ training_data tracker,
               fold_left (BOWData.add_state CLS_TOKEN self) tracker training_data)
            trackers_as_states training_data
  = training_data
    ++ (BOWData.message_of_key CLS_TOKEN self
          <$> concat (state_keys <$> concat trackers_as_states)).
Proof.
  induction trackers_as_states as [|tracker trackers IH]; intros training_data; simpl.
  - by rewrite app_nil_r.
  - rewrite IH, fold_add_state, fmap_app, concat_app, fmap_app, app_assoc. done.
Qed.

(** X8.  [prepare_training_data_and_train] fits the vectorizer on one
    message per key of every state that is not [None], in the order of the
    states, whatever the split into trackers; an empty dict adds nothing.
    For one state whose keys are the input states of the domain it fits
    on the messages [prepare_from_domain] fits on. *)
Theorem bow_training_messages (CLS_TOKEN : string)
    (train : BOWSingleStateFeaturizer → list string → BOWSingleStateFeaturizer)
    (self : BOWSingleStateFeaturizer)
    (trackers_as_states : list (list (option State))) :
  BOWData.prepare_training_data_and_train CLS_TOKEN train self trackers_as_states
  = train self (BOWData.message_of_key CLS_TOKEN self
                  <$> concat (state_keys <$> concat trackers_as_states)) ∧
  BOWData.prepare_training_data_and_train CLS_TOKEN train self trackers_as_states
  = BOWData.prepare_training_data_and_train CLS_TOKEN train self
      [filter (λ state, state ≠ None ∧ state ≠ Some []) (concat trackers_as_states)] ∧
  ∀ domain d,
    keys d = input_states domain →
    BOWData.prepare_training_data_and_train CLS_TOKEN train self [[Some d]]
    = BOW.prepare_from_domain CLS_TOKEN train self domain.
Proof.
  assert (∀ tas,
    BOWData.prepare_training_data_and_train CLS_TOKEN train self tas
    = train self (BOWData.message_of_key CLS_TOKEN self
                    <$> concat (state_keys <$> concat tas))) as Hmsg.
  { intros tas. unfold BOWData.prepare_training_data_and_train.
    by rewrite fold_trackers_add_state. }
  split; [apply Hmsg|]. split.
  - rewrite !Hmsg. do 2 f_equal. simpl. rewrite app_nil_r.
    induction (concat trackers_as_states) as [|state states IH]; [done|].
    rewrite fmap_cons, filter_cons. simpl.
    destruct (decide (state ≠ None ∧ state ≠ Some [])) as [Hkeep|Hskip].
    + rewrite fmap_cons. simpl. by rewrite IH.
    + rewrite <- IH. destruct state as [[|kv d]|]; [done| |done].
      exfalso. apply Hskip. done.
  - intros domain d Hkeys. rewrite Hmsg. simpl. rewrite !app_nil_r, Hkeys.
    reflexivity.
Qed.

(** ** Persisting and loading *)

(** X9.  [load] after [persist] under the same path finds the file, logs
    nothing and returns what [jsonpickle.decode] makes of the encoded
    featurizer, so the featurizer itself when decoding inverts encoding;
    [persist] leaves every other file as it was. *)
Theorem persist_then_load {E : Type}
    (jsonpickle_encode : TrackerFeaturizer E → string)
    (jsonpickle_decode : string → Result (TrackerFeaturizer E))
    (self : TrackerFeaturizer E) (fs : FileSystem) (path : string) :
  load jsonpickle_decode (persist jsonpickle_encode self fs path) path
  = (let* featurizer := jsonpickle_decode (jsonpickle_encode self) in
     Ok (Some featurizer), []) ∧
  (jsonpickle_decode (jsonpickle_encode self) = Ok self →
   load jsonpickle_decode (persist jsonpickle_encode self fs path) path
   = (Ok (Some self), [])) ∧
  (∀ file, file ≠ os_path_join path "featurizer.json" →
           persist jsonpickle_encode self fs path !! file = fs !! file).
Proof.
  assert (load jsonpickle_decode (persist jsonpickle_encode self fs path) path
          = (let* featurizer := jsonpickle_decode (jsonpickle_encode self) in
             Ok (Some featurizer), [])) as Hload.
  { unfold load, persist, write_text_file, os_path_isfile, read_file.
    rewrite lookup_insert_eq. rewrite bool_decide_eq_true_2 by eauto. done. }
  split; [exact Hload|]. split.
  - intros Hrt. rewrite Hload, Hrt. done.
  - intros file Hfile. unfold persist, write_text_file.
    by rewrite lookup_insert_ne.
Qed.

(** ** The shape of the encoded states *)

Lemma ebind_raise {A B} (m : Eff A) (f : A → Eff B) e :
  outcome m = Raise e → ebind m f = mkEff (Raise e) (calls m).
Proof. intros Hm. unfold ebind. by rewrite Hm. Qed.

Lemma ebind_lift_return {A B} (a : A) (f : A → Eff B) : ebind (lift (Ok a)) f = f a.
Proof. unfold ebind, lift. simpl. by destruct (f a). Qed.

Lemma ebind_lift_raise {A B} e (f : A → Eff B) :
  ebind (lift (Raise e)) f = mkEff (Raise e) [].
Proof. reflexivity. Qed.

Lemma mapM_Eff_calls {A B} (f : A → Eff B) l : ∀ rs,
  outcome (mapM f l) = Ok rs → calls (mapM f l) = concat ((calls ∘ f) <$> l).
Proof.
  induction l as [|x l IH]; intros rs; [done|].
  rewrite mapM_Eff_cons. intros Hrs.
  apply ebind_Ok in Hrs as (a & Ha & Hrs).
  apply ebind_Ok in Hrs as (k & Hk & _).
  rewrite calls_ebind, Ha, calls_ebind, Hk. simpl.
  rewrite app_nil_r. f_equal. by eapply IH.
Qed.

Lemma pad_in_batch_ok {E A : Type} (self : TrackerFeaturizer E) batch_size
    (states r : list (option A)) :
  (if (1 <? batch_size)%nat then _pad_states self states else Ok states) = Ok r →
  r = padded self batch_size states.
Proof.
  unfold padded, padded_length, _pad_states.
  destruct (1 <? batch_size)%nat eqn:Hb.
  - destruct (class_of self); try (intros [= <-]; by rewrite Nat.sub_diag, app_nil_r).
    destruct (max_len self) as [m|]; [|done].
    destruct (Z.of_nat (length states) <? m) eqn:Hlt; intros [= <-].
    + do 2 f_equal. lia.
    + replace (Nat.max (length states) (Z.to_nat m) - length states)%nat
        with 0%nat by lia.
      by rewrite app_nil_r.
  - intros [= <-]. destruct (class_of self), (max_len self);
      by rewrite Nat.sub_diag, app_nil_r.
Qed.

Lemma pad_in_batch_unset {E A : Type} (self : TrackerFeaturizer E) batch_size
    (states : list (option A)) :
  class_of self = FullDialogueTrackerFeaturizer → max_len self = None →
  (1 < batch_size)%nat →
  (if (1 <? batch_size)%nat then _pad_states self states else Ok states)
  = Raise max_len_unset_error.
Proof.
  intros Hcls Hmax Hb. unfold _pad_states. rewrite Hcls, Hmax.
  by rewrite (proj2 (Nat.ltb_lt _ _) Hb).
Qed.

Lemma length_padded {E A : Type} (self : TrackerFeaturizer E) batch_size
    (states : list (option A)) :
  length (padded self batch_size states)
  = padded_length self batch_size (length states).
Proof.
  unfold padded. rewrite length_app, length_replicate.
  unfold padded_length. destruct (class_of self), (max_len self); try lia.
  destruct (1 <? batch_size)%nat; lia.
Qed.

Section EncodedStates.

Context {E : Type} `{!SingleStateFeaturizer E}.
Variable self : TrackerFeaturizer E.

Lemma encode_state_ok h s row :
  outcome (encode_state self h s) = Ok row →
  (∃ e, state_featurizer self = Some e ∧ encode e (deref h s) = Ok row) ∧
  calls (encode_state self h s) = [CallEncode (deref h s)].
Proof.
  unfold encode_state. destruct (state_featurizer self) as [e|]; [|done].
  simpl. intros Hrow. split; [by exists e | done].
Qed.

Lemma featurize_tracker_states_inv h batch_size states features len :
  outcome (featurize_tracker_states self h batch_size states) = Ok (features, len) →
  len = Z.of_nat (length states) ∧
  Forall2 (λ s row, outcome (encode_state self h s) = Ok row)
          (padded self batch_size states) features ∧
  calls (featurize_tracker_states self h batch_size states)
  = (CallEncode ∘ deref h) <$> padded self batch_size states.
Proof.
  unfold featurize_tracker_states. intros Hrun.
  destruct (if (1 <? batch_size)%nat then _pad_states self states else Ok states)
    as [r|e] eqn:Hpad; [|done].
  apply pad_in_batch_ok in Hpad as ->.
  rewrite ebind_lift_return in Hrun |- *.
  apply ebind_Ok in Hrun as (rows & Hrows & Hret). simpl in Hret.
  injection Hret as <- <-. split; [done|].
  pose proof (mapM_Eff_Ok _ _ _ Hrows) as Hall. split; [exact Hall|].
  rewrite calls_ebind, Hrows. simpl. rewrite app_nil_r.
  rewrite (mapM_Eff_calls _ _ _ Hrows).
  clear Hrows. induction Hall as [|s row ss rows' Hs _ IH]; [done|].
  rewrite !fmap_cons. simpl. rewrite IH.
  by rewrite (proj2 (encode_state_ok _ _ _ Hs)).
Qed.

Lemma featurize_states_inv h tas X true_lengths :
  outcome (_featurize_states self h tas) = Ok (X, true_lengths) →
  true_lengths = (λ states : list (option loc), Z.of_nat (length states)) <$> tas ∧
  Forall2 (λ states story,
             Forall2 (λ s row, outcome (encode_state self h s) = Ok row)
                     (padded self (length tas) states) story)
          tas X ∧
  calls (_featurize_states self h tas)
  = (CallEncode ∘ deref h) <$> concat (padded self (length tas) <$> tas).
Proof.
  unfold _featurize_states. intros Hrun.
  apply ebind_Ok in Hrun as (rows & Hrows & Hret). simpl in Hret.
  injection Hret as <- <-.
  rewrite calls_ebind, Hrows. simpl. rewrite app_nil_r.
  rewrite (mapM_Eff_calls _ _ _ Hrows).
  pose proof (mapM_Eff_Ok _ _ _ Hrows) as Hall. clear Hrows.
  generalize dependent (length tas). intros batch_size Hall.
  induction Hall as [|states [features len] tas' rows' Hrow _ IH].
  - done.
  - apply featurize_tracker_states_inv in Hrow as (-> & Hfeat & Hcalls).
    destruct IH as (IH1 & IH2 & IH3).
    rewrite !fmap_cons. simpl. split; [by rewrite IH1|].
    split; [by constructor|].
    rewrite fmap_app. unfold compose at 1. rewrite Hcalls. f_equal. exact IH3.
Qed.

End EncodedStates.

(** X10.  [_featurize_states] reports as true lengths the lengths of the
    sequences as given, and never cuts a sequence: the full-dialogue
    featurizer, in a batch of more than one sequence, extends a sequence
    shorter than [max_len] to [max_len] and leaves a longer one as long as
    it is; every other featurizer, and a batch of one, gives as many
    encodings as the sequence has entries. *)
Theorem featurize_states_shape {E : Type} `{!SingleStateFeaturizer E}
    (self : TrackerFeaturizer E) (h : Heap) (tas : list (list (option loc)))
    (X : list (list (list Z))) (true_lengths : list Z) :
  outcome (_featurize_states self h tas) = Ok (X, true_lengths) →
  true_lengths = (λ states : list (option loc), Z.of_nat (length states)) <$> tas ∧
  Forall2 (λ states story,
             length story = padded_length self (length tas) (length states) ∧
             (length states ≤ length story)%nat)
          tas X ∧
  (class_of self ≠ FullDialogueTrackerFeaturizer ∨ (length tas ≤ 1)%nat →
   Forall2 (λ states story, length story = length states) tas X) ∧
  (∀ m, class_of self = FullDialogueTrackerFeaturizer → max_len self = Some m →
        (1 < length tas)%nat →
        Forall2 (λ states story,
                   length story = Nat.max (length states) (Z.to_nat m)) tas X).
Proof.
  intros Hrun. apply featurize_states_inv in Hrun as (Hlen & Hrows & _).
  split; [exact Hlen|].
  assert (Forall2 (λ states story,
                     length story = padded_length self (length tas) (length states))
                  tas X) as Hshape.
  { eapply Forall2_impl; [exact Hrows|]. intros states story Hstory.
    apply Forall2_length in Hstory. by rewrite <- Hstory, length_padded. }
  split; [|split].
  - eapply Forall2_impl; [exact Hshape|]. intros states story ->.
    split; [done|]. unfold padded_length.
    destruct (class_of self), (max_len self); try lia.
    destruct (1 <? length tas)%nat; lia.
  - intros Hplain. eapply Forall2_impl; [exact Hshape|]. intros states story ->.
    unfold padded_length. destruct Hplain as [Hcls|Hone].
    + destruct (class_of self), (max_len self); done.
    + rewrite (proj2 (Nat.ltb_ge _ _) Hone).
      destruct (class_of self), (max_len self); done.
  - intros m Hcls Hmax Hbatch. eapply Forall2_impl; [exact Hshape|].
    intros states story ->. unfold padded_length.
    by rewrite Hcls, Hmax, (proj2 (Nat.ltb_lt _ _) Hbatch).
Qed.

(** X11.  When [_featurize_states] returns, it has called [encode] once
    for every entry of every sequence with its padding, in order, on the
    dict the entry refers to in the store or on [None], and the array it
    returns holds the results in that order. *)
Theorem featurize_states_encodes_in_order {E : Type} `{!SingleStateFeaturizer E}
    (self : TrackerFeaturizer E) (h : Heap) (tas : list (list (option loc)))
    (X : list (list (list Z))) (true_lengths : list Z) :
  outcome (_featurize_states self h tas) = Ok (X, true_lengths) →
  Forall2 (Forall2 (λ s row, ∃ e, state_featurizer self = Some e ∧
                                  encode e (deref h s) = Ok row))
          (padded self (length tas) <$> tas) X ∧
  calls (_featurize_states self h tas)
  = (CallEncode ∘ deref h) <$> concat (padded self (length tas) <$> tas).
Proof.
  intros Hrun. apply featurize_states_inv in Hrun as (_ & Hrows & Hcalls).
  split; [|exact Hcalls].
  apply Forall2_fmap_l. eapply Forall2_impl; [exact Hrows|].
  intros states story Hstory. eapply Forall2_impl; [exact Hstory|].
  intros s row Hrow. by apply encode_state_ok in Hrow as [Hrow _].
Qed.

(** ** Prediction *)

Lemma mapM_Result_length {A B} (f : A → Result B) l : ∀ rs,
  mapM f l = Ok rs → length rs = length l.
Proof.
  induction l as [|x l IH]; intros rs.
  - by intros [= <-].
  - rewrite mapM_Result_cons. destruct (f x) as [y|]; [|done]. simpl.
    destruct (mapM f l) as [k|]; [|done]. simpl. intros [= <-].
    simpl. f_equal. by apply IH.
Qed.

Lemma create_states_inv {E : Type} (self : TrackerFeaturizer E) tracker domain b h
    states h' :
  _create_states self tracker domain b h = Ok (states, h') →
  length states = length (past_states tracker domain).
Proof.
  unfold _create_states, alloc_list.
  destruct (negb (use_intent_probabilities self) && negb b).
  - destruct (mapM binarize (past_states tracker domain)) as [bin_states|] eqn:Hbin;
      [|done].
    simpl. intros [= <- _]. rewrite length_seq. by eapply mapM_Result_length.
  - intros [= <- _]. by rewrite length_seq, length_fmap.
Qed.

Lemma create_states_all_inv {E : Type} (self : TrackerFeaturizer E) domain trackers :
  ∀ h all_states h',
  create_states_all self trackers domain h = Ok (all_states, h') →
  Forall2 (λ tracker (states : list loc),
             length states = length (past_states tracker domain))
          trackers all_states.
Proof.
  induction trackers as [|tracker trackers IH]; intros h all_states h'; simpl.
  - intros [= <- _]. constructor.
  - destruct (_create_states self tracker domain false h) as [[states h1]|] eqn:Hs;
      [|done].
    simpl. destruct (create_states_all self trackers domain h1) as [[others h2]|] eqn:Ho;
      [|done].
    simpl. intros [= <- _]. constructor; [by eapply create_states_inv | by eapply IH].
Qed.

Lemma prediction_states_inv {E : Type} `{!SingleStateFeaturizer E}
    (self : TrackerFeaturizer E) trackers domain h tas h' :
  prediction_states self trackers domain h = Ok (tas, h') →
  Forall2 (λ tracker (states : list (option loc)),
             length states
             = if is_max_history (class_of self)
               then Z.to_nat (max_history self)
               else length (past_states tracker domain))
          trackers tas.
Proof.
  unfold prediction_states. destruct (class_of self); [done| |]; simpl.
  - unfold Full.prediction_states.
    destruct (create_states_all self trackers domain h) as [[all_states h1]|] eqn:Hall;
      [|done].
    simpl. intros [= <- _]. apply Forall2_fmap_r.
    eapply Forall2_impl; [by eapply create_states_all_inv|].
    intros tracker states Hlen. simpl. by rewrite length_fmap.
  - unfold MaxHistory.prediction_states.
    destruct (create_states_all self trackers domain h) as [[all_states h1]|] eqn:Hall;
      [|done].
    simpl. intros [= <- _]. apply Forall2_fmap_r.
    eapply Forall2_impl; [by eapply create_states_all_inv|].
    intros tracker states _. simpl. apply slice_state_history_nat_length.
Qed.

Lemma create_X_inv {E : Type} `{!SingleStateFeaturizer E}
    (self : TrackerFeaturizer E) trackers domain h X :
  outcome (create_X self trackers domain h) = Ok X →
  ∃ tas h' true_lengths,
    prediction_states self trackers domain h = Ok (tas, h') ∧
    outcome (_featurize_states self h' tas) = Ok (X, true_lengths).
Proof.
  unfold create_X. intros Hrun.
  apply ebind_Ok in Hrun as ([tas h'] & Hpred & Hrun). simpl in Hpred.
  apply ebind_Ok in Hrun as ([X' true_lengths] & Hfeat & Hret).
  simpl in Hret. injection Hret as ->. by exists tas, h', true_lengths.
Qed.

Lemma featurize_states_unset {E : Type} `{!SingleStateFeaturizer E}
    (self : TrackerFeaturizer E) h (tas : list (list (option loc))) :
  class_of self = FullDialogueTrackerFeaturizer → max_len self = None →
  (1 < length tas)%nat →
  _featurize_states self h tas = mkEff (Raise max_len_unset_error) [].
Proof.
  intros Hcls Hmax Hbatch. unfold _featurize_states.
  destruct tas as [|states tas]; [simpl in Hbatch; lia|].
  rewrite mapM_Eff_cons.
  assert (featurize_tracker_states self h (length (states :: tas)) states
          = mkEff (Raise max_len_unset_error) []) as Hfirst.
  { unfold featurize_tracker_states.
    by rewrite (pad_in_batch_unset self _ states Hcls Hmax Hbatch). }
  rewrite Hfirst. reflexivity.
Qed.

(** X12.  A full-dialogue featurizer whose [max_len] is not set, as it is
    until [training_states_and_actions] has run, cannot featurize more
    than one tracker for prediction: [create_X] raises a [TypeError]
    before any call of [encode].  For a single tracker nothing is padded:
    the array holds one story with one encoding per past state. *)
Theorem create_X_before_training {E : Type} `{!SingleStateFeaturizer E}
    (self : TrackerFeaturizer E)
    (trackers : list DialogueStateTracker) (domain : Domain) (h : Heap)
    (tas : list (list (option loc))) (h' : Heap) :
  class_of self = FullDialogueTrackerFeaturizer →
  max_len self = None →
  prediction_states self trackers domain h = Ok (tas, h') →
  ((1 < length trackers)%nat →
   create_X self trackers domain h = mkEff (Raise max_len_unset_error) []) ∧
  (∀ tracker X,
     trackers = [tracker] →
     outcome (create_X self trackers domain h) = Ok X →
     ∃ story, X = [story] ∧ length story = length (past_states tracker domain)).
Proof.
  intros Hcls Hmax Hpred.
  pose proof (prediction_states_inv _ _ _ _ _ _ Hpred) as Hshape.
  rewrite Hcls in Hshape. simpl in Hshape. split.
  - intros Hbatch. unfold create_X. rewrite Hpred, ebind_lift_return.
    rewrite featurize_states_unset; [done..|].
    by rewrite <- (Forall2_length _ _ _ Hshape).
  - intros tracker X -> HX.
    apply create_X_inv in HX as (tas' & h'' & true_lengths & Hpred' & Hfeat).
    rewrite Hpred in Hpred'. injection Hpred' as <- <-.
    apply featurize_states_inv in Hfeat as (_ & Hrows & _).
    apply Forall2_cons_inv_l in Hshape as (states & tas' & Hlen & Hnil & ->).
    apply Forall2_nil_inv_l in Hnil as ->.
    apply Forall2_cons_inv_l in Hrows as (story & X' & Hstory & HX' & ->).
    apply Forall2_nil_inv_l in HX' as ->.
    exists story. split; [done|].
    apply Forall2_length in Hstory. rewrite <- Hstory, length_padded.
    unfold padded_length. rewrite Hcls, Hmax. exact Hlen.
Qed.

(** X13.  For the max-history featurizer every array [create_X] returns
    has one story per tracker, each of max(0, max_history) encodings. *)
Theorem create_X_max_history_shape {E : Type} `{!SingleStateFeaturizer E}
    (self : TrackerFeaturizer E)
    (trackers : list DialogueStateTracker) (domain : Domain) (h : Heap)
    (X : list (list (list Z))) :
  class_of self = MaxHistoryTrackerFeaturizer →
  outcome (create_X self trackers domain h) = Ok X →
  length X = length trackers ∧
  Forall (λ story, length story = Z.to_nat (max_history self)) X.
Proof.
  intros Hcls HX.
  apply create_X_inv in HX as (tas & h' & true_lengths & Hpred & Hfeat).
  apply prediction_states_inv in Hpred as Hshape.
  rewrite Hcls in Hshape. simpl in Hshape.
  apply featurize_states_inv in Hfeat as (_ & Hrows & _).
  split.
  - by rewrite (Forall2_length _ _ _ Hshape), (Forall2_length _ _ _ Hrows).
  - apply Forall_forall. intros story Hstory.
    apply list_elem_of_lookup in Hstory as [i Hi].
    destruct (Forall2_lookup_r _ _ _ _ _ Hrows Hi) as (states & Hstates & Hrow).
    destruct (Forall2_lookup_r _ _ _ _ _ Hshape Hstates) as (tracker & _ & Hlen).
    apply Forall2_length in Hrow. rewrite <- Hrow, length_padded.
    unfold padded_length. rewrite Hcls. exact Hlen.
Qed.

(** ** The abstract state featurizer *)

(** X15.  With the base [SingleStateFeaturizer], whose [encode] is
    abstract, [_featurize_states] returns only when there is nothing to
    encode: every story of the array is empty and no call was made. *)
Theorem base_state_featurizer_encodes_nothing
    (self : TrackerFeaturizer BaseSingleStateFeaturizer) (h : Heap)
    (tas : list (list (option loc)))
    (X : list (list (list Z))) (true_lengths : list Z) :
  outcome (_featurize_states self h tas) = Ok (X, true_lengths) →
  X = replicate (length tas) [] ∧
  Forall (λ states, states = []) tas ∧
  calls (_featurize_states self h tas) = [].
Proof.
  intros Hrun. apply featurize_states_inv in Hrun as (_ & Hrows & Hcalls).
  assert (Forall2 (λ (states : list (option loc)) (story : list (list Z)),
                     states = [] ∧ story = [] ∧
                     padded self (length tas) states = []) tas X) as Hempty.
  { eapply Forall2_impl; [exact Hrows|]. intros states story Hstory.
    destruct story as [|row rows].
    - apply Forall2_nil_inv_r in Hstory as Hp. split; [|done].
      unfold padded in Hp. by apply app_eq_nil in Hp as [-> _].
    - exfalso. apply Forall2_cons_inv_r in Hstory as (s & ss & Hs & _ & _).
      unfold encode_state in Hs. destruct (state_featurizer self); simpl in Hs; discriminate. }
  clear Hrows. split; [|split].
  - assert (Forall2 (λ (states : list (option loc)) (story : list (list Z)),
                       story = []) tas X) as Hstories.
    { eapply Forall2_impl; [exact Hempty|]. by intros states story (_ & -> & _). }
    clear Hempty Hcalls.
    induction Hstories as [|states story tas' X' -> _ IH]; [done|].
    simpl. by rewrite IH.
  - eapply Forall2_Forall_l; [exact Hempty|]. apply Forall_true.
    intros story states (-> & _). done.
  - rewrite Hcalls.
    replace (concat (padded self (length tas) <$> tas)) with (@nil (option loc));
      [done|].
    generalize dependent (length tas). intros n _ Hempty.
    induction Hempty as [|states story tas' X' (_ & _ & Hp) _ IH]; [done|].
    rewrite fmap_cons. simpl. by rewrite Hp, <- IH.
Qed.

(** ** The label array *)

Lemma mapM_Eff_intro {A B} (f : A → Eff B) l rs :
  Forall2 (λ x r, outcome (f x) = Ok r) l rs → outcome (mapM f l) = Ok rs.
Proof.
  induction 1 as [|x r l rs Hx _ IH]; [done|].
  rewrite mapM_Eff_cons, outcome_ebind, Hx, outcome_ebind, IH. done.
Qed.

Lemma padded_plain {E A : Type} (self : TrackerFeaturizer E) batch_size
    (states : list (option A)) :
  class_of self ≠ FullDialogueTrackerFeaturizer →
  padded self batch_size states = states.
Proof.
  intros Hcls. unfold padded, padded_length.
  destruct (class_of self); [|done|]; destruct (max_len self);
    by rewrite Nat.sub_diag, app_nil_r.
Qed.

Lemma pad_in_batch_plain {E A : Type} (self : TrackerFeaturizer E) batch_size
    (states : list (option A)) :
  class_of self ≠ FullDialogueTrackerFeaturizer →
  (if (1 <? batch_size)%nat then _pad_states self states else Ok states) = Ok states.
Proof.
  intros Hcls. unfold _pad_states.
  destruct (1 <? batch_size)%nat; [|done]. by destruct (class_of self).
Qed.

Lemma pad_in_batch_full {E A : Type} (self : TrackerFeaturizer E) batch_size m
    (states : list (option A)) :
  class_of self = FullDialogueTrackerFeaturizer → max_len self = Some m →
  (1 < batch_size)%nat →
  (if (1 <? batch_size)%nat then _pad_states self states else Ok states)
  = Ok (states ++ replicate (Nat.max (length states) (Z.to_nat m) - length states) None).
Proof.
  intros Hcls Hmax Hb. rewrite (proj2 (Nat.ltb_lt _ _) Hb).
  unfold _pad_states. rewrite Hcls, Hmax.
  destruct (Z.of_nat (length states) <? m) eqn:Hlt.
  - do 3 f_equal. lia.
  - replace (Nat.max (length states) (Z.to_nat m) - length states)%nat
      with 0%nat by lia.
    by rewrite app_nil_r.
Qed.

Section LabelArray.

Context {E : Type} `{!SingleStateFeaturizer E}.
Variable self : TrackerFeaturizer E.
Variable domain : Domain.

Lemma one_hot_label_set e action :
  state_featurizer self = Some e →
  outcome (one_hot_label self domain action) = action_as_one_hot action domain.
Proof. intros He. unfold one_hot_label. by rewrite He. Qed.

Lemma one_hot_label_ok action row :
  outcome (one_hot_label self domain action) = Ok row →
  action_as_one_hot action domain = Ok row.
Proof. unfold one_hot_label. by destruct (state_featurizer self). Qed.

Lemma featurize_labels_inv taa y :
  outcome (_featurize_labels self taa domain) = Ok y →
  ∃ labels,
    Forall2 (λ actions story,
               Forall2 (λ a row, action_as_one_hot a domain = Ok row)
                       (padded self (length taa) (Some <$> actions)) story)
            taa labels ∧
    y = if is_rank3 labels && is_max_history (class_of self)
        then Labels2 ((λ story, default [] (head story)) <$> labels)
        else Labels3 labels.
Proof.
  unfold _featurize_labels. intros Hrun.
  apply ebind_Ok in Hrun as (labels & Hlabels & Hret).
  exists labels. split.
  - apply mapM_Eff_Ok in Hlabels. eapply Forall2_impl; [exact Hlabels|].
    intros actions story Hstory. unfold featurize_tracker_actions in Hstory.
    destruct (if (1 <? length taa)%nat then _pad_states self (Some <$> actions)
              else Ok (Some <$> actions)) as [r|] eqn:Hpad; [|done].
    apply pad_in_batch_ok in Hpad as ->. rewrite ebind_lift_return in Hstory.
    apply mapM_Eff_Ok in Hstory. eapply Forall2_impl; [exact Hstory|].
    intros a row. apply one_hot_label_ok.
  - destruct (is_rank3 labels && is_max_history (class_of self));
      simpl in Hret; by injection Hret as <-.
Qed.

End LabelArray.

Lemma is_rank3_singletons (rows : list (list Z)) n :
  rows ≠ [] → Forall (λ row, length row = n) rows →
  is_rank3 ((λ row, [row]) <$> rows) = true.
Proof.
  intros Hne Hlen. destruct rows as [|row rows]; [done|]. simpl.
  apply Forall_cons in Hlen as [Hrow Hrows].
  rewrite !Nat.eqb_refl. simpl.
  apply andb_true_iff. split.
  - apply forallb_forall. intros s Hs. apply in_map_iff in Hs as (r & <- & _). done.
  - apply forallb_forall. intros s Hs. apply in_map_iff in Hs as (r & <- & Hr).
    simpl. rewrite andb_true_r. apply Nat.eqb_eq.
    apply list_elem_of_In in Hr. rewrite Forall_forall in Hrows.
    by rewrite (Hrows r Hr).
Qed.

(** X16.  For the max-history featurizer the label array has no time
    axis: for a non-empty list of one-action examples whose actions the
    domain knows, [_featurize_labels] returns the two-dimensional array
    whose k-th row is the one-hot vector of the action of the k-th
    example.  For no example at all it returns the empty array as it
    is. *)
Theorem max_history_labels {E : Type} `{!SingleStateFeaturizer E}
    (self : TrackerFeaturizer E) (domain : Domain) (e : E)
    (actions : list string) (rows : list (list Z)) :
  class_of self = MaxHistoryTrackerFeaturizer →
  state_featurizer self = Some e →
  Forall2 (λ a row, action_as_one_hot (Some a) domain = Ok row) actions rows →
  outcome (_featurize_labels self ((λ a, [a]) <$> actions) domain)
  = Ok (if decide (actions = []) then Labels3 [] else Labels2 rows).
Proof.
  intros Hcls He Hrows. unfold _featurize_labels.
  assert (outcome (mapM (featurize_tracker_actions self domain
                           (length ((λ a : string, [a]) <$> actions)))
                        ((λ a : string, [a]) <$> actions))
          = Ok ((λ row, [row]) <$> rows)) as Hlabels.
  { apply mapM_Eff_intro. apply Forall2_fmap. eapply Forall2_impl; [exact Hrows|].
    intros a row Hrow. unfold featurize_tracker_actions.
    rewrite pad_in_batch_plain by (rewrite Hcls; done).
    rewrite ebind_lift_return. apply mapM_Eff_intro.
    constructor; [|constructor]. by rewrite (one_hot_label_set _ _ e). }
  rewrite outcome_ebind, Hlabels, Hcls. simpl. rewrite andb_true_r.
  destruct (decide (actions = [])) as [->|Hne].
  - apply Forall2_nil_inv_l in Hrows as ->. done.
  - assert (rows ≠ []) as Hrne.
    { intros ->. apply Forall2_nil_inv_r in Hrows. done. }
    rewrite (is_rank3_singletons rows (Z.to_nat (num_actions domain))); [|done|].
    + simpl. do 2 f_equal. rewrite <- list_fmap_compose.
      clear. induction rows as [|row rows IH]; [done|].
      rewrite fmap_cons. simpl. by rewrite IH.
    + eapply Forall2_Forall_r; [exact Hrows|]. apply Forall_true.
      intros a row Hrow. by eapply action_as_one_hot_length.
Qed.

(** X17.  The full-dialogue featurizer pads the labels as it pads the
    states: in a batch of more than one story, whose actions the domain
    knows, [_featurize_labels] returns for each story the one-hot vectors
    of its actions followed by as many vectors of [num_actions] times -1
    as the story lacks to [max_len], and cuts no story. *)
Theorem full_dialogue_labels_padded {E : Type} `{!SingleStateFeaturizer E}
    (self : TrackerFeaturizer E) (domain : Domain) (e : E) (m : Z)
    (taa : list (list string)) (labels : list (list (list Z))) :
  class_of self = FullDialogueTrackerFeaturizer →
  max_len self = Some m →
  state_featurizer self = Some e →
  (1 < length taa)%nat →
  0 ≤ num_actions domain →
  Forall2 (Forall2 (λ a row, action_as_one_hot (Some a) domain = Ok row)) taa labels →
  outcome (_featurize_labels self taa domain)
  = Ok (Labels3
          ((λ story,
              story ++ replicate (Nat.max (length story) (Z.to_nat m) - length story)
                                 (replicate (Z.to_nat (num_actions domain)) (-1)))
             <$> labels)).
Proof.
  intros Hcls Hmax He Hbatch Hn Hlabels. unfold _featurize_labels.
  set (pad := λ story : list (list Z),
         story ++ replicate (Nat.max (length story) (Z.to_nat m) - length story)
                            (replicate (Z.to_nat (num_actions domain)) (-1))).
  assert (outcome (mapM (featurize_tracker_actions self domain (length taa)) taa)
          = Ok (pad <$> labels)) as Hrun.
  { apply mapM_Eff_intro. apply Forall2_fmap_r.
    eapply Forall2_impl; [exact Hlabels|]. intros actions story Hstory.
    unfold featurize_tracker_actions.
    rewrite (pad_in_batch_full self _ m _ Hcls Hmax Hbatch), ebind_lift_return.
    apply mapM_Eff_intro. unfold pad.
    rewrite length_fmap, (Forall2_length _ _ _ Hstory).
    apply Forall2_app.
    - apply Forall2_fmap_l. eapply Forall2_impl; [exact Hstory|].
      intros a row Hrow. simpl. by rewrite (one_hot_label_set _ _ e).
    - apply Forall2_replicate. cbv beta. rewrite (one_hot_label_set _ _ e) by done.
      unfold action_as_one_hot. rewrite np_full_ok by done. simpl.
      by rewrite np_mul_replicate. }
  rewrite outcome_ebind, Hrun, Hcls. simpl. by rewrite andb_false_r.
Qed.

(** ** Training data *)

Lemma full_process_tracker_lengths {E : Type} (self : TrackerFeaturizer E)
    domain p tracker p' :
  Full.process_tracker self domain p tracker = Ok p' →
  length (Full.trackers_as_states p') = S (length (Full.trackers_as_states p)) ∧
  length (Full.trackers_as_actions p') = S (length (Full.trackers_as_actions p)).
Proof.
  unfold Full.process_tracker.
  destruct (_create_states self tracker domain true (Full.heap p)) as [[states h]|];
    [|done].
  simpl. destruct (Full.scan_events (applied_events tracker) false [])
    as [[delete_first_state actions]|]; [|done].
  simpl. intros [= <-]. simpl. rewrite !length_app. simpl. lia.
Qed.

Lemma full_trackers_loop_lengths {E : Type} (self : TrackerFeaturizer E)
    domain trackers : ∀ p p',
  Full.trackers_loop self domain p trackers = Ok p' →
  length (Full.trackers_as_states p')
  = (length (Full.trackers_as_states p) + length trackers)%nat ∧
  length (Full.trackers_as_actions p')
  = (length (Full.trackers_as_actions p) + length trackers)%nat.
Proof.
  induction trackers as [|tracker trackers IH]; intros p p'; simpl.
  - intros [= <-]. lia.
  - destruct (Full.process_tracker self domain p tracker) as [p1|] eqn:Hp; [|done].
    simpl. intros Hloop. apply IH in Hloop as [H1 H2].
    apply full_process_tracker_lengths in Hp as [H3 H4]. lia.
Qed.

Lemma training_lengths {E : Type} `{!SingleStateFeaturizer E}
    (py_hash : list (option (gset (string * Qc))) * list string → Z)
    (self : TrackerFeaturizer E) trackers domain h tas taa self' h' :
  training_states_and_actions py_hash self trackers domain h
    = Ok (tas, taa, self', h') →
  length tas = length taa ∧
  (class_of self = FullDialogueTrackerFeaturizer → length tas = length trackers).
Proof.
  unfold training_states_and_actions. destruct (class_of self); [done| |].
  - unfold Full.training_states_and_actions.
    destruct (Full.trackers_loop self domain (Full.Progress [] [] h) trackers)
      as [p|] eqn:Hloop; [|done].
    simpl. intros [= <- <- _ _].
    apply full_trackers_loop_lengths in Hloop as [H1 H2]. simpl in *.
    split; [lia | intros _; lia].
  - destruct (max_history_training_sublist py_hash self trackers domain h)
      as (tas0 & taa0 & h0 & Hrun & Hlen & _).
    rewrite Hrun. intros [= <- <- _ _]. split; [exact Hlen | done].
Qed.

Lemma featurize_trackers_inv {E : Type} `{!SingleStateFeaturizer E}
    (py_hash : list (option (gset (string * Qc))) * list string → Z)
    (self : TrackerFeaturizer E) trackers domain h data self' h' :
  outcome (featurize_trackers py_hash self trackers domain h) = Ok (data, self', h') →
  ∃ e e' tas taa h1,
    state_featurizer self = Some e ∧
    prepare_from_domain e domain = Ok e' ∧
    training_states_and_actions py_hash (set_state_featurizer self (Some e'))
      trackers domain h = Ok (tas, taa, self', h1) ∧
    _postprocess_trackers_as_states tas h1 = Ok h' ∧
    outcome (_featurize_states self' h' tas) = Ok (X data, true_length data) ∧
    outcome (_featurize_labels self' taa domain) = Ok (y data).
Proof.
  unfold featurize_trackers. destruct (state_featurizer self) as [e|]; [|done].
  intros Hrun.
  apply ebind_Ok in Hrun as (e' & Hprep & Hrun). simpl in Hprep.
  apply ebind_Ok in Hrun as ([[[tas taa] self1] h1] & Htrain & Hrun).
  simpl in Htrain.
  apply ebind_Ok in Hrun as (h2 & Hpost & Hrun). simpl in Hpost.
  apply ebind_Ok in Hrun as ([X0 true_lengths] & Hstates & Hrun).
  apply ebind_Ok in Hrun as (y0 & Hlabels & Hret).
  simpl in Hret. injection Hret as <- <- <-.
  by exists e, e', tas, taa, h1.
Qed.

(** X18.  The training data [featurize_trackers] returns is aligned: the
    array of encoded states, the label array and the list of true lengths
    have one entry per example, as many as [training_states_and_actions]
    returned state sequences; for the full-dialogue featurizer that is one
    per tracker. *)
Theorem featurize_trackers_aligned {E : Type} `{!SingleStateFeaturizer E}
    (py_hash : list (option (gset (string * Qc))) * list string → Z)
    (self : TrackerFeaturizer E)
    (trackers : list DialogueStateTracker) (domain : Domain) (h : Heap)
    (data : DialogueTrainingData) (self' : TrackerFeaturizer E) (h' : Heap) :
  outcome (featurize_trackers py_hash self trackers domain h) = Ok (data, self', h') →
  length (true_length data) = length (X data) ∧
  labels_count (y data) = length (X data) ∧
  (class_of self = FullDialogueTrackerFeaturizer →
   length (X data) = length trackers).
Proof.
  intros Hrun.
  apply featurize_trackers_inv in Hrun
    as (e & e' & tas & taa & h1 & He & Hprep & Htrain & Hpost & Hstates & Hlabels).
  apply training_lengths in Htrain as [Hlen Hfull].
  apply featurize_states_inv in Hstates as (Htl & Hrows & _).
  apply featurize_labels_inv in Hlabels as (labels & Hstories & Hy).
  apply Forall2_length in Hrows. apply Forall2_length in Hstories.
  split; [|split].
  - rewrite Htl, length_fmap. exact Hrows.
  - rewrite Hy. destruct (is_rank3 labels && is_max_history (class_of self'));
      simpl; rewrite ?length_fmap; lia.
  - intros Hcls. rewrite <- Hrows. apply Hfull. exact Hcls.
Qed.

(** X19.  For an empty batch [featurize_trackers] of a full-dialogue or
    max-history featurizer calls [prepare_from_domain] and nothing else,
    and returns empty arrays and no true length; the store is left as it
    was, and the full-dialogue featurizer is left with [max_len] unset. *)
Theorem featurize_trackers_empty_batch {E : Type} `{!SingleStateFeaturizer E}
    (py_hash : list (option (gset (string * Qc))) * list string → Z)
    (self : TrackerFeaturizer E) (domain : Domain) (h : Heap) (e e' : E) :
  class_of self ≠ TrackerFeaturizerBase →
  state_featurizer self = Some e →
  prepare_from_domain e domain = Ok e' →
  ∃ self',
    featurize_trackers py_hash self [] domain h
    = mkEff (Ok ({| X := []; y := Labels3 []; true_length := [] |}, self', h))
            [CallPrepareFromDomain domain] ∧
    state_featurizer self' = Some e' ∧
    (class_of self = FullDialogueTrackerFeaturizer → max_len self' = None) ∧
    (class_of self = MaxHistoryTrackerFeaturizer →
     self' = set_state_featurizer self (Some e')).
Proof.
  intros Hcls He Hprep. unfold featurize_trackers. rewrite He.
  unfold ebind at 1. simpl. rewrite Hprep.
  unfold training_states_and_actions. simpl.
  destruct (class_of self) eqn:Hc; [done| |].
  - eexists. split; [reflexivity|]. split; [done|]. split; [done|]. done.
  - eexists. split; [reflexivity|]. split; [done|]. split; [done|]. done.
Qed.

(** X20.  Without [remove_duplicates] the max-history featurizer drops no
    example: [training_states_and_actions] returns one example for every
    executed action not flagged unpredictable, repeated ones included, in
    the order of the trackers and of their events, each with the one-name
    list of its action. *)
Theorem max_history_keeps_every_example {E : Type}
    (py_hash : list (option (gset (string * Qc))) * list string → Z)
    (self : TrackerFeaturizer E)
    (trackers : list DialogueStateTracker) (domain : Domain) (h : Heap) :
  remove_duplicates self = false →
  ∃ tas taa h',
    MaxHistory.training_states_and_actions py_hash self trackers domain h
      = Ok (tas, taa, self, h') ∧
    zip tas taa = batch_examples (max_history self) domain trackers h ∧
    taa = (λ name : string, [name]) <$> concat (full_dialogue_actions trackers) ∧
    length tas = length taa.
Proof.
  intros Hrd.
  destruct (max_history_training_sublist py_hash self trackers domain h)
    as (tas & taa & h' & Hrun & Hlen & _ & Hall).
  exists tas, taa, h'. split; [exact Hrun|]. specialize (Hall Hrd).
  split; [exact Hall|]. split; [|exact Hlen].
  rewrite <- (snd_zip tas taa) by lia. rewrite Hall.
  apply batch_examples_labels.
Qed.

(** ** The duplicate-intent compressor on a batch *)

Lemma dict_remove_sublist k d : dict_remove k d `sublist_of` d.
Proof.
  induction d as [|[k' v] d IH]; simpl; [done|].
  destruct (decide (k' = k)); [by apply sublist_cons | by apply sublist_skip].
Qed.

Lemma dict_remove_other_features k d :
  is_intent k = true → other_features (dict_remove k d) = other_features d.
Proof.
  intros Hk. unfold other_features.
  induction d as [|[k' v] d IH]; simpl; [done|].
  destruct (decide (k' = k)) as [->|Hne].
  - rewrite filter_cons_False; [done|]. simpl. by rewrite Hk.
  - rewrite !filter_cons. simpl. by rewrite IH.
Qed.

Lemma intent_keys_intent d k : k ∈ intent_keys d → is_intent k = true.
Proof.
  unfold intent_keys. intros Hk. apply list_elem_of_filter in Hk as [Hk _].
  by destruct (is_intent k).
Qed.

Lemma first_intent_Some turn current :
  first_intent turn = Some current →
  ∃ d, turn = Some d ∧ head (intent_keys d) = Some current ∧
       is_intent current = true.
Proof.
  unfold first_intent. destruct (truthy turn); [|done].
  destruct turn as [d|]; [|done]. simpl. intros Hhead.
  exists d. split; [done|]. split; [done|].
  apply (intent_keys_intent d). destruct (intent_keys d); [done|].
  injection Hhead as ->. by left.
Qed.

(** What the compressor may do to a store: every dict keeps its place,
    loses at most intent features, and keeps the others as they are. *)
Lemma postprocess_turn_trims h previous_intent entry h' previous_intent' :
  postprocess_turn (h, previous_intent) entry = Ok (h', previous_intent') →
  (∀ l, entry ≠ Some l → h' !! l = h !! l) ∧
  ∀ l d, h !! l = Some d →
         ∃ d', h' !! l = Some d' ∧ d' `sublist_of` d ∧
               other_features d' = other_features d.
Proof.
  rewrite postprocess_turn_spec. intros [= Hst].
  destruct entry as [l0|]; simpl in Hst;
    [|injection Hst as <- _; split; [done|by eauto]].
  destruct (first_intent (h !! l0)) as [current|] eqn:Hfirst;
    [|injection Hst as <- _; split; [done|by eauto]].
  destruct (decide (previous_intent = Some current));
    [|injection Hst as <- _; split; [done|by eauto]].
  injection Hst as <- _.
  apply first_intent_Some in Hfirst as (d0 & Hd0 & _ & Hcur).
  rewrite Hd0. simpl. split.
  - intros l Hl. apply list_lookup_insert_ne. congruence.
  - intros l d Hd. destruct (decide (l = l0)) as [->|Hne].
    + simpl in Hd0. rewrite Hd in Hd0. injection Hd0 as <-.
      exists (dict_remove current d). split.
      * apply list_lookup_insert_eq. by eapply lookup_lt_Some.
      * split; [apply dict_remove_sublist | by apply dict_remove_other_features].
    + exists d. by rewrite list_lookup_insert_ne.
Qed.

Lemma postprocess_turns_trims states : ∀ h previous_intent h' previous_intent',
  postprocess_turns (h, previous_intent) states = Ok (h', previous_intent') →
  (∀ l, Some l ∉ states → h' !! l = h !! l) ∧
  ∀ l d, h !! l = Some d →
         ∃ d', h' !! l = Some d' ∧ d' `sublist_of` d ∧
               other_features d' = other_features d.
Proof.
  induction states as [|entry states IH]; intros h p h' p'.
  - intros [= <- _]. split; [done | by eauto].
  - rewrite postprocess_turns_cons.
    destruct (postprocess_turn (h, p) entry) as [[h1 p1]|] eqn:Hturn; [|done].
    simpl. intros Hrest.
    apply postprocess_turn_trims in Hturn as [Hframe1 Htrim1].
    apply IH in Hrest as [Hframe2 Htrim2]. split.
    + intros l Hl. rewrite Hframe2, Hframe1; [done| |].
      * intros ->. apply Hl. by left.
      * intros Hin. apply Hl. by right.
    + intros l d Hd. destruct (Htrim1 l d Hd) as (d1 & Hd1 & Hsub1 & Ho1).
      destruct (Htrim2 l d1 Hd1) as (d2 & Hd2 & Hsub2 & Ho2).
      exists d2. split; [done|]. split; [by etrans | congruence].
Qed.

Lemma postprocess_trims trackers_as_states : ∀ h h',
  _postprocess_trackers_as_states trackers_as_states h = Ok h' →
  (∀ l, Some l ∉ concat trackers_as_states → h' !! l = h !! l) ∧
  ∀ l d, h !! l = Some d →
         ∃ d', h' !! l = Some d' ∧ d' `sublist_of` d ∧
               other_features d' = other_features d.
Proof.
  induction trackers_as_states as [|states rest IH]; intros h h'; simpl.
  - intros [= <-]. split; [done | by eauto].
  - destruct (postprocess_turns (h, None) states) as [[h1 p1]|] eqn:Hturns; [|done].
    simpl. intros Hrest.
    apply postprocess_turns_trims in Hturns as [Hframe1 Htrim1].
    apply IH in Hrest as [Hframe2 Htrim2]. split.
    + intros l Hl. rewrite Hframe2, Hframe1; [done| |].
      * intros Hin. apply Hl. apply elem_of_app. by left.
      * intros Hin. apply Hl. apply elem_of_app. by right.
    + intros l d Hd. destruct (Htrim1 l d Hd) as (d1 & Hd1 & Hsub1 & Ho1).
      destruct (Htrim2 l d1 Hd1) as (d2 & Hd2 & Hsub2 & Ho2).
      exists d2. split; [done|]. split; [by etrans | congruence].
Qed.

(** X21.  [_postprocess_trackers_as_states] never raises and only ever
    deletes intent features: whatever the batch, and whichever dicts its
    sequences share, every dict of the store keeps its place, its
    features that are not intents, weights and order included, and a
    sub-sequence of its items; a dict no sequence refers to is left as it
    is. *)
Theorem postprocess_only_deletes_intents
    (trackers_as_states : list (list (option loc))) (h : Heap) :
  ∃ h',
    _postprocess_trackers_as_states trackers_as_states h = Ok h' ∧
    length h' = length h ∧
    (∀ l, Some l ∉ concat trackers_as_states → h' !! l = h !! l) ∧
    ∀ l d, h !! l = Some d →
           ∃ d', h' !! l = Some d' ∧ d' `sublist_of` d ∧
                 other_features d' = other_features d.
Proof.
  destruct (postprocess_total trackers_as_states h) as (h' & Hrun & Hlen).
  exists h'. split; [exact Hrun|]. split; [exact Hlen|].
  by apply postprocess_trims.
Qed.

Lemma intent_keys_cons k v d :
  intent_keys ((k, v) :: d)
  = if is_intent k then k :: intent_keys d else intent_keys d.
Proof.
  unfold intent_keys, keys. rewrite fmap_cons, filter_cons. simpl.
  by destruct (is_intent k).
Qed.

Lemma intent_keys_remove_single current d :
  intent_keys d = [current] → intent_keys (dict_remove current d) = [].
Proof.
  induction d as [|[k v] d IH]; [done|].
  rewrite intent_keys_cons. simpl. destruct (decide (k = current)) as [->|Hne].
  - destruct (is_intent current) eqn:Hi.
    + by intros [= ->].
    + intros Hd. assert (current ∈ intent_keys d) as Hin by (rewrite Hd; by left).
      apply intent_keys_intent in Hin. congruence.
  - rewrite intent_keys_cons. destruct (is_intent k).
    + intros [= -> _]. done.
    + exact IH.
Qed.

Lemma first_intent_strip current turn :
  single_intent turn → first_intent turn = Some current →
  first_intent (strip_intent current turn) = None.
Proof.
  intros Hsingle Hfirst. rewrite (strip_intent_first _ _ Hfirst).
  apply first_intent_Some in Hfirst as (d & -> & Hhead & _).
  simpl in *. unfold first_intent.
  destruct (truthy (Some (dict_remove current d))); [|done]. simpl.
  rewrite intent_keys_remove_single; [done|].
  destruct (intent_keys d) as [|k [|k' ks]]; simpl in *; [done| |lia].
  by injection Hhead as ->.
Qed.

Lemma compress_intents_idem turns : ∀ kept,
  Forall single_intent turns →
  compress_intents kept (compress_intents kept turns) = compress_intents kept turns.
Proof.
  induction turns as [|turn turns IH]; intros kept Hsingle; [done|].
  apply Forall_cons in Hsingle as [Hturn Hturns].
  rewrite compress_intents_cons.
  destruct (first_intent turn) as [current|] eqn:Hfirst.
  - destruct (decide (kept = Some current)) as [->|Hne].
    + rewrite compress_intents_cons, (first_intent_strip _ _ Hturn Hfirst).
      by rewrite IH.
    + rewrite compress_intents_cons, Hfirst, decide_False by done.
      by rewrite IH.
  - rewrite compress_intents_cons, Hfirst. by rewrite IH.
Qed.

Lemma elem_of_concat_2 {A} (x : A) l (ls : list (list A)) :
  x ∈ l → l ∈ ls → x ∈ concat ls.
Proof.
  intros Hx. induction ls as [|l' ls IH]; intros Hl; [by apply elem_of_nil in Hl|].
  simpl. apply elem_of_app. apply elem_of_cons in Hl as [->|Hl]; [by left|].
  right. by apply IH.
Qed.

Lemma elem_of_concat_refs l (trackers_as_states : list (list (option loc))) :
  Some l ∈ concat trackers_as_states → l ∈ concat (refs <$> trackers_as_states).
Proof.
  induction trackers_as_states as [|states rest IH]; simpl;
    [by intros ?%elem_of_nil|].
  rewrite !elem_of_app. intros [Hin|Hin]; [left | right; by apply IH].
  by apply elem_of_refs.
Qed.

Lemma postprocess_turns_fixpoint states h0 h :
  NoDup (refs states) →
  Forall single_intent (deref h0 <$> states) →
  deref h <$> states = compress_intents None (deref h0 <$> states) →
  ∃ previous_intent, postprocess_turns (h, None) states = Ok (h, previous_intent).
Proof.
  intros Hnd Hsingle Hfirst.
  destruct (postprocess_turns_refines states h None Hnd)
    as (h2 & p2 & Hrun & Hderef & Hframe).
  exists p2. rewrite Hrun. do 2 f_equal.
  rewrite Hfirst, compress_intents_idem, <- Hfirst in Hderef by done.
  apply list_eq. intros l.
  destruct (decide (Some l ∈ states)) as [Hin|Hout].
  - apply (list_fmap_inj_1 _ _ _ _ Hderef Hin).
  - apply (Hframe (Some l) Hout).
Qed.

Lemma postprocess_idem trackers_as_states : ∀ h h',
  NoDup (concat (refs <$> trackers_as_states)) →
  Forall (Forall (λ s, single_intent (deref h s))) trackers_as_states →
  _postprocess_trackers_as_states trackers_as_states h = Ok h' →
  _postprocess_trackers_as_states trackers_as_states h' = Ok h'.
Proof.
  induction trackers_as_states as [|states rest IH]; intros h h' Hnd Hsingle; [done|].
  rewrite fmap_cons in Hnd. simpl in Hnd.
  apply NoDup_app in Hnd as (Hnd1 & Hdisj & Hnd2).
  apply Forall_cons in Hsingle as [Hs1 Hs2]. simpl.
  destruct (postprocess_turns_refines states h None Hnd1)
    as (h1 & p1 & Hrun1 & Hderef1 & Hframe1).
  rewrite Hrun1. simpl. intros Hrest.
  assert (∀ s, s ∈ concat rest → deref h1 s = deref h s) as Hsame1.
  { intros [l|] Hs; [|done]. apply Hframe1. intros Hin.
    apply (Hdisj l); [by apply elem_of_refs | by apply elem_of_concat_refs]. }
  assert (Forall (Forall (λ s, single_intent (deref h1 s))) rest) as Hs2'.
  { rewrite Forall_forall in Hs2 |- *. intros states' Hstates'.
    specialize (Hs2 states' Hstates'). rewrite Forall_forall in Hs2 |- *.
    intros s Hs. rewrite Hsame1; [by apply Hs2|].
    by apply (elem_of_concat_2 _ states'). }
  pose proof (IH h1 h' Hnd2 Hs2' Hrest) as Hrest2.
  destruct (postprocess_trims rest h1 h' Hrest) as [Hframe2 _].
  assert (deref h' <$> states = deref h1 <$> states) as Hsame2.
  { apply list_fmap_ext. intros i s Hs. destruct s as [l|]; [|done].
    apply Hframe2. intros Hin. apply elem_of_concat_refs in Hin.
    apply (Hdisj l); [|done]. apply elem_of_refs.
    by eapply list_elem_of_lookup_2. }
  destruct (postprocess_turns_fixpoint states h h' Hnd1) as [p2 Hrun2].
  - by apply Forall_fmap.
  - by rewrite Hsame2.
  - rewrite Hrun2. exact Hrest2.
Qed.

(** X22.  On a batch whose sequences share no dict and whose dicts carry
    at most one intent each, [_postprocess_trackers_as_states] is
    idempotent: a second run on the store the first run leaves changes
    nothing. *)
Theorem postprocess_is_idempotent
    (trackers_as_states : list (list (option loc))) (h : Heap) :
  NoDup (concat (refs <$> trackers_as_states)) →
  Forall (Forall (λ s, single_intent (deref h s))) trackers_as_states →
  ∃ h',
    _postprocess_trackers_as_states trackers_as_states h = Ok h' ∧
    _postprocess_trackers_as_states trackers_as_states h' = Ok h'.
Proof.
  intros Hnd Hsingle.
  destruct (postprocess_total trackers_as_states h) as (h' & Hrun & _).
  exists h'. split; [exact Hrun|]. by eapply postprocess_idem.
Qed.

(** ** The store *)

Lemma create_states_alloc {E : Type} (self : TrackerFeaturizer E) tracker domain b h
    states h' :
  _create_states self tracker domain b h = Ok (states, h') →
  ∃ dicts, states = seq (length h) (length dicts) ∧ h' = h ++ dicts.
Proof.
  unfold _create_states, alloc_list.
  destruct (negb (use_intent_probabilities self) && negb b).
  - destruct (mapM binarize (past_states tracker domain)) as [bin_states|]; [|done].
    simpl. intros [= <- <-]. by eexists.
  - intros [= <- <-]. by eexists.
Qed.

Lemma create_states_all_alloc {E : Type} (self : TrackerFeaturizer E) domain trackers :
  ∀ h all_states h',
  create_states_all self trackers domain h = Ok (all_states, h') →
  (∃ ext, h' = h ++ ext) ∧
  Forall (Forall (λ l, (length h ≤ l < length h')%nat)) all_states.
Proof.
  induction trackers as [|tracker trackers IH]; intros h all_states h'; simpl.
  - intros [= <- <-]. split; [exists []; by rewrite app_nil_r | constructor].
  - destruct (_create_states self tracker domain false h) as [[states h1]|] eqn:Hs;
      [|done].
    simpl. destruct (create_states_all self trackers domain h1) as [[others h2]|] eqn:Ho;
      [|done].
    simpl. intros [= <- <-].
    apply create_states_alloc in Hs as (dicts & -> & ->).
    apply IH in Ho as [[ext ->] Hothers]. split.
    + exists (dicts ++ ext). by rewrite app_assoc.
    + constructor.
      * apply Forall_forall. intros l Hl. apply elem_of_seq in Hl.
        rewrite !length_app. lia.
      * eapply Forall_impl; [exact Hothers|]. intros states Hstates.
        eapply Forall_impl; [exact Hstates|]. intros l. rewrite !length_app. lia.
Qed.

(** X23.  The windows [prediction_states] of the max-history featurizer
    returns are cut by [slice_state_history] from the whole histories
    [prediction_states] of the full-dialogue featurizer returns, dict
    for dict in the same store; one raises whenever the other does. *)
Theorem prediction_windows_of_history {E : Type} (self : TrackerFeaturizer E)
    (trackers : list DialogueStateTracker) (domain : Domain) (h : Heap) :
  MaxHistory.prediction_states self trackers domain h
  = (let* (histories, h') := Full.prediction_states self trackers domain h in
     Ok ((λ history, MaxHistory.slice_state_history (refs history) (max_history self))
           <$> histories, h')).
Proof.
  unfold MaxHistory.prediction_states, Full.prediction_states.
  destruct (create_states_all self trackers domain h) as [[all_states h']|]; [|done].
  simpl. do 2 f_equal. rewrite <- list_fmap_compose.
  apply list_fmap_ext. intros i states _. simpl. by rewrite refs_Some.
Qed.

(** X24.  [prediction_states] works on copies: when it returns, the store
    it leaves extends the store it was given, every dict that existed
    before the call being as it was, and every entry of the sequences it
    returns is [None] or refers to a dict created by the call. *)
Theorem prediction_states_allocates_fresh {E : Type} `{!SingleStateFeaturizer E}
    (self : TrackerFeaturizer E)
    (trackers : list DialogueStateTracker) (domain : Domain) (h : Heap)
    (tas : list (list (option loc))) (h' : Heap) :
  prediction_states self trackers domain h = Ok (tas, h') →
  (∃ created, h' = h ++ created) ∧
  Forall (Forall (λ s, ∀ l, s = Some l → (length h ≤ l < length h')%nat)) tas.
Proof.
  unfold prediction_states. destruct (class_of self); [done| |].
  - unfold Full.prediction_states.
    destruct (create_states_all self trackers domain h) as [[all_states h1]|] eqn:Hall;
      [|done].
    simpl. intros [= <- <-]. apply create_states_all_alloc in Hall as [Hext Hfresh].
    split; [exact Hext|]. apply Forall_fmap.
    eapply Forall_impl; [exact Hfresh|]. intros states Hstates. simpl.
    apply Forall_fmap. eapply Forall_impl; [exact Hstates|].
    intros l Hl l' [= <-]. exact Hl.
  - unfold MaxHistory.prediction_states.
    destruct (create_states_all self trackers domain h) as [[all_states h1]|] eqn:Hall;
      [|done].
    simpl. intros [= <- <-]. apply create_states_all_alloc in Hall as [Hext Hfresh].
    split; [exact Hext|]. apply Forall_fmap.
    eapply Forall_impl; [exact Hfresh|]. intros states Hstates. simpl.
    unfold MaxHistory.slice_state_history. apply Forall_app. split.
    + apply Forall_replicate. done.
    + apply Forall_fmap. apply Forall_forall. intros l Hl l' [= <-].
      rewrite Forall_forall in Hstates. apply Hstates.
      eapply elem_of_sublist; [exact Hl | apply sublist_drop].
Qed.

Lemma removelast_sublist {A} (l : list A) : removelast l `sublist_of` l.
Proof. rewrite removelast_firstn_len. apply sublist_take. Qed.

Lemma full_process_tracker_fresh {E : Type} (self : TrackerFeaturizer E)
    domain p tracker p' :
  Full.process_tracker self domain p tracker = Ok p' →
  ∃ ext new,
    Full.heap p' = Full.heap p ++ ext ∧
    Full.trackers_as_states p' = Full.trackers_as_states p ++ [new] ∧
    Forall (λ s, ∀ l, s = Some l → (length (Full.heap p) ≤ l)%nat) new.
Proof.
  unfold Full.process_tracker.
  destruct (_create_states self tracker domain true (Full.heap p)) as [[states h]|]
    eqn:Hs; [|done].
  simpl. destruct (Full.scan_events (applied_events tracker) false [])
    as [[delete_first_state actions]|]; [|done].
  simpl. intros [= <-]. simpl.
  apply create_states_alloc in Hs as (dicts & -> & ->).
  eexists _, _. split; [done|]. split; [done|].
  apply Forall_fmap. apply Forall_forall. intros l Hl l' [= <-].
  assert (l ∈ seq (length (Full.heap p)) (length dicts)) as Hin.
  { eapply elem_of_sublist; [exact Hl|]. etrans; [apply removelast_sublist|].
    destruct delete_first_state; [apply sublist_drop | done]. }
  apply elem_of_seq in Hin. lia.
Qed.

Lemma full_trackers_loop_fresh {E : Type} (self : TrackerFeaturizer E)
    domain (n0 : nat) trackers : ∀ p p',
  (n0 ≤ length (Full.heap p))%nat →
  Full.trackers_loop self domain p trackers = Ok p' →
  (∃ ext, Full.heap p' = Full.heap p ++ ext) ∧
  (Forall (Forall (λ s, ∀ l, s = Some l → (n0 ≤ l)%nat)) (Full.trackers_as_states p) →
   Forall (Forall (λ s, ∀ l, s = Some l → (n0 ≤ l)%nat)) (Full.trackers_as_states p')).
Proof.
  induction trackers as [|tracker trackers IH]; intros p p' Hn0; simpl.
  - intros [= <-]. split; [exists []; by rewrite app_nil_r | done].
  - destruct (Full.process_tracker self domain p tracker) as [p1|] eqn:Hp; [|done].
    simpl. intros Hloop.
    apply full_process_tracker_fresh in Hp as (ext1 & new & Hh1 & Htas1 & Hnew).
    apply IH in Hloop as [[ext2 Hh2] Hfresh]; [|rewrite Hh1, length_app; lia].
    split.
    + exists (ext1 ++ ext2). by rewrite Hh2, Hh1, app_assoc.
    + intros Hold. apply Hfresh. rewrite Htas1. apply Forall_app. split; [done|].
      constructor; [|constructor]. eapply Forall_impl; [exact Hnew|].
      intros s Hs l Hl. specialize (Hs l Hl). lia.
Qed.

Lemma examples_of_events_fresh max_history (n0 : nat) (states : list loc) events :
  ∀ idx,
  Forall (λ l, (n0 ≤ l)%nat) states →
  Forall (λ e : Example, Forall (λ s, ∀ l, s = Some l → (n0 ≤ l)%nat) e.1)
         (examples_of_events max_history states events idx).
Proof.
  induction events as [|[name unpredictable|description] events IH]; intros idx Hst;
    simpl.
  - constructor.
  - apply Forall_app. split; [|by apply IH].
    destruct unpredictable; [constructor|]. constructor; [|constructor]. simpl.
    unfold MaxHistory.slice_state_history. apply Forall_app. split.
    + by apply Forall_replicate.
    + apply Forall_fmap. apply Forall_forall. intros l Hl l' [= <-].
      rewrite Forall_forall in Hst. apply Hst.
      eapply elem_of_sublist; [exact Hl|]. etrans; [apply sublist_drop|].
      apply sublist_take.
  - by apply IH.
Qed.

Lemma batch_examples_fresh max_history domain (n0 : nat) trackers : ∀ h,
  (n0 ≤ length h)%nat →
  Forall (λ e : Example, Forall (λ s, ∀ l, s = Some l → (n0 ≤ l)%nat) e.1)
         (batch_examples max_history domain trackers h).
Proof.
  induction trackers as [|tracker trackers IH]; intros h Hn0; simpl; [constructor|].
  apply Forall_app. split.
  - apply examples_of_events_fresh. apply Forall_forall. intros l Hl.
    apply elem_of_seq in Hl. lia.
  - apply IH. rewrite length_app. lia.
Qed.

Lemma max_history_trackers_loop_extends {E : Type}
    (py_hash : list (option (gset (string * Qc))) * list string → Z)
    (self : TrackerFeaturizer E) domain trackers : ∀ h p p' h',
  MaxHistory.trackers_loop py_hash self domain trackers h p = Ok (p', h') →
  ∃ ext, h' = h ++ ext.
Proof.
  induction trackers as [|tracker trackers IH]; intros h p p' h'; simpl.
  - intros [= _ <-]. exists []. by rewrite app_nil_r.
  - destruct (_create_states self tracker domain true h) as [[states h1]|] eqn:Hs;
      [|done].
    simpl. intros Hloop. apply create_states_alloc in Hs as (dicts & _ & ->).
    apply IH in Hloop as [ext ->]. exists (dicts ++ ext). by rewrite app_assoc.
Qed.

Lemma training_fresh {E : Type} `{!SingleStateFeaturizer E}
    (py_hash : list (option (gset (string * Qc))) * list string → Z)
    (self : TrackerFeaturizer E) trackers domain h tas taa self' h' :
  training_states_and_actions py_hash self trackers domain h
    = Ok (tas, taa, self', h') →
  (∃ created, h' = h ++ created) ∧
  Forall (Forall (λ s, ∀ l, s = Some l → (length h ≤ l)%nat)) tas.
Proof.
  unfold training_states_and_actions. destruct (class_of self); [done| |].
  - unfold Full.training_states_and_actions.
    destruct (Full.trackers_loop self domain (Full.Progress [] [] h) trackers)
      as [p|] eqn:Hloop; [|done].
    simpl. intros [= <- _ _ <-].
    apply (full_trackers_loop_fresh self domain (length h)) in Hloop
      as [Hext Hfresh]; [|done].
    split; [exact Hext | by apply Hfresh].
  - destruct (max_history_training_sublist py_hash self trackers domain h)
      as (tas0 & taa0 & h0 & Hrun & Hlen & Hsub & _).
    intros Hrun'. rewrite Hrun in Hrun'. injection Hrun' as <- <- _ <-.
    unfold MaxHistory.training_states_and_actions in Hrun.
    destruct (MaxHistory.trackers_loop py_hash self domain trackers h
                (MaxHistory.Progress ∅ [] [])) as [[p h1]|] eqn:Hloop; [|done].
    simpl in Hrun. injection Hrun as _ _ <-.
    apply max_history_trackers_loop_extends in Hloop. split; [exact Hloop|].
    apply Forall_forall. intros window Hw.
    rewrite <- (fst_zip tas0 taa0) in Hw by lia.
    apply list_elem_of_fmap in Hw as (e & -> & He).
    pose proof (elem_of_sublist _ _ _ He Hsub) as Hc.
    pose proof (batch_examples_fresh (max_history self) domain (length h) trackers h)
      as Hall.
    rewrite Forall_forall in Hall. by apply Hall.
Qed.

Lemma elem_of_concat_1 {A} (x : A) (ls : list (list A)) :
  x ∈ concat ls → ∃ l, x ∈ l ∧ l ∈ ls.
Proof.
  induction ls as [|l ls IH]; simpl; [by intros ?%elem_of_nil|].
  intros [Hx|Hx]%elem_of_app.
  - exists l. split; [done | by left].
  - destruct (IH Hx) as (l' & Hl' & Hin). exists l'. split; [done | by right].
Qed.

(** X25.  [featurize_trackers] works on copies: whatever it deletes, it
    deletes from dicts it has created itself, so a dict that was in the
    store before the call is in it unchanged after the call. *)
Theorem featurize_trackers_preserves_store {E : Type} `{!SingleStateFeaturizer E}
    (py_hash : list (option (gset (string * Qc))) * list string → Z)
    (self : TrackerFeaturizer E)
    (trackers : list DialogueStateTracker) (domain : Domain) (h : Heap)
    (data : DialogueTrainingData) (self' : TrackerFeaturizer E) (h' : Heap) :
  outcome (featurize_trackers py_hash self trackers domain h) = Ok (data, self', h') →
  (length h ≤ length h')%nat ∧
  ∀ l d, h !! l = Some d → h' !! l = Some d.
Proof.
  intros Hrun.
  apply featurize_trackers_inv in Hrun
    as (e & e' & tas & taa & h1 & He & Hprep & Htrain & Hpost & _ & _).
  apply training_fresh in Htrain as [[created ->] Hfresh].
  destruct (postprocess_total tas (h ++ created)) as (h2 & Hrun2 & Hlen).
  rewrite Hpost in Hrun2. injection Hrun2 as <-.
  split; [rewrite Hlen, length_app; lia|].
  intros l d Hd. apply postprocess_trims in Hpost as [Hframe _].
  rewrite Hframe.
  - rewrite lookup_app_l; [done | by eapply lookup_lt_Some].
  - intros Hin. apply elem_of_concat_1 in Hin as (states & Hl & Hstates).
    rewrite Forall_forall in Hfresh. specialize (Hfresh states Hstates).
    rewrite Forall_forall in Hfresh. specialize (Hfresh (Some l) Hl l eq_refl).
    apply lookup_lt_Some in Hd. lia.
Qed.

Lemma mapM_Eff_returns {A B} (f : A → Eff B) l :
  Forall (λ x, ∃ r, outcome (f x) = Ok r) l → ∃ rs, outcome (mapM f l) = Ok rs.
Proof.
  induction 1 as [|x l [r Hr] _ [rs Hrs]]; [by exists []|].
  exists (r :: rs). apply mapM_Eff_intro. constructor; [done|].
  by apply mapM_Eff_Ok.
Qed.

Lemma pad_in_batch_padded {E A : Type} (self : TrackerFeaturizer E) batch_size
    (states : list (option A)) :
  (class_of self = FullDialogueTrackerFeaturizer → (1 < batch_size)%nat →
   is_Some (max_len self)) →
  (if (1 <? batch_size)%nat then _pad_states self states else Ok states)
  = Ok (padded self batch_size states).
Proof.
  intros Hset.
  destruct (if (1 <? batch_size)%nat then _pad_states self states else Ok states)
    as [r|e] eqn:Hpad.
  - by rewrite (pad_in_batch_ok _ _ _ _ Hpad).
  - exfalso. destruct (1 <? batch_size)%nat eqn:Hb; [|done].
    apply Nat.ltb_lt in Hb. unfold _pad_states in Hpad.
    destruct (class_of self); try done.
    destruct (Hset eq_refl Hb) as [m Hm]. rewrite Hm in Hpad.
    by destruct (Z.of_nat (length states) <? m).
Qed.

(** X26.  [_featurize_states] returns whenever a state featurizer is set
    whose [encode] returns on every entry of every sequence with its
    padding, provided a full-dialogue featurizer given more than one
    sequence has its [max_len] set; the true lengths it returns are the
    lengths of the sequences as given. *)
Theorem featurize_states_returns {E : Type} `{!SingleStateFeaturizer E}
    (self : TrackerFeaturizer E) (h : Heap) (tas : list (list (option loc))) (e : E) :
  state_featurizer self = Some e →
  (class_of self = FullDialogueTrackerFeaturizer → (1 < length tas)%nat →
   is_Some (max_len self)) →
  Forall (λ s, ∃ row, encode e (deref h s) = Ok row)
         (concat (padded self (length tas) <$> tas)) →
  ∃ X, outcome (_featurize_states self h tas)
       = Ok (X, (λ states : list (option loc), Z.of_nat (length states)) <$> tas).
Proof.
  intros He Hset Hencode.
  assert (∃ rows, outcome (mapM (featurize_tracker_states self h (length tas)) tas)
                  = Ok rows) as [rows Hrows].
  { apply mapM_Eff_returns. apply Forall_forall. intros states Hstates.
    unfold featurize_tracker_states.
    rewrite (pad_in_batch_padded self _ states Hset), ebind_lift_return.
    destruct (mapM_Eff_returns (encode_state self h)
                (padded self (length tas) states)) as [story Hstory].
    - apply Forall_forall. intros s Hs. unfold encode_state. rewrite He. simpl.
      rewrite Forall_forall in Hencode. apply Hencode.
      apply (elem_of_concat_2 _ (padded self (length tas) states)); [done|].
      apply list_elem_of_fmap. by exists states.
    - eexists. rewrite outcome_ebind, Hstory. reflexivity. }
  assert (outcome (_featurize_states self h tas) = Ok (rows.*1, rows.*2)) as Hrun.
  { unfold _featurize_states. by rewrite outcome_ebind, Hrows. }
  exists rows.*1. rewrite Hrun.
  by apply featurize_states_inv in Hrun as (<- & _).
Qed.

(* --------------------------------------------------------------------- *)
(** ** Worked instances of the further properties *)
(* --------------------------------------------------------------------- *)

Lemma create_states_keeps_weights_witness :
  _create_states demo_full_dialogue tracker_ab demo_domain true []
  = Ok ([0; 1]%nat,
        [ [("intent_greet", weight 1 1); ("slot_name", weight 1 1)]; [] ]).
Proof.
  apply (create_states_keeps_weights demo_full_dialogue tracker_ab demo_domain true []).
  - by right.
  - intros state Hin. simpl in Hin.
    apply elem_of_cons in Hin as [->|Hin]; [compute_done|].
    apply elem_of_cons in Hin as [->|Hin]; [compute_done | by apply elem_of_nil in Hin].
Defined.

Lemma create_states_at_most_one_intent_witness :
  ∃ bin_states,
    _create_states (TrackerFeaturizer_init (Some base_single_state_featurizer) false)
      {| past_states := fun _ =>
           [[("intent_greet", weight (-2) 1); ("slot_name", weight 1 1)];
            [("intent_greet", weight 1 2); ("intent_bye", weight 1 3)]];
         applied_events := [] |}
      demo_domain false []
    = Ok (seq 0 (length bin_states), bin_states) ∧
    length bin_states = 2%nat.
Proof.
  destruct (create_states_at_most_one_intent
              (TrackerFeaturizer_init (Some base_single_state_featurizer) false)
              {| past_states := fun _ =>
                   [[("intent_greet", weight (-2) 1); ("slot_name", weight 1 1)];
                    [("intent_greet", weight 1 2); ("intent_bye", weight 1 3)]];
                 applied_events := [] |}
              demo_domain [])
    as (bin_states & Hrun & Hall).
  - reflexivity.
  - intros state Hin. simpl in Hin.
    apply elem_of_cons in Hin as [->|Hin]; [compute_done|].
    apply elem_of_cons in Hin as [->|Hin]; [compute_done | by apply elem_of_nil in Hin].
  - exists bin_states. split; [exact Hrun|].
    by rewrite <- (Forall2_length _ _ _ Hall).
Defined.

Lemma action_as_one_hot_index_errors_witness :
  action_as_one_hot (Some "utter_thanks") demo_domain = Raise (KeyError "utter_thanks").
Proof.
  assert (0 ≤ num_actions demo_domain) as Hn by (simpl; lia).
  exact (action_as_one_hot_index_errors demo_domain "utter_thanks" Hn).
Defined.

Lemma one_hot_is_not_padding_witness :
  action_as_one_hot (Some "utter_greet") demo_domain = Ok [0; 1; 0] ∧
  action_as_one_hot None demo_domain = Ok [-1; -1; -1] ∧
  [0; 1; 0] ≠ [-1; -1; -1].
Proof.
  split; [reflexivity|]. split; [reflexivity|].
  apply (one_hot_is_not_padding demo_domain "utter_greet"); reflexivity.
Defined.

Lemma persist_then_load_witness :
  load demo_decode (persist demo_encode (demo_max_history 4 true) ∅ "models/core")
       "models/core"
  = (Ok (Some (demo_max_history 4 true)), []).
Proof.
  apply (persist_then_load demo_encode demo_decode (demo_max_history 4 true)
           ∅ "models/core").
  reflexivity.
Defined.

Lemma featurize_states_shape_witness :
  outcome (_featurize_states (set_max_len demo_full_dialogue (Some 2)) demo_heap
             [[Some 0%nat]; [Some 1%nat; Some 2%nat; Some 3%nat]])
  = Ok ([[[1; 1]; [-1; -1]]; [[1; 2]; [0; 1]; [2; 2]]], [1; 3]) ∧
  Forall2 (λ (states : list (option loc)) (story : list (list Z)),
             length story = Nat.max (length states) 2)
          [[Some 0%nat]; [Some 1%nat; Some 2%nat; Some 3%nat]]
          [[[1; 1]; [-1; -1]]; [[1; 2]; [0; 1]; [2; 2]]].
Proof.
  assert (outcome (_featurize_states (set_max_len demo_full_dialogue (Some 2)) demo_heap
                     [[Some 0%nat]; [Some 1%nat; Some 2%nat; Some 3%nat]])
          = Ok ([[[1; 1]; [-1; -1]]; [[1; 2]; [0; 1]; [2; 2]]], [1; 3])) as Hrun
    by reflexivity.
  split; [exact Hrun|].
  destruct (featurize_states_shape _ _ _ _ _ Hrun) as (_ & _ & _ & Hfull).
  apply (Hfull 2); [reflexivity | reflexivity | simpl; lia].
Defined.

Lemma featurize_states_encodes_in_order_witness :
  calls (_featurize_states (set_max_len demo_full_dialogue (Some 2)) demo_heap
           [[Some 0%nat]; [Some 1%nat; Some 2%nat; Some 3%nat]])
  = [ CallEncode (Some [("intent_greet", weight 1 1)]);
      CallEncode None;
      CallEncode (Some [("intent_greet", weight 1 1); ("prev_action_listen", weight 1 1)]);
      CallEncode (Some [("prev_utter_greet", weight 1 1)]);
      CallEncode (Some [("intent_greet", weight 1 1); ("intent_bye", weight 1 2)]) ].
Proof.
  assert (outcome (_featurize_states (set_max_len demo_full_dialogue (Some 2)) demo_heap
                     [[Some 0%nat]; [Some 1%nat; Some 2%nat; Some 3%nat]])
          = Ok ([[[1; 1]; [-1; -1]]; [[1; 2]; [0; 1]; [2; 2]]], [1; 3])) as Hrun
    by reflexivity.
  exact (proj2 (featurize_states_encodes_in_order _ _ _ _ _ Hrun)).
Defined.

Lemma create_X_before_training_witness :
  create_X demo_full_dialogue [tracker_ab; tracker_ba] demo_domain []
  = mkEff (Raise max_len_unset_error) [].
Proof.
  destruct (prediction_states demo_full_dialogue [tracker_ab; tracker_ba] demo_domain [])
    as [[tas h']|e] eqn:Hpred; [|vm_compute in Hpred; discriminate].
  apply (create_X_before_training demo_full_dialogue [tracker_ab; tracker_ba]
           demo_domain [] tas h'); [reflexivity | reflexivity | exact Hpred |].
  simpl. lia.
Defined.

Lemma create_X_max_history_shape_witness :
  outcome (create_X (demo_max_history 3 true)
             [story false ["action_listen"; "utter_greet"]] demo_domain [])
  = Ok [[[1; 1]; [1; 2]; [1; 2]]] ∧
  Forall (λ story : list (list Z), length story = 3%nat) [[[1; 1]; [1; 2]; [1; 2]]].
Proof.
  assert (outcome (create_X (demo_max_history 3 true)
                     [story false ["action_listen"; "utter_greet"]] demo_domain [])
          = Ok [[[1; 1]; [1; 2]; [1; 2]]]) as Hrun by (vm_compute; reflexivity).
  split; [exact Hrun|].
  exact (proj2 (create_X_max_history_shape (demo_max_history 3 true)
                  [story false ["action_listen"; "utter_greet"]] demo_domain []
                  [[[1; 1]; [1; 2]; [1; 2]]] eq_refl Hrun)).
Defined.

Lemma base_state_featurizer_encodes_nothing_witness :
  outcome (_featurize_states
             (TrackerFeaturizer_init (Some base_single_state_featurizer) false)
             demo_heap [[]; []])
  = Ok ([[]; []], [0; 0]) ∧
  calls (_featurize_states
           (TrackerFeaturizer_init (Some base_single_state_featurizer) false)
           demo_heap [[]; []]) = [].
Proof.
  assert (outcome (_featurize_states
                     (TrackerFeaturizer_init (Some base_single_state_featurizer) false)
                     demo_heap [[]; []])
          = Ok ([[]; []], [0; 0])) as Hrun by reflexivity.
  split; [exact Hrun|].
  by destruct (base_state_featurizer_encodes_nothing _ _ _ _ _ Hrun) as (_ & _ & Hcalls).
Defined.

Lemma max_history_labels_witness :
  outcome (_featurize_labels (demo_max_history 2 true)
             [["utter_greet"]; ["action_listen"]] demo_domain)
  = Ok (Labels2 [[0; 1; 0]; [1; 0; 0]]).
Proof.
  assert (Forall2 (λ a row, action_as_one_hot (Some a) demo_domain = Ok row)
                  ["utter_greet"; "action_listen"] [[0; 1; 0]; [1; 0; 0]]) as Hrows
    by (repeat constructor).
  exact (max_history_labels (demo_max_history 2 true) demo_domain
           (demo_featurizer false) _ _ eq_refl eq_refl Hrows).
Defined.

Lemma full_dialogue_labels_padded_witness :
  outcome (_featurize_labels (set_max_len demo_full_dialogue (Some 2))
             [["utter_greet"]; ["action_listen"; "utter_bye"]] demo_domain)
  = Ok (Labels3 [ [[0; 1; 0]; [-1; -1; -1]]; [[1; 0; 0]; [0; 0; 1]] ]).
Proof.
  assert (Forall2 (Forall2 (λ a row, action_as_one_hot (Some a) demo_domain = Ok row))
                  [["utter_greet"]; ["action_listen"; "utter_bye"]]
                  [[[0; 1; 0]]; [[1; 0; 0]; [0; 0; 1]]]) as Hlabels
    by (repeat constructor).
  assert (0 ≤ num_actions demo_domain) as Hn by (simpl; lia).
  assert (1 < length [["utter_greet"]; ["action_listen"; "utter_bye"]])%nat as Hbatch
    by (simpl; lia).
  exact (full_dialogue_labels_padded (set_max_len demo_full_dialogue (Some 2))
           demo_domain (demo_featurizer false) 2 _ _ eq_refl eq_refl eq_refl
           Hbatch Hn Hlabels).
Defined.

Lemma featurize_trackers_aligned_witness :
  ∃ data self' h',
    outcome (featurize_trackers demo_hash (demo_max_history 2 true)
               [story false ["action_listen"; "utter_greet"]] demo_domain [])
    = Ok (data, self', h') ∧
    length (true_length data) = length (X data) ∧
    labels_count (y data) = length (X data).
Proof.
  destruct (outcome (featurize_trackers demo_hash (demo_max_history 2 true)
                       [story false ["action_listen"; "utter_greet"]] demo_domain []))
    as [[[data self'] h']|e] eqn:Hrun; [|vm_compute in Hrun; discriminate].
  exists data, self', h'. split; [reflexivity|].
  destruct (featurize_trackers_aligned _ _ _ _ _ _ _ _ Hrun) as (H1 & H2 & _).
  by split.
Defined.

Lemma featurize_trackers_empty_batch_witness :
  ∃ self',
    featurize_trackers demo_hash demo_full_dialogue [] demo_domain demo_heap
    = mkEff (Ok ({| X := []; y := Labels3 []; true_length := [] |}, self', demo_heap))
            [CallPrepareFromDomain demo_domain] ∧
    state_featurizer self' = Some (demo_featurizer true) ∧
    max_len self' = None.
Proof.
  destruct (featurize_trackers_empty_batch demo_hash demo_full_dialogue demo_domain
              demo_heap (demo_featurizer false) (demo_featurizer true))
    as (self' & Hrun & Hsf & Hmax & _); [done | reflexivity | reflexivity|].
  exists self'. split; [exact Hrun|]. split; [exact Hsf|]. by apply Hmax.
Defined.

Lemma max_history_keeps_every_example_witness :
  ∃ tas taa h',
    MaxHistory.training_states_and_actions demo_hash (demo_max_history 2 false)
      [tracker_ab; tracker_ba] demo_domain []
    = Ok (tas, taa, demo_max_history 2 false, h') ∧
    taa = [["action_listen"]; ["action_listen"]].
Proof.
  destruct (max_history_keeps_every_example demo_hash (demo_max_history 2 false)
              [tracker_ab; tracker_ba] demo_domain [] eq_refl)
    as (tas & taa & h' & Hrun & _ & Htaa & _).
  exists tas, taa, h'. split; [exact Hrun|]. rewrite Htaa. reflexivity.
Defined.

Lemma postprocess_is_idempotent_witness :
  ∃ h',
    _postprocess_trackers_as_states
      [[Some 0%nat; None; Some 1%nat]; [Some 2%nat]] demo_heap = Ok h' ∧
    _postprocess_trackers_as_states
      [[Some 0%nat; None; Some 1%nat]; [Some 2%nat]] h' = Ok h'.
Proof.
  apply (postprocess_is_idempotent
           [[Some 0%nat; None; Some 1%nat]; [Some 2%nat]] demo_heap).
  - compute_done.
  - repeat constructor.
Defined.

Lemma prediction_states_allocates_fresh_witness :
  ∃ tas h' created,
    prediction_states (demo_max_history 3 true) [tracker_ab] demo_domain demo_heap
    = Ok (tas, h') ∧
    h' = demo_heap ++ created.
Proof.
  destruct (prediction_states (demo_max_history 3 true) [tracker_ab] demo_domain
              demo_heap) as [[tas h']|e] eqn:Hpred;
    [|vm_compute in Hpred; discriminate].
  destruct (prediction_states_allocates_fresh _ _ _ _ _ _ Hpred) as [[created Hh'] _].
  by exists tas, h', created.
Defined.

Lemma featurize_trackers_preserves_store_witness :
  ∃ data self' h',
    outcome (featurize_trackers demo_hash (demo_max_history 2 true)
               [story false ["action_listen"; "utter_greet"]] demo_domain demo_heap)
    = Ok (data, self', h') ∧
    h' !! 1%nat
    = Some [("intent_greet", weight 1 1); ("prev_action_listen", weight 1 1)].
Proof.
  destruct (outcome (featurize_trackers demo_hash (demo_max_history 2 true)
                       [story false ["action_listen"; "utter_greet"]] demo_domain
                       demo_heap))
    as [[[data self'] h']|e] eqn:Hrun; [|vm_compute in Hrun; discriminate].
  exists data, self', h'. split; [reflexivity|].
  destruct (featurize_trackers_preserves_store _ _ _ _ _ _ _ _ Hrun) as [_ Hkeep].
  by apply Hkeep.
Defined.

Lemma featurize_states_returns_witness :
  ∃ X, outcome (_featurize_states (demo_max_history 2 true) demo_heap
                  [[None; Some 0%nat]])
       = Ok (X, [2]).
Proof.
  apply (featurize_states_returns (demo_max_history 2 true) demo_heap
           [[None; Some 0%nat]] (demo_featurizer false)).
  - reflexivity.
  - intros Hcls. discriminate Hcls.
  - apply Forall_forall. intros s _. simpl.
    destruct (deref demo_heap s); by eexists.
Defined.
